(* ===== verification/_CoqProject ===== *)
-Q . S2P
Prelude.v
Browser.v
UrlCodec.v
Http.v
Session.v
JsonParse.v
OAuthCallback.v
CallbackPage.v
StrictMode.v
OAuthButtons.v
LoginForm.v
Storage.v
