(* ===== verification/Prelude.v ===== *)
(** * Verification of the authentication front end (apps-dev-frontend-final)

    The repository is the authentication slice of a Next.js application:
    - [src/services/auth.ts]: five HTTP services (signup, login, email
      verification, resend verification, token refresh), each one request
      through the axios instance [api] of [lib/axios];
    - [src/components/auth/login-form.tsx]: the login form; on submit it
      calls [loginService], stores the session in [localStorage], shows a
      toast, navigates to [/] and resets its fields;
    - [src/components/auth/oauth-buttons.tsx]: the Google/GitHub buttons,
      which start the provider redirect ([initiateOAuth]) once;
    - [src/app/(auth)/oauth-callback/page.tsx]: the page the provider
      redirects back to; it reads [code]/[error]/[status]/[message] from
      its query, exchanges the code ([exchangeOAuthCode]), stores the
      session, and settles in ["success"] (navigating to [/] after 1.5 s)
      or ["error"] (redirecting to [/login?error=<message>]).
    The components interact through shared browser state: both login
    paths write the same three [localStorage] keys; the callback's
    redirect carries its message to the login route in the query string.

    ** Files
    - [Prelude] (this file): the effect monad [M S E A := S -> outcome E A * S]
      modelling [async] code with [throw]/[try]/[catch] ([mret], [mbind],
      [mthrow], [try_catch], [attempt]; notation [x <- m ;; k] in
      [js_scope]); lifting to a (browser, hooks) pair ([lift_fst],
      [lift_snd]); JavaScript truthiness, [||] and [??] on possibly absent
      strings ([truthy], [js_or], [or_default], [nullish], [as_truthy]);
      the hint databases [js] and [js_rw]; the tactic [js_run].
    - [Browser]: the platform, not under [src/]: thrown values
      ([js_error]), requests, toasts, and the [world] record (storage with
      its quota, toasts, router history, location, sent requests, console,
      timers) with one computation per API ([setItem], [push],
      [toast_success], [toast_error], [console_error], [setTimeout_push],
      [assign_location], [run_timers]).
    - [UrlCodec]: [encodeURIComponent], [decodeURIComponent] and the
      [URLSearchParams] parser, on byte strings; the codec round trips,
      and where [decodeURIComponent] throws on a malformed escape.
    - [Http]: the response envelope, the [Backend] interface (a typeclass:
      every theorem holds for every backend), axios's [api], the services
      of [auth.ts], and, modelled from the specification because
      [auth.ts] does not define them, [exchangeOAuthCode], [initiateOAuth]
      (with the [OAuthEnv] interface deciding a synchronous failure) and
      [apiErrorHandler] (the [ApiErrorHandler] interface and the
      specification's instance).  [service_refines_spec] proves every
      service against the specification's endpoint table.
    - [Session]: [JSON.stringify] and the session block both login paths
      run ([persist_session]), shown equal to its list of [setItem] calls,
      with what the storage holds on success and on a quota failure.
    - [JsonParse]: [JSON.parse], modelled from ECMA-262/ECMA-404 as a
      recursive-descent parser on fuel ([parse_value], [parse_elems],
      [parse_members], [parse_chars], [parse_number]), building objects
      the way [CreateDataProperty] does ([obj_insert]: a repeated key keeps
      its place and takes the last value, array-index keys come first);
      [json_wf] is what a parsed value satisfies.
    - [OAuthCallback]: the page's hooks ([cb_state]), [processCallback]
      and its render; one exact-effect theorem per branch, the totality
      and terminal-state theorem, and the redirect round trip.
    - [CallbackPage]: the callback page over time.  [processCallback] is
      split at its [await] ([callback_start] sends the exchange,
      [callback_settle] handles the answer); the page ([cb_page]: world,
      hooks, mounted flag, phase of the effect) moves by the deterministic
      [page_step] on four events: the effect runs, the exchange answers,
      the user navigates away (unmount), due timers run.  State updates
      after the unmount are dropped, as React drops them; browser effects
      are not.
    - [StrictMode]: the callback page when React runs its effect
      [effect_runs] times after the first render (once in a production
      build, twice under the strict mode of a development build, which
      the App Router enables by default): the runs ([start_runs]) each go
      up to their [await], the exchanges in flight form a list, and an
      answer names the one it settles ([sm_step]).  [to_page] maps a
      state to the page of [CallbackPage].
    - [OAuthButtons]: the buttons' hooks and props, [handleOAuthClick] and
      its render; the guard, click sequences, render consistency.
    - [LoginForm]: the form's state, [onSubmit], react-hook-form's
      [handleSubmit], the render, and the form as a transition system
      ([form_step]) where the login request's answer is a separate event;
      the in-flight invariant by rule induction, and the refinement of
      [handleSubmit] by a submit step followed by a settle step.
    - [Storage]: what the whole program does to the browser, handler by
      handler.  A relation between worlds, reflexive and transitive, is
      kept by a computation ([keeps]); the class [BrowserRel] states what
      the primitives of [Browser] promise such a relation, and the
      handlers of every component keep each instance, with the hint
      database [browser_kept] and the tactic [keeps_auto] following the
      handlers' code.  Two instances: the storage within its quota
      ([quota_kept]) and the toasts shown with a text ([toasts_kept]).

    ** How the model corresponds to the code
    A handler is a computation on the pair (browser [world], component
    state record), the state record holding the component's [useState]
    hooks with their initial values.  An [await] on a service is, in the
    atomic models ([onSubmit], [processCallback]), a call of the
    computation; the theorems [onSubmit_settle],
    [handleSubmit_refines_steps] and [processCallback_as_events] relate it
    to the event models in which the answer arrives later.  React batches the state updates of an
    event handler; the model applies them in order, which gives the same
    final state.  Clicks are handled one at a time on the state the
    previous one left (React re-renders between discrete events).  The
    backend, the redirect's synchronous failure and [apiErrorHandler] are
    interfaces; concrete instances appear only in witnesses.

    ** Bounds and fuel
    Only the [JSON.parse] model needs fuel (its recursion goes through
    the rest of the text, not a subterm): [json_parse] gives it twice the
    length of the text plus one.  Each step of [parse_value] into an
    array or object consumes a character and each element or member
    consumes at least one more, so the fuel suffices: [parse_fuel] shows
    that fuel runs out only when it is at most twice the length, and
    [json_parse_total] that [json_parse] never runs out.  Every other
    function recurses structurally (on strings, lists or JSON values).  [localStorage] has an explicit quota
    ([w_quota], in characters of keys and values); [setItem] throws
    [QuotaExceededError] past it, which is what makes the session writes
    fail half-way.  Timers carry their delay; [run_timers] runs all due
    timers in order of delay.

    ** What the theorems show
    - consistency of the model (lemmas, not properties of the code): the
      event models equal the handlers they split at an [await]
      ([processCallback_as_events], [onSubmit_settle],
      [handleSubmit_refines_steps]); with one run the strict-mode page is
      the page of [CallbackPage] ([strict_one_run_refines]); the form's
      bookkeeping invariant ([reachable_form_inv]); the quota kept by
      every handler, which follows from [setItem]'s own check
      ([storage_within_quota]).
    - callback ([OAuthCallback]): every branch's exact effect
      ([processCallback_error_param], [_missing_code], [_success],
      [_exchange_error], [_rejected]); every run terminates in exactly one
      terminal state with exactly one navigation action
      ([processCallback_settles]); the redirect's message round-trips
      through [encodeURIComponent]/[URLSearchParams]
      ([processCallback_redirect_roundtrip], [login_error_url_roundtrip]);
      the specification's scenarios ([callback_access_denied],
      [processCallback_success_navigates_home]); the render.
    - callback page ([CallbackPage]): on every reachable
      state (rule induction on [reachable]) the spinner shows exactly
      until the effect completes, the status changes once, and at most
      one request is sent; leaving the page cancels neither the success
      timer nor the error redirect ([success_timer_fires_after_leaving],
      [error_redirect_after_leaving]).
    - effect runs ([StrictMode]): [n] runs send at
      most [n] requests, and on the code path exactly [n] exchanges of the
      same code ([effect_runs_requests]); under strict mode a success
      followed by the failure of the reused code ends the page in error
      after the session was stored and the success toast shown
      ([strict_mode_success_then_error]), against the specification's
      single transition out of loading.
    - session ([Session]): tokens stored exactly when the writes fit, the
      user only when it is truthy, as [if (response.data.user)] tests it
      ([json_truthy]; [persist_session_stores]); a response without a
      user, or with a falsy one, keeps the previous user
      ([persist_session_stale_user]); a quota failure leaves nothing new,
      the new access token alone or both tokens
      ([persist_session_quota_prefix]) and
      can leave a new access token next to an old refresh token
      ([persist_session_partial_write]).
    - login form ([LoginForm]): success, request error and the silent
      rejection of a non-success answer; no submission replaces a pending
      one.
    - buttons ([OAuthButtons]): the idempotent guard, the outcome of a
      click, at most one call of the parent's callback over any click
      sequence (observed in the browser), and the render after a click
      ([render_after_click]).
    - services ([Http]): refinement of the specification's table.
    - stored user ([JsonParse]): [JSON.parse] of [JSON.stringify(u)] is [u]
      for every well-formed [u] ([json_parse_stringify]), so the truthy
      user both login paths store reads back
      ([persist_session_user_roundtrip]);
      every parsed value is well formed ([json_parse_wf]), the parser
      terminates ([json_parse_total]) and rejects text after a value
      ([json_parse_trailing]).
    - the browser across handlers ([Storage]): every toast of the
      callback page has a text, those of the login form when
      [apiErrorHandler] never returns an empty message, those of a button
      click when the redirect throws only errors with a message
      ([toasts_never_empty];
      [login_toast_empty_with_lax_handler] and
      [click_toast_empty_with_empty_error] show the empty toasts); from
      the same answer the two
      login paths leave the same storage, even when a write fails halfway
      ([login_paths_same_storage]).

    ** Not modelled, and why
    - [lib/axios] and [components/auth/schemas/validators] are not in the
      repository: [api] and [apiErrorHandler] are modelled from the
      specification, validation is a parameter ([valid]).
    - Presentation (the UI library, icons, class names): the renders keep
      only texts, links and disabled flags.
    - Next.js routing beyond [router.push] and the query of the URL.
    - Numbers that are not safe integers: the model's JSON values carry
      integers ([Http.json]), so [JSON.parse] reports a literal whose
      exact value is not an integer of magnitude at most [2^53] (or a
      [\u] escape above 255) as [Unrepresentable] instead of rounding it
      to a double.
    - A re-run of the callback effect because [searchParams] changed: it
      would need a client-side navigation to the callback route with a
      new query, which no code of the repository performs.
    - Nothing else of [src/]: the lines the map leaves out are imports,
      blank lines, one comment and closing braces.  The components the
      code only calls ([lib/axios], the browser, [URLSearchParams],
      [JSON]) are modelled as far as the code uses them, and stay
      partly modelled for that reason.

    ** History of the development
    The components of [src/] and the services; the callback page as a
    transition system, [CallbackPage]; [JSON.parse] and the stored
    user's round trip, [JsonParse]; the quota, toast and shared-storage
    properties, [Storage]; the effect run several times, [StrictMode];
    the decoders on malformed escapes ([decodeURIComponent_fails],
    [form_decode_agrees]) and the callback on boundary queries
    ([callback_boundary_queries]).  A signup or email-verification flow
    is not in the repository's components: only its services are
    modelled. *)

From stdpp Require Import base gmap strings list.
From Stdlib Require Import String Ascii.

(** * The effect monad of the development

    The TypeScript handlers are [async] functions with [try]/[catch]; they
    read and write browser state (local storage, the router, the toaster,
    the console, timers) and can throw.  We model one such function as a
    state-and-exception computation [M S E A := S -> outcome E A * S]:
    [Exc e] is a thrown value [e], and the state after a throw keeps every
    write made before it, as JavaScript does. *)

Inductive outcome (E A : Type) : Type :=
| Ok (a : A)
| Exc (e : E).
Arguments Ok {E A} a.
Arguments Exc {E A} e.

Definition M (S E A : Type) : Type := S -> outcome E A * S.

Section Monad.
Context {S E : Type}.

Definition mret {A} (a : A) : M S E A := fun s => (Ok a, s).

Definition mbind {A B} (m : M S E A) (k : A -> M S E B) : M S E B :=
  fun s => match m s with
           | (Ok a, s') => k a s'
           | (Exc e, s') => (Exc e, s')
           end.

(** [throw e] *)
Definition mthrow {A} (e : E) : M S E A := fun s => (Exc e, s).

(** [try { m } catch (e) { h e }] *)
Definition try_catch {A} (m : M S E A) (h : E -> M S E A) : M S E A :=
  fun s => match m s with
           | (Ok a, s') => (Ok a, s')
           | (Exc e, s') => h e s'
           end.

(** The settled value of a promise: [m]'s result reified, never throwing. *)
Definition attempt {A} (m : M S E A) : M S E (outcome E A) :=
  fun s => let '(r, s') := m s in (Ok r, s').

Definition mget : M S E S := fun s => (Ok s, s).
Definition mput (s : S) : M S E unit := fun _ => (Ok tt, s).
Definition mmodify (f : S -> S) : M S E unit := fun s => (Ok tt, f s).

(** Run a computation; [final] and [result] project the pair. *)
Definition final {A} (m : M S E A) (s : S) : S := snd (m s).
Definition result {A} (m : M S E A) (s : S) : outcome E A := fst (m s).
End Monad.

Declare Scope js_scope.
Delimit Scope js_scope with js.
Notation "x <- m ;; k" := (mbind m (fun x => k))
  (at level 100, m at next level, right associativity) : js_scope.
Notation "m ;; k" := (mbind m (fun _ => k))
  (at level 100, right associativity) : js_scope.
Open Scope js_scope.

(** ** Lifting a computation on one part of a product state

    A React component's handler changes both the browser (the first
    component) and the component's own [useState] hooks (the second). *)
Section Lift.
Context {S1 S2 E : Type}.

Definition lift_fst {A} (m : M S1 E A) : M (S1 * S2) E A :=
  fun '(s1, s2) => let '(r, s1') := m s1 in (r, (s1', s2)).

Definition lift_snd {A} (m : M S2 E A) : M (S1 * S2) E A :=
  fun '(s1, s2) => let '(r, s2') := m s2 in (r, (s1, s2')).
End Lift.

(** * Values of JavaScript used by the code *)

(** A string that may be [null] or [undefined] is [option string]. *)
Definition truthy (o : option string) : bool :=
  match o with
  | Some s => negb (String.eqb s "")
  | None => false
  end.

(** [a || b] on two possibly absent strings. *)
Definition js_or (a b : option string) : option string :=
  if truthy a then a else b.

(** [a || "default"]: the left operand when it is truthy. *)
Definition or_default (a : option string) (d : string) : string :=
  match js_or a (Some d) with Some s => s | None => d end.

(** [a ?? "default"]: only [null]/[undefined] select the default. *)
Definition nullish (a : option string) (d : string) : string :=
  match a with Some s => s | None => d end.

(** * Automation *)

Create HintDb js discriminated.
Create Rewrite HintDb js_rw.

(** ** Monad equations *)

Section MonadLaws.
Context {S E : Type}.

Lemma mbind_mret_l {A B} (a : A) (k : A -> M S E B) s :
  (x <- mret a ;; k x) s = k a s.
Proof. reflexivity. Qed.

Lemma mbind_mthrow {A B} (e : E) (k : A -> M S E B) s :
  mbind (mthrow e) k s = (Exc e, s).
Proof. reflexivity. Qed.

Lemma mbind_assoc {A B C} (m : M S E A) (f : A -> M S E B) (g : B -> M S E C) s :
  mbind (mbind m f) g s = mbind m (fun x => mbind (f x) g) s.
Proof. unfold mbind. by destruct (m s) as [[a|e] s']. Qed.

Lemma try_catch_mret {A} (a : A) (h : E -> M S E A) s :
  try_catch (mret a) h s = (Ok a, s).
Proof. reflexivity. Qed.

Lemma try_catch_mthrow {A} (e : E) (h : E -> M S E A) s :
  try_catch (mthrow e) h s = h e s.
Proof. reflexivity. Qed.

(** [try { x = await m; k x } catch h] splits at the [await]: the
    settled value of [m] either continues in [k] under the same
    handler or goes straight to the handler. *)
Lemma try_catch_bind {A B} (m : M S E A) (k : A -> M S E B) h s :
  try_catch (mbind m k) h s =
    mbind (attempt m)
      (fun r => match r with
                | Ok a => try_catch (k a) h
                | Exc e => h e
                end) s.
Proof. unfold try_catch, mbind, attempt. by destruct (m s) as [[a|e] s']. Qed.
End MonadLaws.

#[export] Hint Rewrite @mbind_mret_l @mbind_mthrow @try_catch_mret @try_catch_mthrow : js_rw.

(** ** Strings *)

(** stdpp declares [String.append] [simpl never]; these are its two
    defining equations, used to rewrite instead of [simpl]. *)
Lemma string_app_nil_l (b : string) : ("" ++ b)%string = b.
Proof. reflexivity. Qed.

Lemma string_app_cons (x : ascii) (a b : string) :
  (String x a ++ b)%string = String x (a ++ b).
Proof. reflexivity. Qed.

#[export] Hint Rewrite string_app_nil_l string_app_cons : js_rw.

Lemma string_app_assoc (a b c : string) :
  ((a ++ b) ++ c)%string = (a ++ (b ++ c))%string.
Proof.
  induction a as [|x a IH]; [done|].
  by rewrite !string_app_cons, IH.
Qed.

Lemma string_app_nil_r (a : string) : (a ++ "")%string = a.
Proof. induction a as [|x a IH]; [done|]. by rewrite string_app_cons, IH. Qed.

Lemma string_length_app (a b : string) :
  String.length (a ++ b) = String.length a + String.length b.
Proof. induction a as [|x a IH]; [done|]. rewrite string_app_cons. simpl. by rewrite IH. Qed.

#[export] Hint Rewrite string_app_assoc string_length_app : js_rw.

Lemma truthy_Some (s : string) : truthy (Some s) = true <-> s <> ""%string.
Proof.
  simpl. rewrite negb_true_iff. split.
  - intros H ->. done.
  - intros H. destruct (String.eqb_spec s ""); congruence.
Qed.

Lemma or_default_truthy (a : string) (d : string) :
  a <> ""%string -> or_default (Some a) d = a.
Proof. intros H. unfold or_default, js_or. by rewrite (proj2 (truthy_Some a) H). Qed.

Lemma or_default_falsy (a : option string) (d : string) :
  truthy a = false -> or_default a d = d.
Proof. intros H. unfold or_default, js_or. by rewrite H. Qed.

Lemma or_default_nonempty (a : option string) (d : string) :
  d <> ""%string -> or_default a d <> ""%string.
Proof.
  intros Hd. unfold or_default, js_or.
  destruct (truthy a) eqn:Ht; [|done].
  destruct a as [s|]; [|done]. by apply truthy_Some.
Qed.

#[export] Hint Resolve or_default_nonempty : js.

(** ** Tactics *)

(** Unfold the monad combinators and simplify; used to run a handler
    symbolically up to its first branch on a value it does not know. *)
Ltac js_run :=
  repeat (unfold mbind, mret, mthrow, try_catch, attempt, mget, mput,
                 mmodify, lift_fst, lift_snd, final, result in *; simpl in *).

(** [if (x) { ... x ... }] on a possibly absent string: the value when
    it is truthy. *)
Definition as_truthy (o : option string) : option string :=
  if truthy o then o else None.

Lemma as_truthy_Some o s : as_truthy o = Some s -> o = Some s /\ s <> ""%string.
Proof.
  unfold as_truthy. destruct (truthy o) eqn:Ht; [|done].
  intros ->. split; [done|]. by apply truthy_Some.
Qed.
