(* ===== verification/Browser.v ===== *)
(** * The browser platform the components act on

    The handlers of the repository touch the browser through a handful of
    APIs: [localStorage.setItem], Next's [router.push], [window.location]
    (full-page redirects), sonner's [toast.success]/[toast.error],
    [console.error], [setTimeout], and the HTTP requests axios sends.  We
    keep all of it in one record [world], and every API is a computation of
    [JS := M world js_error].  None of this code is under [src/]: it is the
    platform, modelled from its documented behaviour. *)

From stdpp Require Import base gmap strings list.
From Stdlib Require Import String Ascii ZArith.
From S2P Require Import Prelude.

(** ** Thrown values *)

(** What a [catch] clause of the repository can receive. *)
Inductive js_error : Type :=
(** an axios error: HTTP status when the server answered, the [message]
    field of the JSON error body when there is one, and the error's own
    [message] ("Network Error", "Request failed with status code 401") *)
| AxiosError (status : option Z) (payload_message : option string) (message : string)
(** [new Error(message)] *)
| PlainError (message : string)
(** the [DOMException] [localStorage.setItem] throws past the quota *)
| QuotaExceededError
(** a thrown value that is not an [Error] instance *)
| NonErrorValue.

#[export] Instance js_error_eq_dec : EqDecision js_error.
Proof. solve_decision. Defined.

(** [err instanceof Error] *)
Definition is_error_instance (e : js_error) : bool :=
  match e with NonErrorValue => false | _ => true end.

(** [err.message] of an [Error] instance. *)
Definition error_message (e : js_error) : string :=
  match e with
  | AxiosError _ _ m => m
  | PlainError m => m
  | QuotaExceededError => "The quota has been exceeded."
  | NonErrorValue => ""
  end.

(** ** HTTP requests as axios issues them *)

Inductive http_method : Type := GET | POST.

#[export] Instance http_method_eq_dec : EqDecision http_method.
Proof. solve_decision. Defined.

(** A request: method, path, query parameters ([params]) and JSON body
    (a flat object of string fields). *)
Record request : Type := mk_request {
  rq_method : http_method;
  rq_path : string;
  rq_params : list (string * string);
  rq_body : list (string * string)
}.

#[export] Instance request_eq_dec : EqDecision request.
Proof. solve_decision. Defined.

(** ** Notifications *)

Inductive toast : Type :=
| ToastSuccess (m : string)
| ToastError (m : string).

#[export] Instance toast_eq_dec : EqDecision toast.
Proof. solve_decision. Defined.

(** ** The browser state *)

Record world : Type := mk_world {
  w_storage : gmap string string;   (** [localStorage] *)
  w_quota : nat;                    (** its capacity, in characters *)
  w_toasts : list toast;            (** notifications shown, in order *)
  w_history : list string;          (** [router.push] targets, in order *)
  w_location : option string;       (** full-page navigation, if any *)
  w_sent : list request;            (** HTTP requests sent, in order *)
  w_console : list js_error;        (** [console.error] lines *)
  w_timers : list (nat * string)    (** pending [setTimeout] navigations *)
}.

Abbreviation JS := (M world js_error).

Definition set_storage (st : gmap string string) (w : world) : world :=
  mk_world st (w_quota w) (w_toasts w) (w_history w) (w_location w)
           (w_sent w) (w_console w) (w_timers w).
Definition add_toast (t : toast) (w : world) : world :=
  mk_world (w_storage w) (w_quota w) (w_toasts w ++ [t]) (w_history w)
           (w_location w) (w_sent w) (w_console w) (w_timers w).
Definition add_history (p : string) (w : world) : world :=
  mk_world (w_storage w) (w_quota w) (w_toasts w) (w_history w ++ [p])
           (w_location w) (w_sent w) (w_console w) (w_timers w).
Definition set_location (u : string) (w : world) : world :=
  mk_world (w_storage w) (w_quota w) (w_toasts w) (w_history w)
           (Some u) (w_sent w) (w_console w) (w_timers w).
Definition add_sent (r : request) (w : world) : world :=
  mk_world (w_storage w) (w_quota w) (w_toasts w) (w_history w)
           (w_location w) (w_sent w ++ [r]) (w_console w) (w_timers w).
Definition add_console (e : js_error) (w : world) : world :=
  mk_world (w_storage w) (w_quota w) (w_toasts w) (w_history w)
           (w_location w) (w_sent w) (w_console w ++ [e]) (w_timers w).
Definition set_timers (ts : list (nat * string)) (w : world) : world :=
  mk_world (w_storage w) (w_quota w) (w_toasts w) (w_history w)
           (w_location w) (w_sent w) (w_console w) ts.

(** ** [localStorage] *)

(** Characters in use: every key and value, as the quota counts them. *)
Definition storage_size (st : gmap string string) : nat :=
  map_fold (fun k v acc => String.length k + String.length v + acc) 0 st.

(** [localStorage.setItem(k, v)]: stores the pair, or throws
    [QuotaExceededError] and leaves the storage as it was when the result
    would not fit. *)
Definition setItem (k v : string) : JS unit :=
  fun w => let st := <[k := v]> (w_storage w) in
           if storage_size st <=? w_quota w
           then (Ok tt, set_storage st w)
           else (Exc QuotaExceededError, w).

Definition getItem (k : string) : JS (option string) :=
  fun w => (Ok (w_storage w !! k), w).

(** ** Router, location, toaster, console, timers *)

(** [router.push(p)] *)
Definition push (p : string) : JS unit := fun w => (Ok tt, add_history p w).

(** [window.location.href = u] *)
Definition assign_location (u : string) : JS unit := fun w => (Ok tt, set_location u w).

Definition toast_success (m : string) : JS unit := fun w => (Ok tt, add_toast (ToastSuccess m) w).
Definition toast_error (m : string) : JS unit := fun w => (Ok tt, add_toast (ToastError m) w).

Definition console_error (e : js_error) : JS unit := fun w => (Ok tt, add_console e w).

(** [setTimeout(() => router.push(p), delay)]: the only timer callback of
    the repository is a navigation. *)
Definition setTimeout_push (p : string) (delay : nat) : JS unit :=
  fun w => (Ok tt, set_timers (w_timers w ++ [(delay, p)]) w).

(** The event loop runs the pending timers once their delay has elapsed:
    in order of delay, ties in order of creation (a stable sort). *)
Fixpoint insert_timer (t : nat * string) (ts : list (nat * string)) : list (nat * string) :=
  match ts with
  | [] => [t]
  | t' :: ts' => if t.1 <? t'.1 then t :: t' :: ts' else t' :: insert_timer t ts'
  end.

Definition timer_order (ts : list (nat * string)) : list (nat * string) :=
  foldr insert_timer [] (reverse ts).

Definition run_timers (w : world) : world :=
  set_timers [] (foldl (fun w' t => add_history t.2 w') w (timer_order (w_timers w))).

(** ** The effect of each API on the state *)

Section Platform.
Context (w : world).

Lemma setItem_fits k v :
  storage_size (<[k := v]> (w_storage w)) <= w_quota w ->
  setItem k v w = (Ok tt, set_storage (<[k := v]> (w_storage w)) w).
Proof. intros H. unfold setItem. by rewrite (proj2 (Nat.leb_le _ _) H). Qed.

Lemma setItem_exceeds k v :
  w_quota w < storage_size (<[k := v]> (w_storage w)) ->
  setItem k v w = (Exc QuotaExceededError, w).
Proof.
  intros H. unfold setItem.
  destruct (Nat.leb_spec (storage_size (<[k := v]> (w_storage w))) (w_quota w)); [lia|done].
Qed.
End Platform.

Lemma storage_set_storage st w : w_storage (set_storage st w) = st.
Proof. reflexivity. Qed.

Lemma quota_set_storage st w : w_quota (set_storage st w) = w_quota w.
Proof. reflexivity. Qed.

#[export] Hint Rewrite storage_set_storage quota_set_storage : js_rw.

(** [setItem] changes nothing but the storage; a failed one changes nothing. *)
Lemma setItem_frame k v w :
  set_storage (w_storage (final (setItem k v) w)) w = final (setItem k v) w.
Proof.
  unfold final, setItem.
  destruct (storage_size _ <=? w_quota w); [done|].
  by destruct w.
Qed.

(** Case on the outcome of every [setItem] in the goal, in order. *)
Ltac setItem_cases :=
  repeat (match goal with
          | |- context [setItem ?k ?v ?w] =>
              let w' := fresh "w" in destruct (setItem k v w) as [[[]|?] w']
          end; simpl); try done.
