(* ===== verification/UrlCodec.v ===== *)
(** * Percent-encoding and query strings

    The callback page builds its redirect as
    [`/login?error=${encodeURIComponent(errorMessage)}`] and reads its own
    query through [useSearchParams()], a [URLSearchParams].  Both are
    JavaScript built-ins, modelled here from their definitions (ECMA-262
    [encodeURIComponent]/[decodeURIComponent], WHATWG
    application/x-www-form-urlencoded parsing).  A Rocq [string] is read as
    the UTF-8 bytes of the JavaScript string: [encodeURIComponent] escapes
    each such byte as [%XX]. *)

From stdpp Require Import base strings list.
From Stdlib Require Import String Ascii.
From S2P Require Import Prelude.

(** ** Characters *)

Definition in_range (lo hi : nat) (c : ascii) : bool :=
  (lo <=? nat_of_ascii c) && (nat_of_ascii c <=? hi).

(** The characters [encodeURIComponent] leaves alone:
    [A-Z a-z 0-9 - _ . ! ~ * ' ( )]. *)
Definition is_unreserved (c : ascii) : bool :=
  in_range 65 90 c || in_range 97 122 c || in_range 48 57 c ||
  bool_decide (nat_of_ascii c ∈ [45; 95; 46; 33; 126; 42; 39; 40; 41]).

(** An upper-case hexadecimal digit, for [0 <= n < 16]. *)
Definition hex_digit (n : nat) : ascii :=
  ascii_of_nat (if n <? 10 then 48 + n else 55 + n).

(** The value of a hexadecimal digit of either case. *)
Definition hex_val (c : ascii) : option nat :=
  if in_range 48 57 c then Some (nat_of_ascii c - 48)
  else if in_range 65 70 c then Some (nat_of_ascii c - 55)
  else if in_range 97 102 c then Some (nat_of_ascii c - 87)
  else None.

(** ** [encodeURIComponent] and [decodeURIComponent] *)

Fixpoint encodeURIComponent (s : string) : string :=
  match s with
  | EmptyString => EmptyString
  | String c s' =>
      if is_unreserved c then String c (encodeURIComponent s')
      else String "%" (String (hex_digit (nat_of_ascii c / 16))
                        (String (hex_digit (nat_of_ascii c mod 16))
                           (encodeURIComponent s')))
  end.

(** [decodeURIComponent]: a [%] not followed by two hexadecimal digits is
    a [URIError] ([None]). *)
Fixpoint decodeURIComponent (s : string) : option string :=
  match s with
  | EmptyString => Some EmptyString
  | String c ((String h (String l rest)) as t) =>
      if Ascii.eqb c "%" then
        match hex_val h, hex_val l with
        | Some a, Some b => String (ascii_of_nat (16 * a + b)) <$> decodeURIComponent rest
        | _, _ => None
        end
      else String c <$> decodeURIComponent t
  | String c t => if Ascii.eqb c "%" then None else String c <$> decodeURIComponent t
  end.

(** ** [URLSearchParams] *)

(** The percent-decoding of a form-encoded name or value: [+] is a space,
    a [%] not followed by two hexadecimal digits is kept as it is. *)
Fixpoint form_decode (s : string) : string :=
  match s with
  | EmptyString => EmptyString
  | String c ((String h (String l rest)) as t) =>
      if Ascii.eqb c "%" then
        match hex_val h, hex_val l with
        | Some a, Some b => String (ascii_of_nat (16 * a + b)) (form_decode rest)
        | _, _ => String c (form_decode t)
        end
      else if Ascii.eqb c "+" then String " " (form_decode t)
      else String c (form_decode t)
  | String c t => if Ascii.eqb c "+" then String " " (form_decode t) else String c (form_decode t)
  end.

(** Split at every occurrence of [sep]. *)
Fixpoint split_on (sep : ascii) (s : string) : list string :=
  match s with
  | EmptyString => [EmptyString]
  | String c t =>
      if Ascii.eqb c sep then EmptyString :: split_on sep t
      else match split_on sep t with
           | [] => [String c EmptyString]
           | w :: ws => String c w :: ws
           end
  end.

(** Split at the first [=]: the name, and the value ([""] when there is
    no [=]). *)
Fixpoint split_name_value (s : string) : string * string :=
  match s with
  | EmptyString => (EmptyString, EmptyString)
  | String c t =>
      if Ascii.eqb c "=" then (EmptyString, t)
      else let '(n, v) := split_name_value t in (String c n, v)
  end.

(** The name/value list of a query string (without its [?]): empty
    sequences between [&] are skipped. *)
Definition parse_query (q : string) : list (string * string) :=
  map (fun piece => let '(n, v) := split_name_value piece in (form_decode n, form_decode v))
      (filter (fun piece => piece <> EmptyString) (split_on "&" q)).

(** The query of a URL: what follows its first [?]. *)
Fixpoint query_of_url (u : string) : string :=
  match u with
  | EmptyString => EmptyString
  | String c t => if Ascii.eqb c "?" then t else query_of_url t
  end.

(** [searchParams.get(name)]: the first value with this name, [null] when
    there is none. *)
Fixpoint search_get (ps : list (string * string)) (name : string) : option string :=
  match ps with
  | [] => None
  | (n, v) :: ps' => if String.eqb n name then Some v else search_get ps' name
  end.

Example encode_example :
  encodeURIComponent "Invalid callback. Missing code." =
    "Invalid%20callback.%20Missing%20code.".
Proof. reflexivity. Qed.

Example decode_example :
  decodeURIComponent "a%2Bb%20c" = Some "a+b c".
Proof. reflexivity. Qed.

Example parse_example :
  parse_query "code=abc&state=x+y&&flag" = [("code", "abc"); ("state", "x y"); ("flag", "")].
Proof. reflexivity. Qed.

(** A string whose every character satisfies [p]. *)
Fixpoint all_chars (p : ascii -> bool) (s : string) : bool :=
  match s with
  | EmptyString => true
  | String c t => p c && all_chars p t
  end.

(** ** Characters and digits *)

Lemma hex_val_digit n : n < 16 -> hex_val (hex_digit n) = Some n.
Proof.
  intros H. do 16 (destruct n as [|n]; [reflexivity|]). lia.
Qed.

Lemma hex_digit_unreserved n : n < 16 -> is_unreserved (hex_digit n) = true.
Proof.
  intros H. do 16 (destruct n as [|n]; [reflexivity|]). lia.
Qed.

(** Splitting a byte into its two hexadecimal digits loses nothing. *)
Lemma byte_of_digits (c : ascii) :
  ascii_of_nat (16 * (nat_of_ascii c / 16) + nat_of_ascii c mod 16) = c.
Proof.
  rewrite <- (Nat.div_mod (nat_of_ascii c) 16) by lia.
  apply ascii_nat_embedding.
Qed.

Lemma digits_bounded (c : ascii) :
  nat_of_ascii c / 16 < 16 /\ nat_of_ascii c mod 16 < 16.
Proof.
  pose proof (nat_ascii_bounded c).
  split; [apply Nat.Div0.div_lt_upper_bound; lia | apply Nat.mod_upper_bound; lia].
Qed.

(** An unreserved character is none of the delimiters the decoders and
    the query parser look for. *)
Lemma unreserved_not (c x : ascii) :
  is_unreserved c = true -> is_unreserved x = false -> Ascii.eqb c x = false.
Proof. intros Hc Hx. destruct (Ascii.eqb_spec c x); [subst; congruence | done]. Qed.

#[export] Hint Resolve hex_val_digit hex_digit_unreserved : js.

(** ** The decoders, one character at a time *)

Lemma decode_plain c t :
  Ascii.eqb c "%" = false ->
  decodeURIComponent (String c t) = String c <$> decodeURIComponent t.
Proof. intros H. destruct t as [|h [|l rest]]; simpl; by rewrite H. Qed.

Lemma decode_pct h l rest a b :
  hex_val h = Some a -> hex_val l = Some b ->
  decodeURIComponent (String "%" (String h (String l rest))) =
    String (ascii_of_nat (16 * a + b)) <$> decodeURIComponent rest.
Proof. intros Ha Hb. simpl. by rewrite Ha, Hb. Qed.

Lemma form_decode_plain c t :
  Ascii.eqb c "%" = false -> Ascii.eqb c "+" = false ->
  form_decode (String c t) = String c (form_decode t).
Proof. intros H1 H2. destruct t as [|h [|l rest]]; simpl; by rewrite ?H1, H2. Qed.

Lemma form_decode_pct h l rest a b :
  hex_val h = Some a -> hex_val l = Some b ->
  form_decode (String "%" (String h (String l rest))) =
    String (ascii_of_nat (16 * a + b)) (form_decode rest).
Proof. intros Ha Hb. simpl. by rewrite Ha, Hb. Qed.

(** The shape of one encoded character. *)
Lemma encode_cons c s :
  encodeURIComponent (String c s) =
    if is_unreserved c then String c (encodeURIComponent s)
    else String "%" (String (hex_digit (nat_of_ascii c / 16))
                      (String (hex_digit (nat_of_ascii c mod 16)) (encodeURIComponent s))).
Proof. reflexivity. Qed.

(** A decoder that reads unreserved characters as themselves and [%XX]
    as the byte [XX] inverts [encodeURIComponent]; both decoders are such. *)
Section Inverse.
Context {T : Type} (dec : string -> T) (wrap : string -> T) (cons : ascii -> T -> T).
Hypothesis dec_nil : dec EmptyString = wrap EmptyString.
Hypothesis dec_plain : forall c t,
  is_unreserved c = true -> dec (String c t) = cons c (dec t).
Hypothesis dec_pct : forall h l rest a b,
  hex_val h = Some a -> hex_val l = Some b ->
  dec (String "%" (String h (String l rest))) = cons (ascii_of_nat (16 * a + b)) (dec rest).
Hypothesis wrap_cons : forall c t, cons c (wrap t) = wrap (String c t).

Lemma dec_encode s : dec (encodeURIComponent s) = wrap s.
Proof.
  induction s as [|c s IH]; [exact dec_nil|].
  rewrite encode_cons. destruct (is_unreserved c) eqn:Hu.
  - by rewrite dec_plain, IH.
  - destruct (digits_bounded c) as [Hhi Hlo].
    rewrite (dec_pct _ _ _ _ _ (hex_val_digit _ Hhi) (hex_val_digit _ Hlo)).
    by rewrite IH, byte_of_digits.
Qed.
End Inverse.

(** ** Round trips *)

(** [decodeURIComponent] inverts [encodeURIComponent]. *)
Theorem decodeURIComponent_encodeURIComponent s :
  decodeURIComponent (encodeURIComponent s) = Some s.
Proof.
  apply (dec_encode decodeURIComponent Some (fun c o => String c <$> o)); try done.
  - intros c t Hu. by apply decode_plain, unreserved_not.
  - intros. by apply decode_pct.
Qed.

Lemma form_decode_encode s : form_decode (encodeURIComponent s) = s.
Proof.
  apply (dec_encode form_decode id String); try done.
  - intros c t Hu. by apply form_decode_plain; apply unreserved_not.
  - intros. by apply form_decode_pct.
Qed.

(** ** What the encoder emits *)

Definition url_safe (c : ascii) : bool := is_unreserved c || Ascii.eqb c "%".

Lemma encode_url_safe s : all_chars url_safe (encodeURIComponent s) = true.
Proof.
  induction s as [|c s IH]; [done|].
  rewrite encode_cons. destruct (is_unreserved c) eqn:Hu.
  - simpl. rewrite IH. unfold url_safe. by rewrite Hu.
  - destruct (digits_bounded c) as [Hhi Hlo]. simpl. rewrite IH. unfold url_safe.
    by rewrite !hex_digit_unreserved.
Qed.

Lemma url_safe_not (c x : ascii) :
  url_safe c = true -> is_unreserved x = false -> Ascii.eqb x "%" = false ->
  Ascii.eqb c x = false.
Proof.
  unfold url_safe. intros Hc Hx Hp. destruct (Ascii.eqb_spec c x); [subst|done].
  by rewrite Hx, Hp in Hc.
Qed.

Lemma split_on_none sep t :
  all_chars (fun c => negb (Ascii.eqb c sep)) t = true -> split_on sep t = [t].
Proof.
  induction t as [|c t IH]; [done|]. simpl.
  intros [Hc Ht]%andb_prop. apply negb_true_iff in Hc. by rewrite Hc, IH.
Qed.

Lemma all_chars_impl (p q : ascii -> bool) s :
  (forall c, p c = true -> q c = true) -> all_chars p s = true -> all_chars q s = true.
Proof.
  intros Hpq. induction s as [|c s IH]; [done|]. simpl.
  intros [Hc Hs]%andb_prop. by rewrite Hpq, IH.
Qed.

Lemma encode_no (x : ascii) s :
  is_unreserved x = false -> Ascii.eqb x "%" = false ->
  all_chars (fun c => negb (Ascii.eqb c x)) (encodeURIComponent s) = true.
Proof.
  intros Hx Hp. apply (all_chars_impl url_safe); [|apply encode_url_safe].
  intros c Hc. by rewrite (url_safe_not c x).
Qed.

Lemma split_name_value_none n v :
  all_chars (fun c => negb (Ascii.eqb c "=")) n = true ->
  split_name_value (n ++ String "=" v) = (n, v).
Proof.
  induction n as [|c n IH]; [done|]. rewrite string_app_cons. simpl.
  intros [Hc Hn]%andb_prop. apply negb_true_iff in Hc. by rewrite Hc, IH.
Qed.

Lemma parse_single_pair name v :
  name <> EmptyString ->
  all_chars (fun c => negb (Ascii.eqb c "=")) name = true ->
  all_chars (fun c => negb (Ascii.eqb c "&")) (name ++ String "=" v) = true ->
  parse_query (name ++ String "=" v) = [(form_decode name, form_decode v)].
Proof.
  intros Hne Hn Hamp. unfold parse_query. rewrite (split_on_none _ _ Hamp).
  rewrite filter_cons_True; [|by destruct name]. simpl. by rewrite split_name_value_none.
Qed.

Lemma all_chars_app p a b :
  all_chars p (a ++ b) = all_chars p a && all_chars p b.
Proof.
  induction a as [|c a IH]; [done|]. rewrite string_app_cons. simpl.
  by rewrite IH, andb_assoc.
Qed.

Lemma form_decode_unreserved s :
  all_chars is_unreserved s = true -> form_decode s = s.
Proof.
  induction s as [|c s IH]; [done|]. cbn [all_chars]. intros [Hc Hs]%andb_prop.
  rewrite form_decode_plain by (by apply unreserved_not). by rewrite IH.
Qed.

Lemma query_of_url_app path q :
  all_chars (fun c => negb (Ascii.eqb c "?")) path = true ->
  query_of_url (path ++ String "?" q) = q.
Proof.
  induction path as [|c path IH]; [done|]. rewrite string_app_cons. simpl.
  intros [Hc Hp]%andb_prop. apply negb_true_iff in Hc. by rewrite Hc, IH.
Qed.

(** The encoder is the identity on strings of unreserved characters, such
    as the OAuth error codes ([access_denied]). *)
Lemma encode_unreserved s :
  all_chars is_unreserved s = true -> encodeURIComponent s = s.
Proof.
  induction s as [|c s IH]; [done|]. simpl. intros [Hc Hs]%andb_prop.
  by rewrite Hc, IH.
Qed.

(** [encodeURIComponent] at most triples the length of its input. *)
Lemma encode_length s :
  String.length s <= String.length (encodeURIComponent s) <= 3 * String.length s.
Proof.
  induction s as [|c s IH]; [simpl; lia|].
  rewrite encode_cons. destruct (is_unreserved c); simpl; lia.
Qed.

(** The URL [path?name=encodeURIComponent(m)], parsed back by
    [URLSearchParams], yields [m] under [name]. *)
Theorem url_param_roundtrip path name m :
  all_chars (fun c => negb (Ascii.eqb c "?")) path = true ->
  name <> EmptyString -> all_chars is_unreserved name = true ->
  search_get (parse_query (query_of_url (path ++ String "?" (name ++ String "=" (encodeURIComponent m)))))
    name = Some m.
Proof.
  intros Hpath Hne Hname.
  assert (Hnot : forall x, is_unreserved x = false ->
                 all_chars (fun c => negb (Ascii.eqb c x)) name = true).
  { intros x Hx. apply (all_chars_impl is_unreserved); [|done].
    intros c Hc. by rewrite unreserved_not. }
  rewrite query_of_url_app by done.
  rewrite parse_single_pair; [| done | by apply Hnot |].
  - rewrite form_decode_unreserved, form_decode_encode by done.
    simpl. by rewrite String.eqb_refl.
  - rewrite all_chars_app, Hnot by done. simpl.
    by rewrite encode_no.
Qed.

(** ** Malformed escapes *)

(** Every [%] is followed by two hexadecimal digits. *)
Fixpoint pct_wf (s : string) : bool :=
  match s with
  | EmptyString => true
  | String c t =>
      if Ascii.eqb c "%" then
        match t with
        | String h (String l rest) =>
            match hex_val h, hex_val l with Some _, Some _ => pct_wf rest | _, _ => false end
        | _ => false
        end
      else pct_wf t
  end.

(** Induction on the length of a string, for the decoders that consume
    three characters at a time. *)
Lemma string_length_ind (P : string -> Prop) :
  (forall s, (forall t, String.length t < String.length s -> P t) -> P s) -> forall s, P s.
Proof. intros H. apply (induction_ltof1 _ String.length). exact H. Qed.

(** [decodeURIComponent] throws [URIError] exactly on a malformed escape. *)
Lemma decodeURIComponent_fails s : decodeURIComponent s = None <-> pct_wf s = false.
Proof.
  induction s as [[|c t] IH] using string_length_ind; [done|].
  destruct (Ascii.eqb c "%") eqn:Hc.
  - apply Ascii.eqb_eq in Hc as ->. destruct t as [|h [|l rest]]; [done|done|]. simpl.
    destruct (hex_val h), (hex_val l); try done.
    rewrite fmap_None. apply IH. simpl. lia.
  - rewrite decode_plain by done. simpl. rewrite Hc, fmap_None. apply IH. simpl. lia.
Qed.

(** On well-formed escapes without [+], [URLSearchParams] decodes a value
    as [decodeURIComponent] does; the two differ only on [+] (a space for
    the former) and on a malformed escape (kept by the former, an error
    for the latter). *)
Lemma form_decode_agrees s :
  pct_wf s = true -> all_chars (fun c => negb (Ascii.eqb c "+")) s = true ->
  decodeURIComponent s = Some (form_decode s).
Proof.
  induction s as [[|c t] IH] using string_length_ind; [done|]. intros Hwf Hplus.
  simpl in Hplus. apply andb_prop in Hplus as [Hc2 Hplus]. apply negb_true_iff in Hc2.
  destruct (Ascii.eqb c "%") eqn:Hc.
  - apply Ascii.eqb_eq in Hc as ->. destruct t as [|h [|l rest]]; [done|done|]. simpl in *.
    destruct (hex_val h), (hex_val l); try done.
    apply andb_prop in Hplus as [_ Hplus]. apply andb_prop in Hplus as [_ Hplus].
    rewrite IH by (simpl; lia || done). done.
  - rewrite decode_plain, form_decode_plain by done. simpl in Hwf. rewrite Hc in Hwf.
    rewrite IH by (simpl; lia || done). done.
Qed.

Example malformed_escapes :
  decodeURIComponent "100%" = None /\ form_decode "100%" = "100%" /\
  decodeURIComponent "%zz" = None /\ form_decode "%zz" = "%zz" /\
  decodeURIComponent "a+b" = Some "a+b" /\ form_decode "a+b" = "a b".
Proof. split_and!; reflexivity. Qed.
