(* ===== verification/Http.v ===== *)
(** * The HTTP client and the auth services ([src/services/auth.ts])

    [auth.ts] exports five services; each sends one request through the
    shared axios instance [api] (from [lib/axios], not in the repository),
    returns the response body, and on failure logs the error and rethrows
    it.  The auth backend is an interface ([Backend]): the services'
    theorems hold for every backend.  [exchangeOAuthCode] and
    [initiateOAuth], which the callback page and the OAuth buttons import
    from this module, are not defined in [auth.ts]; they and
    [apiErrorHandler] are modelled from the specification. *)

From stdpp Require Import base gmap strings list.
From Stdlib Require Import String Ascii ZArith.
From S2P Require Import Prelude Browser.

(** ** The response envelope *)

#[local] Set Warnings "-register-all".

(** A JSON value, for the [user] object the backend returns. *)
Inductive json : Type :=
| JNull
| JBool (b : bool)
| JNum (z : Z)
| JStr (s : string)
| JArr (xs : list json)
| JObj (fields : list (string * json)).

(** JavaScript's [ToBoolean] on a JSON value: [null], [false], [0] and
    [""] are falsy; every array and object, even empty, is truthy. *)
Definition json_truthy (j : json) : bool :=
  match j with
  | JNull => false
  | JBool b => b
  | JNum z => negb (Z.eqb z 0)
  | JStr s => negb (String.eqb s "")
  | JArr _ | JObj _ => true
  end.

Record auth_tokens : Type := mk_tokens {
  accessToken : string;
  refreshToken : string
}.

Record auth_data : Type := mk_auth_data {
  tokens : option auth_tokens;
  user : option json
}.

(** [{status, message, data?}]: [message] may be absent or empty. *)
Record auth_response : Type := mk_auth_response {
  status : string;
  message : option string;
  data : option auth_data
}.

(** [response.status === "success" && response.data]: the guard both
    login paths test before they store a session. *)
Definition is_success (r : auth_response) : option auth_data :=
  if String.eqb (status r) "success" then data r else None.

(** ** The backend: what answers a request *)

Class Backend : Type := backend_respond : request -> outcome js_error auth_response.

(** ** The axios instance [api] ([lib/axios]) *)

Section Api.
Context `{Backend}.

(** One request: it is sent (recorded) and settles with the backend's
    answer; a non-2xx answer or a network failure is thrown. *)
Definition api_request (rq : request) : JS auth_response :=
  fun w => (backend_respond rq, add_sent rq w).

Definition api_post (path : string) (body : list (string * string)) : JS auth_response :=
  api_request (mk_request POST path [] body).

Definition api_get (path : string) (params : list (string * string)) : JS auth_response :=
  api_request (mk_request GET path params []).
End Api.

(** ** The services of [auth.ts] *)

(** [LoginSchema]: the two fields of the login form. *)
Record login_schema : Type := mk_login {
  email : string;
  password : string
}.

Definition login_body (d : login_schema) : list (string * string) :=
  [("email", email d); ("password", password d)].

(** The body shared by the five services:
    [try { const response = await m; return response.data; }
     catch (error) { console.error(error); throw error; }]. *)
Definition logged (m : JS auth_response) : JS auth_response :=
  try_catch (response <- m ;; mret response) (fun e => console_error e ;; mthrow e).

(** The part of [logged] after the [await]: once the request has settled
    with [r], a success is returned and a failure logged and rethrown. *)
Definition settle_logged (r : outcome js_error auth_response) : JS auth_response :=
  match r with
  | Ok a => mret a
  | Exc e => console_error e ;; mthrow e
  end.

Section Services.
Context `{Backend}.

Definition signupService (d : list (string * string)) : JS auth_response :=
  logged (api_post "/api/auth/v1/signup" d).

Definition loginService (d : login_schema) : JS auth_response :=
  logged (api_post "/api/auth/v1/login" (login_body d)).

Definition verifyEmailService (token : string) : JS auth_response :=
  logged (api_get "/api/auth/v1/verify-email" [("token", token)]).

Definition resendEmailVerificationService (e : string) : JS auth_response :=
  logged (api_post "/api/auth/v1/resend-email-verification" [("email", e)]).

Definition refreshTokenService (rt : string) : JS auth_response :=
  logged (api_post "/api/auth/v1/refres-token" [("refreshToken", rt)]).

(** Not in [auth.ts]: the specification's "POST with code".  The path
    is the one assumed for this model. *)
Definition exchangeOAuthCode (code : string) : JS auth_response :=
  logged (api_post "/api/auth/v1/oauth/exchange" [("code", code)]).
End Services.

(** ** OAuth initiation (not in [auth.ts]; from the specification) *)

Inductive provider : Type := google | github.

#[export] Instance provider_eq_dec : EqDecision provider.
Proof. solve_decision. Defined.

Definition provider_name (p : provider) : string :=
  match p with google => "google" | github => "github" end.

(** The environment of the redirect: whether starting it throws
    synchronously (e.g. a missing configuration), and with what. *)
Class OAuthEnv : Type := initiation_failure : provider -> option js_error.

(** [initiateOAuth(provider)]: a full-page navigation to the provider
    endpoint of the backend, or a synchronous throw. *)
Definition initiateOAuth `{OAuthEnv} (p : provider) : JS unit :=
  match initiation_failure p with
  | Some e => mthrow e
  | None => assign_location ("/api/auth/v1/oauth/" ++ provider_name p)%string
  end.

(** ** [apiErrorHandler] ([lib/axios]; from the specification) *)

(** Its result: an object whose [message] may be missing. *)
Record api_error : Type := mk_api_error { ae_message : option string }.

Class ApiErrorHandler : Type := apiErrorHandler : js_error -> api_error.

(** What the specification promises of it: a structured backend message
    is passed on. *)
Class ApiErrorHandlerLaws `{ApiErrorHandler} : Prop :=
  handler_structured : forall st m msg, m <> ""%string ->
    ae_message (apiErrorHandler (AxiosError st (Some m) msg)) = Some m.

(** The specification's handler: the backend's message when the error
    carries one, a generic message otherwise. *)
Definition generic_error_message : string := "Something went wrong".

#[export] Instance spec_apiErrorHandler : ApiErrorHandler :=
  fun e => match e with
           | AxiosError _ (Some m) _ =>
               if String.eqb m "" then mk_api_error (Some generic_error_message)
               else mk_api_error (Some m)
           | _ => mk_api_error (Some generic_error_message)
           end.

(** ** The services against the specification's table *)

(** One call of a service, with its argument. *)
Inductive service_call : Type :=
| CallSignup (d : list (string * string))
| CallLogin (d : login_schema)
| CallVerifyEmail (token : string)
| CallResend (e : string)
| CallRefresh (rt : string)
| CallExchange (code : string).

Definition run_service `{Backend} (c : service_call) : JS auth_response :=
  match c with
  | CallSignup d => signupService d
  | CallLogin d => loginService d
  | CallVerifyEmail t => verifyEmailService t
  | CallResend e => resendEmailVerificationService e
  | CallRefresh rt => refreshTokenService rt
  | CallExchange code => exchangeOAuthCode code
  end.

(** The request the specification's table (section 4.2) names for each
    call: method, path and input. *)
Definition spec_request (c : service_call) : request :=
  match c with
  | CallSignup d => mk_request POST "/api/auth/v1/signup" [] d
  | CallLogin d => mk_request POST "/api/auth/v1/login" [] [("email", email d); ("password", password d)]
  | CallVerifyEmail t => mk_request GET "/api/auth/v1/verify-email" [("token", t)] []
  | CallResend e => mk_request POST "/api/auth/v1/resend-email-verification" [] [("email", e)]
  | CallRefresh rt => mk_request POST "/api/auth/v1/refres-token" [] [("refreshToken", rt)]
  | CallExchange code => mk_request POST "/api/auth/v1/oauth/exchange" [] [("code", code)]
  end.

(** The specification's contract of a service: exactly one request,
    whose answer is returned as it is; a failure is logged and propagated
    unchanged, with no retry. *)
Definition spec_call `{Backend} (rq : request) : JS auth_response :=
  fun w => match backend_respond rq with
           | Ok r => (Ok r, add_sent rq w)
           | Exc e => (Exc e, add_console e (add_sent rq w))
           end.

Lemma logged_api_request `{Backend} rq w :
  logged (api_request rq) w = spec_call rq w.
Proof. unfold logged, spec_call. js_run. by destruct (backend_respond rq). Qed.

(** A logged request is the request sent, then [settle_logged] on the
    backend's answer. *)
Lemma logged_settle `{Backend} rq w :
  logged (api_request rq) w = settle_logged (backend_respond rq) (add_sent rq w).
Proof. unfold logged, settle_logged. js_run. by destruct (backend_respond rq). Qed.

(** C23 Every service of [auth.ts] (and the code exchange) implements the
    specification's contract for its row of the table: it sends exactly
    the request the table names, returns the backend's answer unchanged,
    and on failure logs the error once and rethrows it unchanged. *)
Theorem service_refines_spec `{Backend} (c : service_call) (w : world) :
  run_service c w = spec_call (spec_request c) w.
Proof. destruct c; apply logged_api_request. Qed.
