(* ===== verification/Session.v ===== *)
(** * Session persistence

    Both successful logins, the password form
    ([src/components/auth/login-form.tsx], lines 43-51) and the OAuth
    callback ([src/app/(auth)/oauth-callback/page.tsx], lines 43-51), run
    the same block: the two tokens are written when the response carries
    them, then the serialized user when it carries one.  This file models
    the block once ([persist_session]), shows that it is the sequence of
    [localStorage.setItem] calls [session_writes], and proves what the
    storage holds after it, on success and on a quota failure in the
    middle.  [JSON.stringify] is a built-in, modelled from ECMA-262. *)

From Stdlib Require Import String Ascii ZArith.
From stdpp Require Import base gmap strings list pretty.
From S2P Require Import Prelude Browser Http.

(** ** [JSON.stringify] *)

Definition hex_lower (n : nat) : ascii :=
  ascii_of_nat (if n <? 10 then 48 + n else 87 + n).

(** One character inside a JSON string literal. *)
Definition escape_char (c : ascii) : string :=
  match nat_of_ascii c with
  | 34 => String "\" (String "034" EmptyString)
  | 92 => "\\"
  | 8 => "\b"
  | 12 => "\f"
  | 10 => "\n"
  | 13 => "\r"
  | 9 => "\t"
  | n => if n <? 32
         then String "\" (String "u" (String "0" (String "0"
                (String (hex_lower (n / 16)) (String (hex_lower (n mod 16)) EmptyString)))))
         else String c EmptyString
  end.

Fixpoint escape_string (s : string) : string :=
  match s with
  | EmptyString => EmptyString
  | String c t => (escape_char c ++ escape_string t)%string
  end.

Definition quote (s : string) : string :=
  String "034" (escape_string s ++ String "034" EmptyString)%string.

Fixpoint join (sep : string) (xs : list string) : string :=
  match xs with
  | [] => EmptyString
  | [x] => x
  | x :: xs' => (x ++ sep ++ join sep xs')%string
  end.

Fixpoint stringify (j : json) : string :=
  match j with
  | JNull => "null"
  | JBool true => "true"
  | JBool false => "false"
  | JNum z => pretty z
  | JStr s => quote s
  | JArr xs => "[" ++ join "," (map stringify xs) ++ "]"
  | JObj fs => "{" ++ join "," (map (fun kv => quote kv.1 ++ ":" ++ stringify kv.2) fs) ++ "}"
  end%string.

Example stringify_example :
  stringify (JArr [JNum (-7); JBool false; JNull; JObj []]) = "[-7,false,null,{}]".
Proof. reflexivity. Qed.

(** ** The persistence block *)

(** [if (data.tokens) { setItem("accessToken", ..); setItem("refreshToken", ..) }
     if (data.user) { setItem("user", JSON.stringify(data.user)) }] *)
Definition persist_session (d : auth_data) : JS unit :=
  (match tokens d with
   | Some t => setItem "accessToken" (accessToken t) ;; setItem "refreshToken" (refreshToken t)
   | None => mret tt
   end) ;;
  match user d with
  | Some u => if json_truthy u then setItem "user" (stringify u) else mret tt
  | None => mret tt
  end.

(** The writes it performs, in order. *)
Definition session_writes (d : auth_data) : list (string * string) :=
  match tokens d with
  | Some t => [("accessToken", accessToken t); ("refreshToken", refreshToken t)]
  | None => []
  end ++
  match user d with
  | Some u => if json_truthy u then [("user", stringify u)] else []
  | None => []
  end.

(** A sequence of [setItem] calls. *)
Fixpoint set_items (ws : list (string * string)) : JS unit :=
  match ws with
  | [] => mret tt
  | (k, v) :: ws' => setItem k v ;; set_items ws'
  end.

(** The storage after the writes [ws], all of them done. *)
Definition apply_writes (ws : list (string * string)) (st : gmap string string) : gmap string string :=
  foldl (fun st' kv => <[kv.1 := kv.2]> st') st ws.

(** Whether each write of [ws], in turn, fits in the quota. *)
Fixpoint writes_fit (q : nat) (st : gmap string string) (ws : list (string * string)) : bool :=
  match ws with
  | [] => true
  | (k, v) :: ws' =>
      (storage_size (<[k := v]> st) <=? q) && writes_fit q (<[k := v]> st) ws'
  end.

(** ** The block is its list of writes *)

Lemma set_storage_twice st1 st2 w : set_storage st2 (set_storage st1 w) = set_storage st2 w.
Proof. reflexivity. Qed.

Lemma set_storage_id w : set_storage (w_storage w) w = w.
Proof. by destruct w. Qed.

#[export] Hint Rewrite set_storage_twice set_storage_id : js_rw.

Lemma persist_session_set_items d w :
  persist_session d w = set_items (session_writes d) w.
Proof.
  unfold persist_session, session_writes.
  destruct (tokens d) as [t|], (user d) as [u|]; try destruct (json_truthy u); simpl; js_run; setItem_cases.
Qed.

Lemma apply_writes_cons k v ws st :
  apply_writes ((k, v) :: ws) st = apply_writes ws (<[k := v]> st).
Proof. reflexivity. Qed.

(** When every write fits, all of them happen. *)
Lemma set_items_fit ws w :
  writes_fit (w_quota w) (w_storage w) ws = true ->
  set_items ws w = (Ok tt, set_storage (apply_writes ws (w_storage w)) w).
Proof.
  revert w. induction ws as [|[k v] ws IH]; intros w Hfit; simpl in *.
  - by rewrite set_storage_id.
  - apply andb_prop in Hfit as [Hk Hws]. apply Nat.leb_le in Hk.
    unfold mbind. rewrite setItem_fits by done.
    rewrite IH; simpl; [|done]. by rewrite set_storage_twice.
Qed.

(** When one write does not fit, exactly the writes before it happened. *)
Lemma set_items_fail ws w e w' :
  set_items ws w = (Exc e, w') ->
  e = QuotaExceededError /\
  exists n, n < length ws /\ w' = set_storage (apply_writes (take n ws) (w_storage w)) w.
Proof.
  revert w. induction ws as [|[k v] ws IH]; intros w Hrun; simpl in *; [done|].
  unfold mbind, setItem in Hrun.
  destruct (storage_size _ <=? w_quota w); simplify_eq/=.
  - destruct (IH _ Hrun) as [-> [n [Hn ->]]]. split; [done|].
    exists (S n). split; [lia|]. by rewrite set_storage_twice.
  - split; [done|]. exists 0. split; [lia|]. simpl. by rewrite set_storage_id.
Qed.

(** Keys no write touches keep their value, whatever the outcome. *)
Lemma apply_writes_other ws st k :
  k ∉ ws.*1 -> apply_writes ws st !! k = st !! k.
Proof.
  revert st. induction ws as [|[k' v] ws IH]; intros st Hk; [done|].
  rewrite apply_writes_cons. simpl in Hk. apply not_elem_of_cons in Hk as [Hne Hk].
  rewrite IH by done. by rewrite lookup_insert_ne.
Qed.

(** A run that returns did every write. *)
Lemma set_items_ok ws w w' :
  set_items ws w = (Ok tt, w') -> w' = set_storage (apply_writes ws (w_storage w)) w.
Proof.
  revert w. induction ws as [|[k v] ws IH]; intros w Hrun; simpl in *.
  - unfold mret in Hrun. simplify_eq. by destruct w'.
  - unfold mbind, setItem in Hrun. destruct (storage_size _ <=? w_quota w); [|done].
    rewrite (IH _ Hrun). by rewrite set_storage_twice.
Qed.

Lemma set_items_other ws w k :
  k ∉ ws.*1 -> w_storage (final (set_items ws) w) !! k = w_storage w !! k.
Proof.
  intros Hk. unfold final. destruct (set_items ws w) as [[[]|e] w'] eqn:Hrun; simpl.
  - rewrite (set_items_ok _ _ _ Hrun). by apply apply_writes_other.
  - destruct (set_items_fail _ _ _ _ Hrun) as [_ [n [_ ->]]]. simpl.
    apply apply_writes_other. intros Hin. apply Hk.
    rewrite fmap_take in Hin. apply elem_of_take in Hin as [i [Hi _]].
    by eapply list_elem_of_lookup_2.
Qed.

(** The writes read nothing of the browser but the storage and the quota:
    from two worlds that agree on them, they end with the same storage and
    the same outcome. *)
Lemma set_items_storage ws w1 w2 :
  w_storage w1 = w_storage w2 -> w_quota w1 = w_quota w2 ->
  fst (set_items ws w1) = fst (set_items ws w2) /\
  w_storage (final (set_items ws) w1) = w_storage (final (set_items ws) w2).
Proof.
  revert w1 w2. induction ws as [|[k v] ws IH]; intros w1 w2 Hs Hq; [done|].
  unfold final in *. simpl. unfold mbind, setItem. rewrite Hs, Hq.
  destruct (_ <=? _); [|done]. by apply IH.
Qed.

Lemma persist_session_storage d w1 w2 :
  w_storage w1 = w_storage w2 -> w_quota w1 = w_quota w2 ->
  w_storage (final (persist_session d) w1) = w_storage (final (persist_session d) w2).
Proof. intros Hs Hq. unfold final. rewrite !persist_session_set_items. by apply set_items_storage. Qed.

(** ** What the storage holds after the block *)

(** C13 Specification, section 8: after a successful response carrying
    tokens, when each write fits in the quota, the stored [accessToken]
    and [refreshToken] are exactly the response's; the stored [user] is
    the serialization of the response's user when that user is truthy
    ([if (response.data.user)]), and the previous session's otherwise. *)
Theorem persist_session_stores d t w :
  tokens d = Some t ->
  writes_fit (w_quota w) (w_storage w) (session_writes d) = true ->
  result (persist_session d) w = Ok tt /\
  w_storage (final (persist_session d) w) !! "accessToken" = Some (accessToken t) /\
  w_storage (final (persist_session d) w) !! "refreshToken" = Some (refreshToken t) /\
  (forall u, user d = Some u ->
     w_storage (final (persist_session d) w) !! "user" =
       if json_truthy u then Some (stringify u) else w_storage w !! "user").
Proof.
  intros Ht Hfit. unfold result, final.
  rewrite persist_session_set_items, set_items_fit by done. simpl.
  unfold session_writes. rewrite Ht.
  destruct (user d) as [u|]; [destruct (json_truthy u) eqn:Hu|]; simpl;
    split_and!; try intros ? [= <-]; rewrite ?Hu; try done; by simplify_map_eq.
Qed.

Definition demo_user : json := JObj [("id", JNum 1); ("email", JStr "a@b.c")].

Definition demo_world (st : gmap string string) (q : nat) : world :=
  mk_world st q [] [] None [] [] [].

Lemma persist_session_stores_witness :
  writes_fit 1000 ∅ (session_writes (mk_auth_data (Some (mk_tokens "at1" "rt1")) (Some demo_user))) = true /\
  w_storage (final (persist_session (mk_auth_data (Some (mk_tokens "at1" "rt1")) (Some demo_user)))
               (demo_world ∅ 1000)) !! "accessToken" = Some "at1".
Proof.
  split; [vm_compute; reflexivity|].
  apply (persist_session_stores _ (mk_tokens "at1" "rt1") (demo_world ∅ 1000)); [reflexivity|vm_compute; reflexivity].
Defined.

Lemma persist_session_other d w k :
  k ∉ (session_writes d).*1 ->
  w_storage (final (persist_session d) w) !! k = w_storage w !! k.
Proof.
  intros Hk. unfold final. rewrite persist_session_set_items. by apply set_items_other.
Qed.

(** When the writes fit, the stored [user] is the serialized user of
    the response when it is truthy, and the previous session's otherwise,
    whether or not the response carries tokens. *)
Lemma persist_session_user d u w :
  user d = Some u -> writes_fit (w_quota w) (w_storage w) (session_writes d) = true ->
  w_storage (final (persist_session d) w) !! "user" =
    if json_truthy u then Some (stringify u) else w_storage w !! "user".
Proof.
  intros Hu Hfit. destruct (json_truthy u) eqn:Ht.
  - unfold final. rewrite persist_session_set_items, set_items_fit by done. simpl.
    unfold session_writes. rewrite Hu, Ht. destruct (tokens d); simpl; by simplify_map_eq.
  - apply persist_session_other. unfold session_writes. rewrite Hu, Ht.
    destruct (tokens d); simpl; by apply (bool_decide_unpack _).
Qed.

(** C24 The three keys are not written together: a response that carries
    no user, or a falsy one ([null], [false], [0], [""]), which
    [if (response.data.user)] skips, leaves the [user] of the previous
    session in storage, next to the new tokens. *)
Theorem persist_session_stale_user d w :
  (forall u, user d = Some u -> json_truthy u = false) ->
  w_storage (final (persist_session d) w) !! "user" = w_storage w !! "user".
Proof.
  intros Hu. apply persist_session_other. unfold session_writes.
  destruct (user d) as [u|]; [rewrite (Hu u eq_refl)|];
    destruct (tokens d); simpl; by apply (bool_decide_unpack _).
Qed.

Lemma persist_session_stale_user_witness :
  w_storage (final (persist_session (mk_auth_data (Some (mk_tokens "at2" "rt2")) (Some JNull)))
               (demo_world (<["user" := "old"]> ∅) 1000)) !! "user" = Some "old".
Proof. rewrite persist_session_stale_user; [reflexivity|]. by intros u [= <-]. Defined.

(** C25 A failed write stops the block: the only error is
    [QuotaExceededError], and the storage then holds the writes before the
    failing one, in the code's order: nothing, the new [accessToken]
    alone, or both new tokens (never the [user] without the tokens). *)
Theorem persist_session_quota_prefix d w e w' :
  persist_session d w = (Exc e, w') ->
  e = QuotaExceededError /\
  match tokens d with
  | Some t =>
      w_storage w' = w_storage w \/
      w_storage w' = <["accessToken" := accessToken t]> (w_storage w) \/
      w_storage w' = <["refreshToken" := refreshToken t]> (<["accessToken" := accessToken t]> (w_storage w))
  | None => w_storage w' = w_storage w
  end.
Proof.
  rewrite persist_session_set_items. intros Hrun.
  destruct (set_items_fail _ _ _ _ Hrun) as [-> [n [Hn ->]]]. split; [done|].
  unfold session_writes in *.
  destruct (tokens d), (user d) as [u|]; try destruct (json_truthy u); simpl in *;
    destruct n as [|[|[|n]]]; simpl; auto; lia.
Qed.

Definition partial_data : auth_data := mk_auth_data (Some (mk_tokens "new-at" "a-long-refresh-token")) None.
Definition partial_world : world :=
  demo_world (<["accessToken" := "old-at"]> (<["refreshToken" := "old-rt"]> ∅)) 45.

Definition partial_after : world :=
  set_storage (<["accessToken" := "new-at"]> (w_storage partial_world)) partial_world.

Lemma persist_session_quota_prefix_witness :
  persist_session partial_data partial_world = (Exc QuotaExceededError, partial_after) /\
  w_storage partial_after = <["accessToken" := "new-at"]> (w_storage partial_world).
Proof.
  assert (H : persist_session partial_data partial_world = (Exc QuotaExceededError, partial_after))
    by (vm_compute; reflexivity).
  split; [exact H|].
  destruct (persist_session_quota_prefix _ _ _ _ H) as [_ [Hs|[Hs|Hs]]]; [vm_compute in Hs|done|vm_compute in Hs];
    discriminate.
Defined.

(** C26 Contrary to the specification's "never partially written": a
    login whose refresh token does not fit leaves the new access token
    next to the previous session's refresh token. *)
Theorem persist_session_partial_write :
  exists d w w',
    persist_session d w = (Exc QuotaExceededError, w') /\
    w_storage w' !! "accessToken" = Some "new-at" /\
    w_storage w' !! "refreshToken" = Some "old-rt".
Proof.
  exists partial_data, partial_world, partial_after.
  split; [vm_compute; reflexivity|]. split; reflexivity.
Qed.

(** The block changes nothing of the browser but its storage. *)
Lemma persist_session_only_storage d w o w' :
  persist_session d w = (o, w') -> w' = set_storage (w_storage w') w.
Proof.
  rewrite persist_session_set_items. intros Hrun. destruct o as [[]|e].
  - by rewrite (set_items_ok _ _ _ Hrun).
  - by destruct (set_items_fail _ _ _ _ Hrun) as [_ [n [_ ->]]].
Qed.
