(* ===== verification/JsonParse.v ===== *)
(** * [JSON.parse] and the stored user

    Both login paths store the user as [JSON.stringify(response.data.user)]
    ([Session.persist_session]); the rest of the application reads it back
    with [JSON.parse].  [JSON.parse] is a built-in, not code of the
    repository: it is modelled here from ECMA-262 (section 25.5.1, the
    JSON grammar of ECMA-404) on the byte strings of the model.

    The model's JSON values are those of [Http.json]: numbers are
    integers.  A number literal is read exactly ([m * 10^e] from its
    digits, fraction and exponent); a literal whose exact value is not an
    integer of magnitude at most [2^53] has no counterpart in the model
    and is reported as [Unrepresentable] (JavaScript would round it to a
    double).  Likewise a [\uXXXX] escape above 255 is
    [Unrepresentable], characters being bytes.  Object members are
    inserted the way [CreateDataProperty] does: a repeated key keeps its
    first position and takes the last value, and array-index keys are
    ordered first, ascending ([OrdinaryOwnPropertyKeys]).

    The parser recurses on fuel; [json_parse] gives it twice the length
    of the text, and [json_parse_total] shows it never runs out. *)

From Stdlib Require Import String Ascii ZArith.
From stdpp Require Import base strings list sets pretty numbers.
From S2P Require Import Prelude Browser Http Session.

(** ** Results *)

(** [SyntaxError] is what [JSON.parse] throws; [Unrepresentable] marks a
    text outside the model's values; [OutOfFuel] never happens
    ([json_parse_total]). *)
Inductive parse_error : Type := SyntaxError | Unrepresentable | OutOfFuel.

Definition res (A : Type) : Type := (parse_error + A)%type.

Definition rbind {A B} (m : res A) (k : A -> res B) : res B :=
  match m with inl e => inl e | inr a => k a end.

Declare Scope json_scope.
Delimit Scope json_scope with json.
Notation "'let?' p := m 'in' k" := (rbind m (fun x => match x with p => k end))
  (at level 10, p pattern, m at level 100, k at level 200) : json_scope.
Local Open Scope json_scope.

(** ** Lexical pieces *)

(** The JSON whitespace: space, tab, line feed, carriage return. *)
Definition is_ws (c : ascii) : bool :=
  match nat_of_ascii c with 32 | 9 | 10 | 13 => true | _ => false end.

Fixpoint skip_ws (s : string) : string :=
  match s with
  | String c t => if is_ws c then skip_ws t else s
  | EmptyString => s
  end.

(** [s] with the prefix [p] removed, when it starts with [p]. *)
Fixpoint strip_prefix (p s : string) : option string :=
  match p, s with
  | EmptyString, _ => Some s
  | String a p', String b s' => if bool_decide (a = b) then strip_prefix p' s' else None
  | _, _ => None
  end.

Definition digit_val (c : ascii) : option N :=
  let n := nat_of_ascii c in
  if (48 <=? n)%nat && (n <=? 57)%nat then Some (N.of_nat (n - 48)) else None.

Definition starts_with_digit (s : string) : bool :=
  match s with String c _ => if digit_val c is Some _ then true else false | EmptyString => false end.

(** The longest run of digits, accumulated in base 10 onto [acc]. *)
Fixpoint parse_digits (acc : N) (s : string) : N * string :=
  match s with
  | String c t =>
      match digit_val c with
      | Some d => parse_digits (10 * acc + d)%N t
      | None => (acc, s)
      end
  | EmptyString => (acc, s)
  end.

(** [digit+]: the value, the number of digits, and the rest. *)
Definition parse_digits1 (acc : N) (s : string) : res (N * nat * string) :=
  if starts_with_digit s then
    let '(n, r) := parse_digits acc s in inr (n, (String.length s - String.length r)%nat, r)
  else inl SyntaxError.

(** [int = "0" / digit1-9 *digit]. *)
Definition parse_int (s : string) : res (N * string) :=
  match s with
  | String c t =>
      match digit_val c with
      | Some 0%N => inr (0%N, t)
      | Some d => inr (parse_digits d t)
      | None => inl SyntaxError
      end
  | EmptyString => inl SyntaxError
  end.

(** [frac = "." 1*digit]: the fraction's digits extend the mantissa and
    lower the exponent. *)
Definition parse_frac (m : N) (s : string) : res (N * Z * string) :=
  match s with
  | String c t =>
      if nat_of_ascii c =? 46 then
        let? (m', k, r) := parse_digits1 m t in inr (m', (- Z.of_nat k)%Z, r)
      else inr (m, 0%Z, s)
  | EmptyString => inr (m, 0%Z, s)
  end.

Definition exp_sign (s : string) : Z * string :=
  match s with
  | String c t =>
      if nat_of_ascii c =? 43 then (1%Z, t)
      else if nat_of_ascii c =? 45 then ((-1)%Z, t) else (1%Z, s)
  | EmptyString => (1%Z, s)
  end.

(** [exp = ("e" / "E") ["+" / "-"] 1*digit]. *)
Definition parse_exp (s : string) : res (Z * string) :=
  match s with
  | String c t =>
      if (nat_of_ascii c =? 101) || (nat_of_ascii c =? 69) then
        let '(sg, t') := exp_sign t in
        let? (n, _, r) := parse_digits1 0 t' in inr ((sg * Z.of_N n)%Z, r)
      else inr (0%Z, s)
  | EmptyString => inr (0%Z, s)
  end.

(** Integers of magnitude at most [2^53] are exactly the integers a
    double holds without rounding. *)
Definition max_safe : Z := (2 ^ 53)%Z.

(** The exact value of [m * 10^e] when it is an integer; [None] also for
    [m > 0] and [e > 16], whose value exceeds [max_safe] anyway. *)
Definition decimal_int (m : N) (e : Z) : option Z :=
  if (m =? 0)%N then Some 0%Z
  else if (16 <? e)%Z then None
  else if (0 <=? e)%Z then Some (Z.of_N m * 10 ^ e)%Z
  else let d := (10 ^ (- e))%Z in
       if (Z.of_N m mod d =? 0)%Z then Some (Z.of_N m / d)%Z else None.

(** [number = ["-"] int [frac] [exp]]. *)
Definition parse_number (s : string) : res (Z * string) :=
  let '(neg, t) := match s with
                   | String c u => if nat_of_ascii c =? 45 then (true, u) else (false, s)
                   | EmptyString => (false, s)
                   end in
  let? (i, r1) := parse_int t in
  let? (m, e1, r2) := parse_frac i r1 in
  let? (e2, r3) := parse_exp r2 in
  match decimal_int m (e1 + e2) with
  | Some v =>
      let z := if neg then (- v)%Z else v in
      if (Z.abs z <=? max_safe)%Z then inr (z, r3) else inl Unrepresentable
  | None => inl Unrepresentable
  end.

(** ** String literals *)

Definition hex_digit_val (c : ascii) : option nat :=
  let n := nat_of_ascii c in
  if (48 <=? n)%nat && (n <=? 57)%nat then Some (n - 48)%nat
  else if (97 <=? n)%nat && (n <=? 102)%nat then Some (n - 87)%nat
  else if (65 <=? n)%nat && (n <=? 70)%nat then Some (n - 55)%nat
  else None.

Definition hex4 (a b c d : ascii) : option nat :=
  match hex_digit_val a, hex_digit_val b, hex_digit_val c, hex_digit_val d with
  | Some x, Some y, Some z, Some w => Some (((x * 16 + y) * 16 + z) * 16 + w)%nat
  | _, _, _, _ => None
  end.

(** The one-character escapes: quote, backslash, slash, [b], [f], [n], [r], [t]. *)
Definition simple_escape (n : nat) : option ascii :=
  match n with
  | 34 => Some (ascii_of_nat 34)
  | 92 => Some (ascii_of_nat 92)
  | 47 => Some (ascii_of_nat 47)
  | 98 => Some (ascii_of_nat 8)
  | 102 => Some (ascii_of_nat 12)
  | 110 => Some (ascii_of_nat 10)
  | 114 => Some (ascii_of_nat 13)
  | 116 => Some (ascii_of_nat 9)
  | _ => None
  end.

(** The characters of a string literal after its opening quote, up to
    and without its closing quote; control characters must be escaped. *)
Fixpoint parse_chars (s : string) : res (string * string) :=
  match s with
  | EmptyString => inl SyntaxError
  | String c t =>
      if nat_of_ascii c =? 34 then inr (EmptyString, t)
      else if nat_of_ascii c =? 92 then
        match t with
        | String e t' =>
            if nat_of_ascii e =? 117 then
              match t' with
              | String h1 (String h2 (String h3 (String h4 t''))) =>
                  match hex4 h1 h2 h3 h4 with
                  | Some n =>
                      if (n <? 256)%nat then
                        let? (x, r) := parse_chars t'' in inr (String (ascii_of_nat n) x, r)
                      else inl Unrepresentable
                  | None => inl SyntaxError
                  end
              | _ => inl SyntaxError
              end
            else
              match simple_escape (nat_of_ascii e) with
              | Some c' => let? (x, r) := parse_chars t' in inr (String c' x, r)
              | None => inl SyntaxError
              end
        | EmptyString => inl SyntaxError
        end
      else if (nat_of_ascii c <? 32)%nat then inl SyntaxError
      else let? (x, r) := parse_chars t in inr (String c x, r)
  end.

(** ** Objects *)

(** [CanonicalNumericIndexString] restricted to array indices: ["0"] or
    a digit string without leading zero, below [2^32 - 1]. *)
Definition array_index (k : string) : option N :=
  match parse_int k with
  | inr (n, EmptyString) => if (n <? 4294967295)%N then Some n else None
  | _ => None
  end.

(** A new array-index key goes before the first key that is not an
    index or is a larger index. *)
Fixpoint insert_index (n : N) (k : string) (v : json) (fs : list (string * json))
    : list (string * json) :=
  match fs with
  | [] => [(k, v)]
  | (k', v') :: fs' =>
      match array_index k' with
      | Some n' => if (n <? n')%N then (k, v) :: fs else (k', v') :: insert_index n k v fs'
      | None => (k, v) :: fs
      end
  end.

(** [CreateDataProperty(obj, k, v)] on the property list of an ordinary
    object, in the order [OrdinaryOwnPropertyKeys] lists them. *)
Definition obj_insert (fs : list (string * json)) (kv : string * json) : list (string * json) :=
  let '(k, v) := kv in
  if bool_decide (k ∈ fs.*1) then map (fun kv' => if bool_decide (kv'.1 = k) then (k, v) else kv') fs
  else match array_index k with
       | Some n => insert_index n k v fs
       | None => fs ++ [(k, v)]
       end.

(** The object a list of members builds, in text order. *)
Definition build_object (ms : list (string * json)) : list (string * json) :=
  foldl obj_insert [] ms.

(** ** Values *)

Definition literal (p : string) (v : json) (s : string) : res (json * string) :=
  match strip_prefix p s with Some r => inr (v, r) | None => inl SyntaxError end.

Fixpoint parse_value (fuel : nat) (s : string) {struct fuel} : res (json * string) :=
  match fuel with
  | O => inl OutOfFuel
  | S f =>
      match skip_ws s with
      | String c t =>
          if nat_of_ascii c =? 110 then literal "ull" JNull t
          else if nat_of_ascii c =? 116 then literal "rue" (JBool true) t
          else if nat_of_ascii c =? 102 then literal "alse" (JBool false) t
          else if nat_of_ascii c =? 34 then let? (x, r) := parse_chars t in inr (JStr x, r)
          else if nat_of_ascii c =? 91 then
            match skip_ws t with
            | String c' r' =>
                if nat_of_ascii c' =? 93 then inr (JArr [], r')
                else let? (xs, r) := parse_elems f t in inr (JArr xs, r)
            | EmptyString => inl SyntaxError
            end
          else if nat_of_ascii c =? 123 then
            match skip_ws t with
            | String c' r' =>
                if nat_of_ascii c' =? 125 then inr (JObj [], r')
                else let? (ms, r) := parse_members f t in inr (JObj (build_object ms), r)
            | EmptyString => inl SyntaxError
            end
          else let? (z, r) := parse_number (String c t) in inr (JNum z, r)
      | EmptyString => inl SyntaxError
      end
  end
with parse_elems (fuel : nat) (s : string) {struct fuel} : res (list json * string) :=
  match fuel with
  | O => inl OutOfFuel
  | S f =>
      let? (v, r) := parse_value f s in
      match skip_ws r with
      | String c r' =>
          if nat_of_ascii c =? 44 then let? (vs, r'') := parse_elems f r' in inr (v :: vs, r'')
          else if nat_of_ascii c =? 93 then inr ([v], r')
          else inl SyntaxError
      | EmptyString => inl SyntaxError
      end
  end
with parse_members (fuel : nat) (s : string) {struct fuel} : res (list (string * json) * string) :=
  match fuel with
  | O => inl OutOfFuel
  | S f =>
      match skip_ws s with
      | String c t =>
          if nat_of_ascii c =? 34 then
            let? (k, r1) := parse_chars t in
            match skip_ws r1 with
            | String c1 r2 =>
                if nat_of_ascii c1 =? 58 then
                  let? (v, r3) := parse_value f r2 in
                  match skip_ws r3 with
                  | String c3 r4 =>
                      if nat_of_ascii c3 =? 44 then
                        let? (ms, r5) := parse_members f r4 in inr ((k, v) :: ms, r5)
                      else if nat_of_ascii c3 =? 125 then inr ([(k, v)], r4)
                      else inl SyntaxError
                  | EmptyString => inl SyntaxError
                  end
                else inl SyntaxError
            | EmptyString => inl SyntaxError
            end
          else inl SyntaxError
      | EmptyString => inl SyntaxError
      end
  end.

(** [JSON.parse(text)]: one value, surrounded by whitespace only. *)
Definition json_parse (s : string) : res json :=
  let? (j, r) := parse_value (2 * String.length s + 1) s in
  match skip_ws r with EmptyString => inr j | String _ _ => inl SyntaxError end.


(** * Reading back what [JSON.stringify] wrote *)

(** ** String literals *)

Lemma parse_chars_escape_char c t :
  parse_chars (escape_char c ++ t) = let? (x, r) := parse_chars t in inr (String c x, r).
Proof. destruct c as [[] [] [] [] [] [] [] []]; reflexivity. Qed.

Lemma parse_chars_escape_string s t :
  parse_chars (escape_string s ++ String "034" t) = inr (s, t).
Proof.
  induction s as [|c s IH]; [reflexivity|].
  simpl. rewrite string_app_assoc, parse_chars_escape_char, IH. reflexivity.
Qed.

(** A quoted string, read from its opening quote on. *)
Lemma quote_app s t : (quote s ++ t)%string = String "034" (escape_string s ++ String "034" t).
Proof. unfold quote. by rewrite string_app_cons, string_app_assoc. Qed.

(** ** Numbers *)

Lemma digit_val_char n : (n < 10)%N -> digit_val (pretty_N_char n) = Some n.
Proof.
  intros Hn. rewrite <- (N2Nat.id n). assert (Hk : (N.to_nat n < 10)%nat) by lia.
  revert Hk. generalize (N.to_nat n) as k. intros k Hk. clear Hn.
  do 10 (destruct k as [|k]; [reflexivity|]). lia.
Qed.

Lemma pretty_N_go_app x s t : (pretty_N_go x s ++ t)%string = pretty_N_go x (s ++ t).
Proof.
  revert s. induction (N.lt_wf_0 x) as [x _ IH]; intros s.
  destruct (decide (x = 0)%N) as [->|Hx]; [by rewrite !pretty_N_go_0|].
  rewrite !(pretty_N_go_step x) by lia. rewrite IH by (apply N.div_lt; lia). done.
Qed.

(** Reading the digits [pretty_N_go] writes before [s] gives back [x]. *)
Lemma parse_digits_pretty x s : parse_digits 0 (pretty_N_go x s) = parse_digits x s.
Proof.
  revert s. induction (N.lt_wf_0 x) as [x _ IH]; intros s.
  destruct (decide (x = 0)%N) as [->|Hx]; [by rewrite pretty_N_go_0|].
  rewrite pretty_N_go_step by lia. rewrite IH by (apply N.div_lt; lia). simpl.
  rewrite digit_val_char by (apply N.mod_lt; lia).
  by rewrite <- N.div_mod by lia.
Qed.

(** The first digit of a positive number is not [0]. *)
Lemma pretty_N_go_head x s :
  (0 < x)%N -> exists c t d, pretty_N_go x s = String c t /\ digit_val c = Some d /\ d <> 0%N.
Proof.
  revert s. induction (N.lt_wf_0 x) as [x _ IH]; intros s Hx.
  rewrite pretty_N_go_step by lia.
  destruct (decide (x `div` 10 = 0)%N) as [H0|H0].
  - rewrite H0, pretty_N_go_0. do 3 eexists. split; [reflexivity|].
    split; [apply digit_val_char, N.mod_lt; lia|].
    apply N.div_small_iff in H0; [|lia]. rewrite N.mod_small by lia. lia.
  - apply IH; [apply N.div_lt; lia|]. by apply N.neq_0_lt_0.
Qed.

(** What may follow a value inside the text [JSON.stringify] writes: the
    end, a comma, or a closing bracket or brace. *)
Definition value_end (s : string) : bool :=
  match s with
  | EmptyString => true
  | String c _ => bool_decide (nat_of_ascii c ∈ [44; 93; 125])
  end.

Lemma value_end_cases s :
  value_end s = true ->
  s = EmptyString \/ exists c t, s = String c t /\ (nat_of_ascii c = 44 \/ nat_of_ascii c = 93 \/ nat_of_ascii c = 125).
Proof.
  destruct s as [|c t]; [by left|]. simpl. rewrite bool_decide_eq_true, !elem_of_cons, elem_of_nil.
  intros H. right. exists c, t. tauto.
Qed.

(** Case on the first character of a [value_end] string. *)
Ltac value_end_cases H :=
  let c := fresh "c" in let t := fresh "t" in let Hc := fresh "Hc" in
  destruct (value_end_cases _ H) as [->|(c & t & -> & [Hc|[Hc|Hc]])].

Lemma parse_digits_end x s : value_end s = true -> parse_digits x s = (x, s).
Proof. intros H. value_end_cases H; [done| |..]; by unfold parse_digits, digit_val; rewrite Hc. Qed.

Lemma parse_frac_end m s : value_end s = true -> parse_frac m s = inr (m, 0%Z, s).
Proof. intros H. value_end_cases H; [done| |..]; by unfold parse_frac; rewrite Hc. Qed.

Lemma parse_exp_end s : value_end s = true -> parse_exp s = inr (0%Z, s).
Proof. intros H. value_end_cases H; [done| |..]; by unfold parse_exp; rewrite Hc. Qed.

Lemma digit_val_range c d : digit_val c = Some d -> 48 <= nat_of_ascii c <= 57.
Proof.
  unfold digit_val. destruct (48 <=? _)%nat eqn:H1, (_ <=? 57)%nat eqn:H2; try done.
  apply Nat.leb_le in H1, H2. lia.
Qed.

(** The digits of a positive number, followed by [rest], read back. *)
Lemma parse_int_pretty x rest :
  (0 < x)%N -> value_end rest = true -> parse_int (pretty_N_go x rest) = inr (x, rest).
Proof.
  intros Hx Hr. destruct (pretty_N_go_head x rest Hx) as (c & t & d & Heq & Hd & Hd0).
  pose proof (parse_digits_pretty x rest) as Hp. rewrite Heq in Hp |- *.
  simpl in *. rewrite Hd in Hp |- *. destruct d as [|d]; [done|].
  replace (10 * 0 + N.pos d)%N with (N.pos d) in Hp by lia.
  rewrite Hp. f_equal. by apply parse_digits_end.
Qed.

Lemma pretty_pos_app p rest : (pretty (Zpos p) ++ rest)%string = pretty_N_go (Npos p) rest.
Proof.
  unfold pretty, pretty_Z, pretty, pretty_positive, pretty, pretty_N.
  rewrite decide_False by done. by rewrite pretty_N_go_app.
Qed.

(** [JSON.stringify] of a safe integer, followed by what may follow a
    value, reads back as that integer. *)
Lemma parse_number_pretty z rest :
  (Z.abs z <= max_safe)%Z -> value_end rest = true -> parse_number (pretty z ++ rest) = inr (z, rest).
Proof.
  intros Hz Hr. destruct z as [|p|p].
  - change (pretty 0%Z ++ rest)%string with (String "0" rest). unfold parse_number. simpl.
    rewrite parse_frac_end by done. simpl. by rewrite parse_exp_end.
  - rewrite pretty_pos_app.
    destruct (pretty_N_go_head (Npos p) rest) as (c & t & d & Heq & Hd & _); [lia|].
    pose proof (parse_int_pretty (Npos p) rest) as Hi. rewrite Heq in Hi |- *.
    unfold parse_number. pose proof (digit_val_range c d Hd).
    destruct (nat_of_ascii c =? 45) eqn:H45; [apply Nat.eqb_eq in H45; lia|].
    rewrite Hi by (done || lia). simpl. rewrite parse_frac_end by done. simpl. rewrite parse_exp_end by done. simpl.
    rewrite (proj2 (Z.leb_le _ _)) by lia. do 2 f_equal. lia.
  - change (pretty (Zneg p)) with ("-" ++ pretty (Zpos p))%string.
    rewrite string_app_assoc, pretty_pos_app, string_app_cons, string_app_nil_l.
    unfold parse_number. simpl. rewrite parse_int_pretty by (done || lia). simpl.
    rewrite parse_frac_end by done. simpl. rewrite parse_exp_end by done. simpl.
    rewrite (proj2 (Z.leb_le _ _)) by lia. do 2 f_equal. lia.
Qed.

(** ** Well-formed values *)

(** Whether key [k] may come before key [k'] among an object's own keys:
    array indices first, ascending, then the other keys. *)
Definition key_before (k k' : string) : bool :=
  match array_index k, array_index k' with
  | Some n, Some n' => (n <=? n')%N
  | Some _, None => true
  | None, Some _ => false
  | None, None => true
  end.

Fixpoint keys_ordered (ks : list string) : bool :=
  match ks with
  | [] => true
  | k :: ks' => forallb (key_before k) ks' && keys_ordered ks'
  end.

Definition keys_wf (ks : list string) : bool := bool_decide (NoDup ks) && keys_ordered ks.

(** The values a JavaScript program holds: numbers are safe integers,
    an object's keys are distinct and in the order the engine lists
    them. *)
Fixpoint json_wf (j : json) : bool :=
  match j with
  | JNum z => (Z.abs z <=? max_safe)%Z
  | JArr xs => forallb json_wf xs
  | JObj fs => keys_wf fs.*1 && forallb (fun kv => json_wf kv.2) fs
  | JNull | JBool _ | JStr _ => true
  end.

(** Induction on [json] through its lists. *)
Section JsonInd.
Context (P : json -> Prop) (Pnull : P JNull) (Pbool : forall b, P (JBool b))
  (Pnum : forall z, P (JNum z)) (Pstr : forall s, P (JStr s))
  (Parr : forall xs, Forall P xs -> P (JArr xs))
  (Pobj : forall fs, Forall (fun kv => P kv.2) fs -> P (JObj fs)).

Fixpoint json_ind' (j : json) : P j :=
  match j with
  | JNull => Pnull
  | JBool b => Pbool b
  | JNum z => Pnum z
  | JStr s => Pstr s
  | JArr xs =>
      Parr xs ((fix go (xs : list json) : Forall P xs :=
                  match xs with
                  | [] => Forall_nil_2 _
                  | x :: xs' => Forall_cons_2 _ x xs' (json_ind' x) (go xs')
                  end) xs)
  | JObj fs =>
      Pobj fs ((fix go (fs : list (string * json)) : Forall (fun kv => P kv.2) fs :=
                  match fs with
                  | [] => Forall_nil_2 _
                  | (k, v) :: fs' => Forall_cons_2 (fun kv => P kv.2) (k, v) fs' (json_ind' v) (go fs')
                  end) fs)
  end.
End JsonInd.

(** ** Building an object from its members *)

Lemma keys_ordered_snoc ks k :
  keys_ordered (ks ++ [k]) = true -> keys_ordered ks = true /\ Forall (fun k' => key_before k' k = true) ks.
Proof.
  induction ks as [|k0 ks IH]; simpl; [done|].
  intros [Hf Ho]%andb_true_iff. rewrite forallb_app in Hf.
  apply andb_true_iff in Hf as [Hf Hb]. simpl in Hb. rewrite andb_true_r in Hb.
  destruct (IH Ho) as [Ho' HF]. split; [by rewrite Hf, Ho'|by constructor].
Qed.

Lemma keys_wf_snoc ks k :
  keys_wf (ks ++ [k]) = true -> keys_wf ks = true /\ (k ∉ ks) /\ Forall (fun k' => key_before k' k = true) ks.
Proof.
  unfold keys_wf. intros [Hnd Ho]%andb_true_iff. apply bool_decide_eq_true, stdpp.list_relations.list.NoDup_app in Hnd as (Hnd & Hdis & _). destruct (keys_ordered_snoc _ _ Ho) as [Ho' HF].
  split_and!; [by rewrite bool_decide_eq_true_2, Ho'| |done].
  intros Hk. by apply (Hdis k Hk), list_elem_of_singleton.
Qed.

Lemma insert_index_last n k v fs :
  Forall (fun kv => key_before kv.1 k = true) fs -> array_index k = Some n ->
  insert_index n k v fs = fs ++ [(k, v)].
Proof.
  intros HF Hk. induction HF as [|[k' v'] fs Hb HF IH]; [done|]. simpl in *.
  unfold key_before in Hb. rewrite Hk in Hb.
  destruct (array_index k') as [n'|]; [|done]. apply N.leb_le in Hb.
  destruct (n <? n')%N eqn:Hlt; [apply N.ltb_lt in Hlt; lia|]. by rewrite IH.
Qed.

(** A member whose key is new and in order goes at the end. *)
Lemma obj_insert_last fs k v :
  keys_wf (fs.*1 ++ [k]) = true -> obj_insert fs (k, v) = fs ++ [(k, v)].
Proof.
  intros Hwf. destruct (keys_wf_snoc _ _ Hwf) as (_ & Hk & HF). simpl.
  rewrite bool_decide_eq_false_2 by done.
  destruct (array_index k) as [n|] eqn:Hn; [|done].
  apply insert_index_last; [|done]. by apply Forall_fmap in HF.
Qed.

(** Members already in the engine's order build exactly that object. *)
Lemma build_object_wf fs : keys_wf fs.*1 = true -> build_object fs = fs.
Proof.
  induction fs as [|[k v] fs IH] using rev_ind; [done|].
  rewrite fmap_app. intros Hwf. unfold build_object. rewrite foldl_app. simpl.
  fold (build_object fs). rewrite IH by apply (keys_wf_snoc _ _ Hwf).
  by apply obj_insert_last.
Qed.

(** ** The first character of a value's text *)

Definition starts_value (c : ascii) : Prop :=
  nat_of_ascii c ∈ [110; 116; 102; 34; 91; 123; 45; 48; 49; 50; 51; 52; 53; 54; 55; 56; 57].

(** Case on the character code of a [starts_value] hypothesis. *)
Ltac start_cases H :=
  unfold starts_value in H;
  repeat (apply elem_of_cons in H as [H|H]; [rewrite ?H|]); [..|by apply elem_of_nil in H].

Lemma digit_start c : 48 <= nat_of_ascii c <= 57 -> starts_value c.
Proof.
  intros Hc. unfold starts_value.
  assert (Hc' : nat_of_ascii c = 48 \/ nat_of_ascii c = 49 \/ nat_of_ascii c = 50 \/
                nat_of_ascii c = 51 \/ nat_of_ascii c = 52 \/ nat_of_ascii c = 53 \/
                nat_of_ascii c = 54 \/ nat_of_ascii c = 55 \/ nat_of_ascii c = 56 \/
                nat_of_ascii c = 57) by lia.
  repeat destruct Hc' as [Hc'|Hc']; rewrite Hc'; by apply (bool_decide_unpack _).
Qed.

(** A number's text starts with a minus sign or a digit. *)
Lemma pretty_start (z : Z) r :
  exists c t, (pretty z ++ r)%string = String c t /\
              (nat_of_ascii c = 45 \/ 48 <= nat_of_ascii c <= 57).
Proof.
  destruct z as [|p|p]; [exists "0"%char, r; split; [reflexivity|right; cbv; lia]| |].
  - rewrite pretty_pos_app.
    destruct (pretty_N_go_head (Npos p) r) as (c & t & d & -> & Hd & _); [lia|].
    exists c, t. split; [done|]. right. by apply (digit_val_range c d).
  - do 2 eexists. split; [reflexivity|by left].
Qed.

Lemma stringify_start j r : exists c t, (stringify j ++ r)%string = String c t /\ starts_value c.
Proof.
  destruct j as [|[]| z | | |];
    try by (do 2 eexists; split; [reflexivity|apply (bool_decide_unpack _); reflexivity]).
  destruct (pretty_start z r) as (c & t & Heq & [Hc|Hc]); exists c, t; split; try done.
  - unfold starts_value. rewrite Hc. by apply (bool_decide_unpack _).
  - by apply digit_start.
Qed.

Lemma skip_ws_start c t : starts_value c -> skip_ws (String c t) = String c t.
Proof. intros H. simpl. unfold is_ws. start_cases H; done. Qed.

(** A value's text does not start with a closing bracket or brace. *)
Lemma start_not_close c : starts_value c -> nat_of_ascii c <> 93 /\ nat_of_ascii c <> 125.
Proof. intros H. start_cases H; done. Qed.

(** A text starting like a number is read as one. *)
Lemma parse_value_number f c t :
  nat_of_ascii c = 45 \/ 48 <= nat_of_ascii c <= 57 ->
  parse_value (S f) (String c t) = let? (z, r) := parse_number (String c t) in inr (JNum z, r).
Proof.
  intros Hc. assert (H : starts_value c).
  { destruct Hc as [Hc|Hc]; [|by apply digit_start]. unfold starts_value. rewrite Hc. set_solver. }
  simpl. unfold is_ws. start_cases H; try done; lia.
Qed.

(** ** The round trip *)

(** [j]'s text, followed by anything that may follow a value, is read
    back as [j] when the fuel exceeds twice the length of the input. *)
Definition reads_back (j : json) : Prop :=
  forall f rest, value_end rest = true -> 2 * String.length (stringify j ++ rest) < f ->
  parse_value f (stringify j ++ rest) = inr (j, rest).

Lemma join_cons2 (sep a b : string) l : join sep (a :: b :: l) = (a ++ sep ++ join sep (b :: l))%string.
Proof. reflexivity. Qed.

#[local] Arguments join : simpl never.

(** The fuel bounds, once the lengths are split. *)
Ltac fuel_lia :=
  repeat progress (rewrite ?string_length_app in *; cbn [String.length map] in *); lia.

Lemma parse_elems_stringify xs :
  Forall reads_back xs -> xs <> [] ->
  forall f rest, 2 * String.length (join "," (map stringify xs) ++ String "]" rest) + 1 < f ->
  parse_elems f (join "," (map stringify xs) ++ String "]" rest) = inr (xs, rest).
Proof.
  induction 1 as [|x xs Hx HF IH]; [done|]. intros _ f rest Hf. destruct f as [|f]; [lia|].
  destruct xs as [|y xs].
  - change (join "," (map stringify [x])) with (stringify x) in *.
    simpl. rewrite (Hx f (String "]" rest)) by (done || fuel_lia). reflexivity.
  - change (map stringify (x :: y :: xs)) with (stringify x :: stringify y :: map stringify xs) in Hf |- *.
    rewrite join_cons2, !string_app_assoc, string_app_cons, string_app_nil_l in Hf |- *.
    change (stringify y :: map stringify xs) with (map stringify (y :: xs)) in Hf |- *.
    simpl. rewrite (Hx f) by (done || fuel_lia). simpl.
    change (stringify y :: map stringify xs) with (map stringify (y :: xs)).
    rewrite (IH ltac:(done) f rest) by fuel_lia. reflexivity.
Qed.

(** The text of one object member, as [stringify] writes it. *)
Definition member_text (kv : string * json) : string := (quote kv.1 ++ ":" ++ stringify kv.2)%string.

Lemma member_text_app k v R :
  (member_text (k, v) ++ R)%string =
    String "034" (escape_string k ++ String "034" (String ":" (stringify v ++ R))).
Proof. unfold member_text. simpl. by rewrite !string_app_assoc, quote_app, string_app_cons. Qed.

Lemma parse_members_stringify fs :
  Forall (fun kv => reads_back kv.2) fs -> fs <> [] ->
  forall f rest, 2 * String.length (join "," (map member_text fs) ++ String "}" rest) + 1 < f ->
  parse_members f (join "," (map member_text fs) ++ String "}" rest) = inr (fs, rest).
Proof.
  induction 1 as [|[k v] fs Hv HF IH]; [done|]. simpl in Hv. intros _ f rest Hf. destruct f as [|f]; [lia|].
  destruct fs as [|kv fs].
  - change (join "," (map member_text [(k, v)])) with (member_text (k, v)) in *.
    rewrite member_text_app in *. simpl. rewrite parse_chars_escape_string. simpl.
    rewrite (Hv f (String "}" rest)) by (done || fuel_lia). reflexivity.
  - change (map member_text ((k, v) :: kv :: fs)) with (member_text (k, v) :: member_text kv :: map member_text fs) in Hf |- *.
    rewrite join_cons2, !string_app_assoc, member_text_app, string_app_cons, string_app_nil_l in Hf |- *.
    simpl. rewrite parse_chars_escape_string. simpl.
    rewrite (Hv f) by (done || fuel_lia). simpl.
    change (member_text kv :: map member_text fs) with (map member_text (kv :: fs)).
    rewrite (IH ltac:(done) f rest) by fuel_lia. reflexivity.
Qed.

Lemma Forall_forallb_impl {A} (P : A -> Prop) (b : A -> bool) l :
  Forall (fun x => b x = true -> P x) l -> forallb b l = true -> Forall P l.
Proof. induction 1; simpl; [done|]. intros [? ?]%andb_true_iff. constructor; auto. Qed.

Lemma join_head (sep a : string) l R : exists T, (join sep (a :: l) ++ R)%string = (a ++ T)%string.
Proof.
  destruct l as [|b l]; [by exists R|].
  eexists. by rewrite join_cons2, string_app_assoc.
Qed.

Lemma bracket_app (o cl : ascii) (J rest : string) :
  ((String o EmptyString ++ J ++ String cl EmptyString) ++ rest)%string = String o (J ++ String cl rest).
Proof. by rewrite !string_app_assoc. Qed.

(** An opening bracket followed by the start of a value opens a
    non-empty array. *)
Lemma parse_value_array_nonempty f T c t :
  T = String c t -> starts_value c ->
  parse_value (S f) (String "[" T) = let? (xs, r) := parse_elems f T in inr (JArr xs, r).
Proof.
  intros HT Hc. change (parse_value (S f) (String "[" T)) with
    (match skip_ws T with
     | String c' r' => if nat_of_ascii c' =? 93 then inr (JArr [], r')
                       else let? (xs, r) := parse_elems f T in inr (JArr xs, r)
     | EmptyString => inl SyntaxError
     end).
  rewrite HT, skip_ws_start by done. destruct (start_not_close c Hc) as [H _].
  apply Nat.eqb_neq in H. by rewrite H.
Qed.

(** An opening brace followed by a quote opens a non-empty object. *)
Lemma parse_value_object_nonempty f T X :
  T = String "034" X ->
  parse_value (S f) (String "{" T) = let? (ms, r) := parse_members f T in inr (JObj (build_object ms), r).
Proof. intros ->. reflexivity. Qed.

(** Every well-formed value, followed by what may follow a value, is
    read back from its [JSON.stringify] text. *)
Lemma stringify_reads_back j : json_wf j = true -> reads_back j.
Proof.
  induction j as [| b | z | s | xs IH | fs IH] using json_ind'; intros Hwf f rest Hr Hf;
    (destruct f as [|f]; [lia|]).
  - reflexivity.
  - by destruct b.
  - destruct (pretty_start z rest) as (c & t & Heq & Hc). change (stringify (JNum z)) with (pretty z).
    rewrite Heq.
    rewrite parse_value_number by done. rewrite <- Heq, parse_number_pretty by (done || by apply Z.leb_le).
    reflexivity.
  - change (stringify (JStr s)) with (quote s). rewrite quote_app. simpl. by rewrite parse_chars_escape_string.
  - destruct xs as [|x xs]; [reflexivity|]. simpl in Hwf.
    change (stringify (JArr (x :: xs))) with ("[" ++ join "," (map stringify (x :: xs)) ++ "]")%string in Hf |- *.
    rewrite bracket_app in Hf |- *.
    destruct (join_head "," (stringify x) (map stringify xs) (String "]" rest)) as [T HT].
    destruct (stringify_start x T) as (c & t & Hst & Hc).
    rewrite (parse_value_array_nonempty f _ c t); [|by rewrite <- Hst, <- HT|done].
    rewrite parse_elems_stringify; [done|by apply (Forall_forallb_impl _ json_wf)|done|fuel_lia].
  - destruct fs as [|[k v] fs]; [reflexivity|]. simpl in Hwf. apply andb_true_iff in Hwf as [Hk Hv].
    change (stringify (JObj ((k, v) :: fs)))
      with ("{" ++ join "," (map member_text ((k, v) :: fs)) ++ "}")%string in Hf |- *.
    rewrite bracket_app in Hf |- *.
    destruct (join_head "," (member_text (k, v)) (map member_text fs) (String "}" rest)) as [T HT].
    rewrite (parse_value_object_nonempty f _ (escape_string k ++ String "034" (String ":" (stringify v ++ T))));
      [|by rewrite <- member_text_app, <- HT].
    rewrite parse_members_stringify; [|by apply (Forall_forallb_impl _ (fun kv => json_wf kv.2))|done|fuel_lia].
    simpl. by rewrite build_object_wf.
Qed.

(** The round trip: [JSON.parse(JSON.stringify(u))] gives back [u] for
    every well-formed value [u]. *)
Theorem json_parse_stringify j : json_wf j = true -> json_parse (stringify j) = inr j.
Proof.
  intros Hwf. unfold json_parse.
  pose proof (stringify_reads_back j Hwf (2 * String.length (stringify j) + 1) "" eq_refl) as H.
  rewrite string_app_nil_r in H. rewrite H by lia. reflexivity.
Qed.

(** ** What [JSON.parse] returns is well formed *)







Section Update.
Context (k : string) (v : json).



End Update.





(** ** [JSON.parse] never runs out of fuel *)

Lemma skip_ws_length s : String.length (skip_ws s) <= String.length s.
Proof. induction s as [|c s IH]; simpl; [done|]. destruct (is_ws c); simpl; lia. Qed.

Lemma strip_prefix_length p s r : strip_prefix p s = Some r -> String.length r <= String.length s.
Proof.
  revert s. induction p as [|a p IH]; intros [|b s]; simpl; try by intros [= <-].
  case_bool_decide; [|done]. intros Hs. apply IH in Hs. lia.
Qed.

(** A string literal consumes its characters, and fails, if at all,
    with an error of [JSON.parse]. *)
Lemma parse_chars_sound s :
  (forall x r, parse_chars s = inr (x, r) -> String.length r < String.length s) /\
  parse_chars s <> inl OutOfFuel.
Proof.
  remember (String.length s) as n eqn:Hn. revert s Hn.
  induction n as [n IH] using lt_wf_ind. intros [|c t] Hn; [done|]. simpl. unfold rbind.
  split; [intros x r|]; repeat case_match; intros; simplify_eq/=; try done; try lia;
    match goal with
    | H : parse_chars ?u = _ |- _ =>
        destruct (IH (String.length u) ltac:(simpl in *; lia) u eq_refl) as [IHl IHf];
        try (apply IHl in H; simpl in *; lia); try (intros [= ->]; congruence)
    end.
Qed.


Lemma parse_digits_length a s : String.length (parse_digits a s).2 <= String.length s.
Proof.
  revert a. induction s as [|c s IH]; intros a; simpl; [done|].
  destruct (digit_val c); simpl; [specialize (IH (10 * a + n)%N)|]; lia.
Qed.

(** The rest after [parse_digits], by the equation it was named in. *)
Ltac digits_length H :=
  match type of H with
  | parse_digits ?a ?u = _ => let L := fresh "L" in
      pose proof (parse_digits_length a u) as L; rewrite H in L; simpl in L
  end.

Lemma parse_int_length s n r : parse_int s = inr (n, r) -> String.length r < String.length s.
Proof.
  destruct s as [|c t]; [done|]. simpl. destruct (digit_val c) as [[|p]|]; intros Heq; simplify_eq/=; [lia|].
  digits_length Heq. lia.
Qed.

Lemma parse_digits1_length a s m k r : parse_digits1 a s = inr (m, k, r) -> String.length r <= String.length s.
Proof.
  unfold parse_digits1. destruct (starts_with_digit s); [|done].
  destruct (parse_digits a s) as [n u] eqn:Heq. intros Hr. injection Hr as _ _ <-. digits_length Heq. lia.
Qed.

Lemma parse_frac_length m s m' e r : parse_frac m s = inr (m', e, r) -> String.length r <= String.length s.
Proof.
  destruct s as [|c t]; simpl; [intros; simplify_eq/=; lia|]. destruct (_ =? 46); [|intros; simplify_eq/=; lia].
  unfold rbind. destruct (parse_digits1 m t) as [|[[m'' k] u]] eqn:Heq; [done|].
  intros; simplify_eq/=. apply parse_digits1_length in Heq. lia.
Qed.

Lemma parse_exp_length s e r : parse_exp s = inr (e, r) -> String.length r <= String.length s.
Proof.
  destruct s as [|c t]; simpl; [intros; simplify_eq/=; lia|]. destruct (_ || _); [|intros; simplify_eq/=; lia].
  unfold exp_sign. unfold rbind.
  repeat case_match; intros; simplify_eq/=;
    match goal with H : parse_digits1 _ _ = _ |- _ => apply parse_digits1_length in H; simpl in *; lia end.
Qed.

(** A number consumes at least its first digit, and fails, if at all,
    with an error of [JSON.parse]. *)
Lemma parse_number_sound s :
  (forall z r, parse_number s = inr (z, r) -> String.length r < String.length s) /\
  parse_number s <> inl OutOfFuel.
Proof.
  unfold parse_number, rbind. split.
  - intros z r. destruct (match s with String c u => _ | EmptyString => _ end) as [neg t] eqn:Hs.
    assert (Ht : String.length t <= String.length s) by (destruct s; [|case_match]; simplify_eq/=; lia).
    destruct (parse_int t) as [|[i r1]] eqn:H1; [done|]. apply parse_int_length in H1.
    destruct (parse_frac i r1) as [|[[m e1] r2]] eqn:H2; [done|]. apply parse_frac_length in H2.
    destruct (parse_exp r2) as [|[e2 r3]] eqn:H3; [done|]. apply parse_exp_length in H3.
    repeat case_match; intros; simplify_eq/=; lia.
  - destruct (match s with String c u => _ | EmptyString => _ end) as [neg t].
    unfold parse_int, parse_frac, parse_exp, parse_digits1, rbind. repeat case_match; congruence.
Qed.

Lemma literal_sound p v t :
  (forall j r, literal p v t = inr (j, r) -> String.length r <= String.length t) /\
  literal p v t <> inl OutOfFuel.
Proof.
  unfold literal. destruct (strip_prefix p t) eqn:H; [|done].
  split; [|done]. intros j r [= _ <-]. by apply strip_prefix_length in H.
Qed.

(** Turn the equations [repeat case_match] leaves about the parser's
    pieces into facts about the lengths of the rests; [Rv], [Re], [Rm]
    give the rests of the recursive calls. *)
Ltac rest_facts Rv Re Rm :=
  repeat match goal with
  | H : skip_ws ?s = _ |- _ =>
      let L := fresh "L" in pose proof (skip_ws_length s) as L; rewrite H in L; simpl in L; clear H
  | H : parse_chars ?u = inr _ |- _ => apply (proj1 (parse_chars_sound u)) in H
  | H : parse_chars ?u = inl OutOfFuel |- _ => by destruct (proj2 (parse_chars_sound u))
  | H : parse_number ?u = inr _ |- _ => apply (proj1 (parse_number_sound u)) in H
  | H : parse_number ?u = inl OutOfFuel |- _ => by destruct (proj2 (parse_number_sound u))
  | H : literal ?p ?v ?u = inr _ |- _ => apply (proj1 (literal_sound p v u)) in H
  | H : literal ?p ?v ?u = inl OutOfFuel |- _ => by destruct (proj2 (literal_sound p v u))
  | H : parse_value _ ?u = inr _ |- _ => apply Rv in H
  | H : parse_elems _ ?u = inr _ |- _ => apply Re in H
  | H : parse_members _ ?u = inr _ |- _ => apply Rm in H
  end; simpl in *.

(** Every successful parse consumes input. *)
Lemma parse_rest f :
  (forall s j r, parse_value f s = inr (j, r) -> String.length r < String.length s) /\
  (forall s xs r, parse_elems f s = inr (xs, r) -> String.length r < String.length s) /\
  (forall s ms r, parse_members f s = inr (ms, r) -> String.length r < String.length s).
Proof.
  induction f as [|f (IHv & IHe & IHm)]; [done|].
  split_and!; intros s x r; simpl; unfold rbind;
    repeat case_match; intros; simplify_eq/=; rest_facts IHv IHe IHm; lia.
Qed.

(** The parser runs out of fuel only when the fuel is at most twice the
    length of its input. *)
Lemma parse_fuel f :
  (forall s, parse_value f s = inl OutOfFuel -> f <= 2 * String.length s) /\
  (forall s, parse_elems f s = inl OutOfFuel -> f <= 2 * String.length s + 1) /\
  (forall s, parse_members f s = inl OutOfFuel -> f <= 2 * String.length s + 1).
Proof.
  induction f as [|f (IHv & IHe & IHm)]; [split_and!; intros; lia|].
  pose proof (parse_rest f) as (Rv & Re & Rm).
  split_and!; intros s; simpl; unfold rbind;
    repeat case_match; intros; simplify_eq/=;
    repeat match goal with
    | H : parse_value f ?u = inl OutOfFuel |- _ => apply IHv in H
    | H : parse_elems f ?u = inl OutOfFuel |- _ => apply IHe in H
    | H : parse_members f ?u = inl OutOfFuel |- _ => apply IHm in H
    end; rest_facts Rv Re Rm; lia.
Qed.

(** Termination of [JSON.parse]: with twice the length of its text as
    fuel, the parser always finishes; its result is a value or one of
    [JSON.parse]'s own errors, never an exhausted fuel. *)
Theorem json_parse_total s : json_parse s <> inl OutOfFuel.
Proof.
  unfold json_parse, rbind. destruct (parse_value _ s) as [e|[j r]] eqn:H.
  - intros [= ->]. apply (proj1 (parse_fuel _)) in H. lia.
  - by destruct (skip_ws r).
Qed.

(** ** Text after a value *)

(** [JSON.parse] rejects a serialized value followed by more text:
    a comma, bracket or brace after a complete value is a
    [SyntaxError], e.g. two values written one after the other. *)
Theorem json_parse_trailing j c t :
  json_wf j = true -> value_end (String c t) = true ->
  json_parse (stringify j ++ String c t) = inl SyntaxError.
Proof.
  intros Hwf Hend. unfold json_parse.
  rewrite (stringify_reads_back j Hwf) by (done || lia). simpl.
  destruct (value_end_cases _ Hend) as [|(c' & t' & [= <- <-] & Hc)]; [done|].
  unfold is_ws. by destruct Hc as [->|[->| ->]].
Qed.

(** ** The stored user *)

(** C14 Both login paths store a user that [JSON.parse] reads back: when
    the session writes fit, parsing the stored [user] gives the
    response's user when it is truthy, for every well-formed user, in
    particular for every user the response's own [JSON.parse] produced;
    a falsy user ([null], [false], [0], [""]) is not written, and
    parsing gives the previous session's user. *)
Theorem persist_session_user_roundtrip d u w :
  user d = Some u -> json_wf u = true ->
  writes_fit (w_quota w) (w_storage w) (session_writes d) = true ->
  json_parse <$> (w_storage (final (persist_session d) w) !! "user") =
    if json_truthy u then Some (inr u) else json_parse <$> (w_storage w !! "user").
Proof.
  intros Hu Hwf Hfit. rewrite (persist_session_user d u w Hu Hfit).
  destruct (json_truthy u); [simpl; by rewrite json_parse_stringify|done].
Qed.


(** ** Examples and witnesses *)

Definition dq : string := String (ascii_of_nat 34) EmptyString.

(** A repeated key keeps its first place and takes the last value; an
    array-index key is listed first. *)
Example json_parse_repeated_key :
  json_parse ("{" ++ dq ++ "b" ++ dq ++ ":1," ++ dq ++ "1" ++ dq ++ ":null," ++ dq ++ "b" ++ dq ++ ": [true]}")
  = inr (JObj [("1", JNull); ("b", JArr [JBool true])]).
Proof. vm_compute. reflexivity. Qed.

(** A trailing comma and a leading zero are syntax errors; [1.0] is the
    integer [1], [2.5] is outside the model's integers. *)
Example json_parse_malformed :
  json_parse "[1,]" = inl SyntaxError /\ json_parse "01" = inl SyntaxError /\
  json_parse "[1.0, 1e2]" = inr (JArr [JNum 1; JNum 100]) /\ json_parse "2.5" = inl Unrepresentable.
Proof. vm_compute. repeat split. Qed.

Definition demo_data : auth_data := mk_auth_data (Some (mk_tokens "at1" "rt1")) (Some demo_user).

(** A response whose user is [null]: the previous session's user stays. *)
Definition null_user_data : auth_data := mk_auth_data (Some (mk_tokens "at1" "rt1")) (Some JNull).

Lemma persist_session_user_roundtrip_witness :
  json_parse <$> (w_storage (final (persist_session demo_data) (demo_world ∅ 1000)) !! "user") =
    Some (inr demo_user) /\
  json_parse <$> (w_storage (final (persist_session null_user_data)
                                   (demo_world (<["user" := stringify demo_user]> ∅) 1000)) !! "user") =
    Some (inr demo_user).
Proof.
  split.
  - rewrite (persist_session_user_roundtrip demo_data demo_user);
      [reflexivity|reflexivity|reflexivity|vm_compute; reflexivity].
  - rewrite (persist_session_user_roundtrip null_user_data JNull);
      [vm_compute; reflexivity|reflexivity|reflexivity|vm_compute; reflexivity].
Defined.

