(* ===== verification/OAuthCallback.v ===== *)
(** * The OAuth callback page ([src/app/(auth)/oauth-callback/page.tsx])

    The page keeps two [useState] hooks, [status] (["loading"],
    ["success"], ["error"]) and [message]; on mount its effect runs
    [processCallback], which reads the query parameters [code], [error],
    [status] and [message], exchanges the code for tokens, stores the
    session, notifies, and navigates: to [/login?error=<message>] on every
    failure, to [/] 1.5 s after a success.  A handler of the page is a
    computation on the pair (browser, hooks). *)

From Stdlib Require Import String Ascii ZArith.
From stdpp Require Import base gmap strings list.
From S2P Require Import Prelude Browser UrlCodec Http Session.

(** ** The page's state *)

Inductive cb_status : Type := Loading | Succeeded | Failed.

#[export] Instance cb_status_eq_dec : EqDecision cb_status.
Proof. solve_decision. Defined.

Record cb_state : Type := mk_cb {
  cb_status_of : cb_status;
  cb_message : string
}.

(** [useState("loading")], [useState("")] *)
Definition cb_init : cb_state := mk_cb Loading "".

Abbreviation Page := (M (world * cb_state) js_error).

Definition setStatus (s : cb_status) : Page unit :=
  lift_snd (mmodify (fun st => mk_cb s (cb_message st))).

Definition setMessage (m : string) : Page unit :=
  lift_snd (mmodify (fun st => mk_cb (cb_status_of st) m)).

Definition browser {A} (m : JS A) : Page A := lift_fst m.

(** ** [processCallback] *)

(** [`/login?error=${encodeURIComponent(errorMessage)}`] *)
Definition login_error_url (m : string) : string :=
  ("/login?error=" ++ encodeURIComponent m)%string.

(** The failure sequence the page runs on each of its three error paths. *)
Definition fail_with (errorMessage : string) : Page unit :=
  setStatus Failed ;;
  setMessage errorMessage ;;
  browser (toast_error errorMessage) ;;
  browser (push (login_error_url errorMessage)).

Definition missing_code_message : string :=
  "Invalid OAuth callback. Missing authentication code.".

Section Callback.
Context `{Backend} `{ApiErrorHandler}.

(** The [try] block once the exchange has answered [response]. *)
Definition on_exchange_response (response : auth_response) : Page unit :=
  match is_success response with
  | Some d =>
      browser (persist_session d) ;;
      setStatus Succeeded ;;
      setMessage (or_default (message response) "Authentication successful!") ;;
      browser (toast_success (or_default (message response) "Authentication successful!")) ;;
      browser (setTimeout_push "/" 1500)
  | None => mthrow (PlainError (or_default (message response) "Authentication failed"))
  end.

(** The [try] block after the code is known. *)
Definition exchange_and_store (code : string) : Page unit :=
  response <- browser (exchangeOAuthCode code) ;;
  on_exchange_response response.

(** The [catch] clause:
    [apiErrorHandler(error).message || "Failed to complete authentication"]. *)
Definition exchange_failed (e : js_error) : Page unit :=
  fail_with (or_default (ae_message (apiErrorHandler e)) "Failed to complete authentication").

Definition processCallback (params : list (string * string)) : Page unit :=
  let code := search_get params "code" in
  let error := search_get params "error" in
  let statusParam := search_get params "status" in
  if truthy error || bool_decide (statusParam = Some "error"%string) then
    fail_with (or_default (js_or (search_get params "message") error) "OAuth authentication failed")
  else
    match as_truthy code with
    | Some c => try_catch (exchange_and_store c) exchange_failed
    | None => fail_with missing_code_message
    end.
End Callback.

(** ** The branches of [processCallback] *)

(** [error || statusParam === "error"]: the provider reported a failure. *)
Definition error_signalled (params : list (string * string)) : bool :=
  truthy (search_get params "error") || bool_decide (search_get params "status" = Some "error"%string).

Definition exchange_request (code : string) : request := spec_request (CallExchange code).

Lemma fail_with_run m w s :
  fail_with m (w, s) =
    (Ok tt, (add_history (login_error_url m) (add_toast (ToastError m) w), mk_cb Failed m)).
Proof. reflexivity. Qed.

Section CallbackLemmas.
Context `{Backend} `{ApiErrorHandler}.

Lemma browser_exchange c w s :
  browser (exchangeOAuthCode c) (w, s) =
    match backend_respond (exchange_request c) with
    | Ok r => (Ok r, (add_sent (exchange_request c) w, s))
    | Exc e => (Exc e, (add_console e (add_sent (exchange_request c) w), s))
    end.
Proof.
  unfold browser, lift_fst.
  change (exchangeOAuthCode c w) with (logged (api_request (exchange_request c)) w).
  rewrite logged_api_request. unfold spec_call. by destruct (backend_respond _).
Qed.

Lemma processCallback_code params c :
  error_signalled params = false -> as_truthy (search_get params "code") = Some c ->
  processCallback params = try_catch (exchange_and_store c) exchange_failed.
Proof. unfold processCallback, error_signalled. by intros -> ->. Qed.

(** Once the exchange has answered [r], the [try] block continues with
    [on_exchange_response r]. *)
Lemma exchange_and_store_answer c r w s :
  backend_respond (exchange_request c) = Ok r ->
  exchange_and_store c (w, s) = on_exchange_response r (add_sent (exchange_request c) w, s).
Proof. intros Hr. unfold exchange_and_store, mbind at 1. by rewrite browser_exchange, Hr. Qed.

(** After a successful answer, the outcome of the storage writes
    decides: the page succeeds, or the write error is handled as a
    failure (with the writes done so far kept). *)
Lemma processCallback_answered params c r d w s o w2 :
  error_signalled params = false -> as_truthy (search_get params "code") = Some c ->
  backend_respond (exchange_request c) = Ok r -> is_success r = Some d ->
  persist_session d (add_sent (exchange_request c) w) = (o, w2) ->
  processCallback params (w, s) =
    match o with
    | Ok _ =>
        let m := or_default (message r) "Authentication successful!" in
        (Ok tt, (set_timers (w_timers w2 ++ [(1500, "/"%string)]) (add_toast (ToastSuccess m) w2),
                 mk_cb Succeeded m))
    | Exc e =>
        let m := or_default (ae_message (apiErrorHandler e)) "Failed to complete authentication" in
        (Ok tt, (add_history (login_error_url m) (add_toast (ToastError m) w2), mk_cb Failed m))
    end.
Proof.
  intros He Hc Hr Hd Hp. rewrite (processCallback_code params c) by done.
  unfold try_catch. rewrite (exchange_and_store_answer c r) by done.
  unfold on_exchange_response. rewrite Hd.
  unfold mbind at 1, browser at 1, lift_fst at 1. rewrite Hp.
  destruct o; [reflexivity|]. apply fail_with_run.
Qed.
End CallbackLemmas.

Section CallbackTheorems.
Context `{Backend} `{ApiErrorHandler}.

(** C2 Provider error: when the query has a truthy [error] or
    [status=error], the page fails with [message || error || default],
    shows it in an error toast, redirects to [/login?error=<message>],
    and sends no request and writes no storage. *)
Theorem processCallback_error_param params w s :
  error_signalled params = true ->
  let m := or_default (js_or (search_get params "message") (search_get params "error"))
                      "OAuth authentication failed" in
  processCallback params (w, s) =
    (Ok tt, (add_history (login_error_url m) (add_toast (ToastError m) w), mk_cb Failed m)).
Proof.
  unfold processCallback, error_signalled. intros ->. apply fail_with_run.
Qed.

(** C6 Missing code: with no error signalled and no truthy [code], the
    page fails with the fixed "missing code" message and redirects. *)
Theorem processCallback_missing_code params w s :
  error_signalled params = false -> as_truthy (search_get params "code") = None ->
  processCallback params (w, s) =
    (Ok tt, (add_history (login_error_url missing_code_message)
               (add_toast (ToastError missing_code_message) w),
             mk_cb Failed missing_code_message)).
Proof.
  unfold processCallback, error_signalled. intros -> ->. apply fail_with_run.
Qed.

(** C3 Successful exchange: the one exchange request is sent, the
    session is stored, the page succeeds with the response's message
    (or the default), shows a success toast, and schedules the
    navigation to [/] after 1500 ms, navigating nowhere at once. *)
Theorem processCallback_success params c r d w s :
  error_signalled params = false -> as_truthy (search_get params "code") = Some c ->
  backend_respond (exchange_request c) = Ok r -> is_success r = Some d ->
  writes_fit (w_quota w) (w_storage w) (session_writes d) = true ->
  let m := or_default (message r) "Authentication successful!" in
  processCallback params (w, s) =
    (Ok tt, (set_timers (w_timers w ++ [(1500, "/"%string)])
               (add_toast (ToastSuccess m)
                  (set_storage (apply_writes (session_writes d) (w_storage w))
                     (add_sent (exchange_request c) w))),
             mk_cb Succeeded m)).
Proof.
  intros He Hc Hr Hd Hfit.
  rewrite (processCallback_answered params c r d w s (Ok tt)
             (set_storage (apply_writes (session_writes d) (w_storage w)) (add_sent (exchange_request c) w)))
    by (try done; rewrite persist_session_set_items;
        exact (set_items_fit _ (add_sent (exchange_request c) w) Hfit)).
  reflexivity.
Qed.

(** C4 Failed exchange: when the exchange request throws [e], the page
    fails with [apiErrorHandler(e).message] (or the default), logs [e],
    redirects to [/login?error=<message>], and writes no storage. *)
Theorem processCallback_exchange_error params c e w s :
  error_signalled params = false -> as_truthy (search_get params "code") = Some c ->
  backend_respond (exchange_request c) = Exc e ->
  let m := or_default (ae_message (apiErrorHandler e)) "Failed to complete authentication" in
  processCallback params (w, s) =
    (Ok tt, (add_history (login_error_url m)
               (add_toast (ToastError m) (add_console e (add_sent (exchange_request c) w))),
             mk_cb Failed m)).
Proof.
  intros He Hc Hr. rewrite (processCallback_code params c) by done.
  unfold try_catch, exchange_and_store, mbind at 1. rewrite browser_exchange, Hr.
  apply fail_with_run.
Qed.

(** C5 Rejected exchange: an answer without [status = "success"] and
    [data] is thrown as [new Error(message || "Authentication failed")]
    and handled as a failure; no storage is written. *)
Theorem processCallback_rejected params c r w s :
  error_signalled params = false -> as_truthy (search_get params "code") = Some c ->
  backend_respond (exchange_request c) = Ok r -> is_success r = None ->
  let m := or_default (ae_message (apiErrorHandler
              (PlainError (or_default (message r) "Authentication failed"))))
              "Failed to complete authentication" in
  processCallback params (w, s) =
    (Ok tt, (add_history (login_error_url m)
               (add_toast (ToastError m) (add_sent (exchange_request c) w)),
             mk_cb Failed m)).
Proof.
  intros He Hc Hr Hd. rewrite (processCallback_code params c) by done.
  unfold try_catch. rewrite (exchange_and_store_answer c r) by done.
  unfold on_exchange_response. rewrite Hd. apply fail_with_run.
Qed.
End CallbackTheorems.

(** ** Every run settles in a terminal state *)

(** The terminal states, with the one navigation each performs: a failure
    pushes [/login?error=<message>] at once; a success pushes nothing and
    leaves one timer to [/]. *)
Definition settled (w w' : world) (s' : cb_state) : Prop :=
  (cb_status_of s' = Failed /\
   w_history w' = w_history w ++ [login_error_url (cb_message s')] /\ w_timers w' = w_timers w) \/
  (cb_status_of s' = Succeeded /\
   w_history w' = w_history w /\ w_timers w' = w_timers w ++ [(1500, "/"%string)]).

Lemma settled_fail w m :
  settled w (add_history (login_error_url m) (add_toast (ToastError m) w)) (mk_cb Failed m).
Proof. left. done. Qed.

#[export] Hint Resolve settled_fail : js.

Section Settles.
Context `{Backend} `{ApiErrorHandler}.

Lemma settled_fail_frame w w2 m :
  w_history w2 = w_history w -> w_timers w2 = w_timers w ->
  settled w (add_history (login_error_url m) (add_toast (ToastError m) w2)) (mk_cb Failed m).
Proof. intros Hh Ht. left. simpl. by rewrite Hh, Ht. Qed.

(** C1 [processCallback] always returns, and leaves the page in exactly
    one terminal state: [Failed] with its redirect to the login page
    carrying the message, or [Succeeded] with the delayed navigation to
    [/] pending.  This holds for every query, every backend answer, and
    a storage write that throws. *)
Theorem processCallback_settles params w s :
  exists w' s', processCallback params (w, s) = (Ok tt, (w', s')) /\ settled w w' s'.
Proof.
  destruct (error_signalled params) eqn:He.
  { rewrite processCallback_error_param by done. eauto with js. }
  destruct (as_truthy (search_get params "code")) as [c|] eqn:Hc.
  2: { rewrite processCallback_missing_code by done. eauto with js. }
  destruct (backend_respond (exchange_request c)) as [r|e] eqn:Hr.
  2: { rewrite (processCallback_exchange_error params c e) by done.
       do 2 eexists. split; [done|]. by apply settled_fail_frame. }
  destruct (is_success r) as [d|] eqn:Hd.
  2: { rewrite (processCallback_rejected params c r) by done.
       do 2 eexists. split; [done|]. by apply settled_fail_frame. }
  destruct (persist_session d (add_sent (exchange_request c) w)) as [o w2] eqn:Hp.
  rewrite (processCallback_answered params c r d w s o w2) by done.
  pose proof (persist_session_only_storage _ _ _ _ Hp) as Hw2.
  destruct o as [[]|e']; do 2 eexists; (split; [done|]).
  - right. rewrite Hw2. simpl. done.
  - apply settled_fail_frame; by rewrite Hw2.
Qed.

(** C7 The failure redirect round-trips: whenever the page fails, the
    last URL it pushed, read back through [URLSearchParams], gives the
    page's displayed message under [error]. *)
Theorem processCallback_redirect_roundtrip params w s w' s' :
  processCallback params (w, s) = (Ok tt, (w', s')) -> cb_status_of s' = Failed ->
  exists u, last (w_history w') = Some u /\
            search_get (parse_query (query_of_url u)) "error" = Some (cb_message s').
Proof.
  intros Hrun Hf. destruct (processCallback_settles params w s) as (w1 & s1 & Hrun1 & Hset).
  rewrite Hrun in Hrun1. simplify_eq.
  destruct Hset as [(_ & Hh & _) | (Hs & _)]; [|congruence].
  eexists. rewrite Hh, last_snoc. split; [done|].
  apply (url_param_roundtrip "/login" "error"); done.
Qed.
End Settles.

(** ** The redirect URL *)

Lemma login_error_url_split m :
  login_error_url m = ("/login" ++ String "?" ("error" ++ String "=" (encodeURIComponent m)))%string.
Proof. reflexivity. Qed.

(** C31 The login redirect carries the message losslessly: the login page's
    [searchParams.get("error")] on [login_error_url m] is [m], for every
    message (spaces, [&], [=], [+], [%] and non-ASCII bytes included). *)
Theorem login_error_url_roundtrip m :
  search_get (parse_query (query_of_url (login_error_url m))) "error" = Some m.
Proof. rewrite login_error_url_split. by apply url_param_roundtrip. Qed.

(** The redirect URL is at most the 13 characters of [/login?error=]
    plus three per byte of the message. *)
Theorem login_error_url_length m :
  13 + String.length m <= String.length (login_error_url m) <= 13 + 3 * String.length m.
Proof.
  unfold login_error_url. change (String.length ("/login?error=" ++ encodeURIComponent m))
    with (13 + String.length (encodeURIComponent m)).
  pose proof (encode_length m). lia.
Qed.

(** ** The render *)

Inductive cb_view : Type :=
(** spinner and "Completing authentication..." *)
| ViewLoading (caption : string)
(** check icon, title, message, "Redirecting to home page...", link to [/] *)
| ViewSuccess (title : string) (msg : string) (links : list string)
(** cross icon, title, message, links to [/login] and [/signup] *)
| ViewError (title : string) (msg : string) (links : list string).

Definition render_callback (s : cb_state) : cb_view :=
  match cb_status_of s with
  | Loading => ViewLoading "Completing authentication..."
  | Succeeded => ViewSuccess "Authentication Successful!" (cb_message s) ["/"%string]
  | Failed => ViewError "Authentication Failed" (cb_message s) ["/login"%string; "/signup"%string]
  end.

(** C32 After [processCallback], the page never shows the spinner again: it
    shows the success view with a manual link to [/], or the error view
    with the displayed message and manual links to [/login] and [/signup],
    the redirect that carries the same message having been pushed. *)
Theorem processCallback_render `{Backend} `{ApiErrorHandler} params w s w' s' :
  processCallback params (w, s) = (Ok tt, (w', s')) ->
  (exists t, render_callback s' = ViewSuccess t (cb_message s') ["/"%string]) \/
  (exists t, render_callback s' = ViewError t (cb_message s') ["/login"%string; "/signup"%string] /\
             last (w_history w') = Some (login_error_url (cb_message s'))).
Proof.
  intros Hrun. destruct (processCallback_settles params w s) as (w1 & s1 & Hrun1 & Hset).
  rewrite Hrun in Hrun1. simplify_eq. unfold render_callback.
  destruct Hset as [(-> & Hh & _) | (-> & _)]; [right | left]; eexists; [|done].
  split; [done|]. by rewrite Hh, last_snoc.
Qed.

(** ** The specification's scenarios (section 8) *)

(** [searchParams] of the callback URL [/oauth-callback?<q>]. *)
Definition callback_params (q : string) : list (string * string) := parse_query q.

(** [error=access_denied]: the page fails with [access_denied] and
    redirects to exactly [/login?error=access_denied], whatever the
    backend. *)
Theorem callback_access_denied `{Backend} `{ApiErrorHandler} w s :
  processCallback (callback_params "error=access_denied") (w, s) =
    (Ok tt, (add_history "/login?error=access_denied" (add_toast (ToastError "access_denied") w),
             mk_cb Failed "access_denied")).
Proof. rewrite processCallback_error_param by reflexivity. reflexivity. Qed.

(** C30 [code=...] with a successful exchange: the page succeeds and,
    once the 1.5 s timer has run, has navigated to [/]. *)
Theorem processCallback_success_navigates_home `{Backend} `{ApiErrorHandler} params c r d w s w' s' :
  error_signalled params = false -> as_truthy (search_get params "code") = Some c ->
  backend_respond (exchange_request c) = Ok r -> is_success r = Some d ->
  writes_fit (w_quota w) (w_storage w) (session_writes d) = true -> w_timers w = [] ->
  processCallback params (w, s) = (Ok tt, (w', s')) ->
  cb_status_of s' = Succeeded /\ w_history w' = w_history w /\
  w_history (run_timers w') = w_history w ++ ["/"%string] /\ w_timers (run_timers w') = [].
Proof.
  intros He Hc Hr Hd Hfit Ht Hrun.
  rewrite (processCallback_success params c r d) in Hrun by done.
  simplify_eq. rewrite Ht. by split_and!.
Qed.

(** ** Witnesses *)

(** A backend that accepts the code [abc123] and rejects anything else. *)
Definition demo_backend : Backend :=
  fun rq => if bool_decide (rq = exchange_request "abc123")
            then Ok (mk_auth_response "success" (Some "Welcome")
                       (Some (mk_auth_data (Some (mk_tokens "at" "rt")) (Some demo_user))))
            else Exc (AxiosError (Some 401%Z) (Some "Invalid code") "Request failed with status code 401").

(** The same backend, answering without data. *)
Definition rejecting_backend : Backend :=
  fun rq => Ok (mk_auth_response "error" (Some "Code expired") None).

Definition demo_w : world := demo_world ∅ 1000.

Lemma processCallback_error_param_witness :
  error_signalled (callback_params "error=denied&message=User+cancelled") = true /\
  @processCallback demo_backend spec_apiErrorHandler
    (callback_params "error=denied&message=User+cancelled") (demo_w, cb_init) =
    (Ok tt, (add_history (login_error_url "User cancelled") (add_toast (ToastError "User cancelled") demo_w),
             mk_cb Failed "User cancelled")).
Proof.
  split; [reflexivity|].
  exact (@processCallback_error_param demo_backend spec_apiErrorHandler
           (callback_params "error=denied&message=User+cancelled") demo_w cb_init eq_refl).
Defined.

Lemma processCallback_missing_code_witness :
  error_signalled (callback_params "state=xyz") = false /\
  as_truthy (search_get (callback_params "state=xyz") "code") = None /\
  final (@processCallback demo_backend spec_apiErrorHandler (callback_params "state=xyz")) (demo_w, cb_init) =
    (add_history (login_error_url missing_code_message) (add_toast (ToastError missing_code_message) demo_w),
     mk_cb Failed missing_code_message).
Proof.
  split_and!; [reflexivity|reflexivity|].
  unfold final. by rewrite (@processCallback_missing_code demo_backend spec_apiErrorHandler _ demo_w cb_init).
Defined.

Lemma processCallback_success_witness :
  error_signalled (callback_params "code=abc123") = false /\
  cb_status_of (snd (final (@processCallback demo_backend spec_apiErrorHandler (callback_params "code=abc123"))
                      (demo_w, cb_init))) = Succeeded.
Proof.
  split; [reflexivity|]. unfold final.
  rewrite (@processCallback_success demo_backend spec_apiErrorHandler _ "abc123"
             (mk_auth_response "success" (Some "Welcome")
                (Some (mk_auth_data (Some (mk_tokens "at" "rt")) (Some demo_user))))
             (mk_auth_data (Some (mk_tokens "at" "rt")) (Some demo_user)) demo_w cb_init);
    [reflexivity | reflexivity | reflexivity | vm_compute; reflexivity | reflexivity | vm_compute; reflexivity].
Defined.

Lemma processCallback_exchange_error_witness :
  error_signalled (callback_params "code=bad") = false /\
  final (@processCallback demo_backend spec_apiErrorHandler (callback_params "code=bad")) (demo_w, cb_init) =
    (add_history (login_error_url "Invalid code")
       (add_toast (ToastError "Invalid code")
          (add_console (AxiosError (Some 401%Z) (Some "Invalid code") "Request failed with status code 401")
             (add_sent (exchange_request "bad") demo_w))),
     mk_cb Failed "Invalid code").
Proof.
  split; [reflexivity|]. unfold final.
  rewrite (@processCallback_exchange_error demo_backend spec_apiErrorHandler _ "bad"
             (AxiosError (Some 401%Z) (Some "Invalid code") "Request failed with status code 401") demo_w cb_init);
    [reflexivity | reflexivity | reflexivity | vm_compute; reflexivity].
Defined.

Lemma processCallback_rejected_witness :
  is_success (mk_auth_response "error" (Some "Code expired") None) = None /\
  final (@processCallback rejecting_backend spec_apiErrorHandler (callback_params "code=abc123")) (demo_w, cb_init) =
    (add_history (login_error_url generic_error_message)
       (add_toast (ToastError generic_error_message) (add_sent (exchange_request "abc123") demo_w)),
     mk_cb Failed generic_error_message).
Proof.
  split; [reflexivity|]. unfold final.
  rewrite (@processCallback_rejected rejecting_backend spec_apiErrorHandler _ "abc123"
             (mk_auth_response "error" (Some "Code expired") None) demo_w cb_init);
    reflexivity.
Defined.

Lemma processCallback_redirect_roundtrip_witness :
  exists u, last (w_history (fst (final (@processCallback demo_backend spec_apiErrorHandler
                                          (callback_params "code=bad")) (demo_w, cb_init)))) = Some u /\
            search_get (parse_query (query_of_url u)) "error" = Some "Invalid code".
Proof.
  apply (@processCallback_redirect_roundtrip demo_backend spec_apiErrorHandler
           (callback_params "code=bad") demo_w cb_init _ (mk_cb Failed "Invalid code"));
    [vm_compute; reflexivity | reflexivity].
Defined.

Lemma processCallback_success_navigates_home_witness :
  w_history (run_timers (fst (final (@processCallback demo_backend spec_apiErrorHandler
                                       (callback_params "code=abc123")) (demo_w, cb_init)))) = ["/"%string].
Proof.
  destruct (@processCallback_success_navigates_home demo_backend spec_apiErrorHandler
              (callback_params "code=abc123") "abc123"
              (mk_auth_response "success" (Some "Welcome")
                 (Some (mk_auth_data (Some (mk_tokens "at" "rt")) (Some demo_user))))
              (mk_auth_data (Some (mk_tokens "at" "rt")) (Some demo_user)) demo_w cb_init
              (fst (final (@processCallback demo_backend spec_apiErrorHandler
                             (callback_params "code=abc123")) (demo_w, cb_init)))
              (snd (final (@processCallback demo_backend spec_apiErrorHandler
                             (callback_params "code=abc123")) (demo_w, cb_init))))
    as (_ & _ & Hh & _);
    [reflexivity | reflexivity | reflexivity | reflexivity | vm_compute; reflexivity | reflexivity
    | vm_compute; reflexivity | ].
  exact Hh.
Defined.

Lemma processCallback_render_witness :
  exists t, render_callback (snd (final (@processCallback demo_backend spec_apiErrorHandler
                                           (callback_params "code=abc123")) (demo_w, cb_init)))
            = ViewSuccess t "Welcome" ["/"%string].
Proof.
  destruct (@processCallback_render demo_backend spec_apiErrorHandler (callback_params "code=abc123")
              demo_w cb_init
              (fst (final (@processCallback demo_backend spec_apiErrorHandler (callback_params "code=abc123")) (demo_w, cb_init)))
              (snd (final (@processCallback demo_backend spec_apiErrorHandler (callback_params "code=abc123")) (demo_w, cb_init))))
    as [[t Ht] | [t [Ht _]]]; [vm_compute; reflexivity | | ].
  - exists t. exact Ht.
  - exists "Authentication Successful!"%string. vm_compute. reflexivity.
Defined.

(** ** Boundary queries *)

(** The outcome of the page on a query string: its status and message,
    and the requests it sent. *)
Definition callback_outcome (q : string) : cb_state * list request :=
  let '(w, s) := final (@processCallback demo_backend spec_apiErrorHandler (callback_params q))
                       (demo_w, cb_init) in
  (s, w_sent w).

(** [URLSearchParams] never throws, so every query ends in a terminal
    state: an empty [code] is a missing code; an empty [error] does not
    count as an error; of two [code]s the first is exchanged; a malformed
    escape is exchanged as it is; [status=error] alone fails with the
    default message. *)
Example callback_boundary_queries :
  callback_outcome "code=" = (mk_cb Failed missing_code_message, []) /\
  callback_outcome "error=&code=abc123" =
    (mk_cb Succeeded "Welcome", [exchange_request "abc123"]) /\
  callback_outcome "code=abc123&code=other" =
    (mk_cb Succeeded "Welcome", [exchange_request "abc123"]) /\
  callback_outcome "code=%zz" = (mk_cb Failed "Invalid code", [exchange_request "%zz"]) /\
  callback_outcome "status=error" = (mk_cb Failed "OAuth authentication failed", []).
Proof. split_and!; vm_compute; reflexivity. Qed.
