(* ===== verification/CallbackPage.v ===== *)
(** * The OAuth callback page as a transition system

    [processCallback] (in [OAuthCallback]) runs the page's effect as one
    computation.  In the browser its [await] splits it: the effect runs
    after the first render, up to the exchange request; the answer arrives
    later; meanwhile the user can leave the page (unmounting it), and the
    event loop runs due timers.  React ignores a state update of an
    unmounted component, but [localStorage], the toaster and the router
    are not part of the component.  This file models the page as a
    deterministic labelled transition function [page_step] on
    [cb_page], proves it refines [processCallback], and proves what holds
    on every reachable state. *)

From Stdlib Require Import String Ascii.
From stdpp Require Import base gmap strings list.
From S2P Require Import Prelude Browser UrlCodec Http Session OAuthCallback.

(** ** The effect, split at its [await] *)

(** [api.post] up to the [await]: the request leaves. *)
Definition api_send (rq : request) : JS unit := fun w => (Ok tt, add_sent rq w).

Section Split.
Context `{Backend} `{ApiErrorHandler}.

(** From the start of [processCallback] to its [await]: the code to
    exchange, or [None] when the page has already failed. *)
Definition callback_start (params : list (string * string)) : Page (option string) :=
  let error := search_get params "error" in
  if error_signalled params then
    fail_with (or_default (js_or (search_get params "message") error) "OAuth authentication failed") ;;
    mret None
  else
    match as_truthy (search_get params "code") with
    | Some c => browser (api_send (exchange_request c)) ;; mret (Some c)
    | None => fail_with missing_code_message ;; mret None
    end.

(** From the [await] on: the answer [r] settles the exchange. *)
Definition callback_settle (r : outcome js_error auth_response) : Page unit :=
  try_catch (response <- browser (settle_logged r) ;; on_exchange_response response)
    exchange_failed.
End Split.

(** ** The page *)

Inductive phase : Type :=
| NotStarted              (** the effect has not run *)
| Awaiting (code : string) (** the exchange of [code] is in flight *)
| Finished.               (** the effect has completed *)

#[export] Instance phase_eq_dec : EqDecision phase.
Proof. solve_decision. Defined.

Record cb_page : Type := mk_cbpage {
  pg_world : world;
  pg_state : cb_state;
  pg_mounted : bool;
  pg_phase : phase
}.

Inductive page_event : Type :=
| EvEffect                                    (** the effect runs after the first render *)
| EvAnswer (r : outcome js_error auth_response) (** the exchange request settles *)
| EvNavigate (path : string)                  (** the user leaves for [path] *)
| EvTimers.                                   (** the event loop runs the due timers *)

Definition page_init (w : world) : cb_page := mk_cbpage w cb_init true NotStarted.

Section Steps.
Context `{Backend} `{ApiErrorHandler} (params : list (string * string)).

(** One event; [None] when the event cannot happen in this state. *)
Definition page_step (e : page_event) (p : cb_page) : option cb_page :=
  match e, pg_phase p with
  | EvEffect, NotStarted =>
      if pg_mounted p then
        let '(r, (w', s')) := callback_start params (pg_world p, pg_state p) in
        Some (mk_cbpage w' s' true (match r with Ok (Some c) => Awaiting c | _ => Finished end))
      else None
  | EvAnswer r, Awaiting _ =>
      let '(w', s') := final (callback_settle r) (pg_world p, pg_state p) in
      Some (mk_cbpage w' (if pg_mounted p then s' else pg_state p) (pg_mounted p) Finished)
  | EvNavigate q, _ => Some (mk_cbpage (add_history q (pg_world p)) (pg_state p) false (pg_phase p))
  | EvTimers, _ => Some (mk_cbpage (run_timers (pg_world p)) (pg_state p) (pg_mounted p) (pg_phase p))
  | _, _ => None
  end.

Fixpoint run_events (es : list page_event) (p : cb_page) : option cb_page :=
  match es with
  | [] => Some p
  | e :: es' => p' ← page_step e p; run_events es' p'
  end.

Inductive reachable (w0 : world) : cb_page -> Prop :=
| reach_init : reachable w0 (page_init w0)
| reach_step p e p' : reachable w0 p -> page_step e p = Some p' -> reachable w0 p'.
End Steps.

(** ** The split effect is [processCallback] *)

Section SplitLemmas.
Context `{Backend} `{ApiErrorHandler}.

Lemma browser_exchange_settle c w s :
  browser (exchangeOAuthCode c) (w, s) =
    browser (settle_logged (backend_respond (exchange_request c))) (add_sent (exchange_request c) w, s).
Proof.
  unfold browser, lift_fst.
  change (exchangeOAuthCode c w) with (logged (api_request (exchange_request c)) w).
  by rewrite logged_settle.
Qed.

Lemma processCallback_split params w s :
  processCallback params (w, s) =
    mbind (callback_start params)
      (fun oc => match oc with
                 | Some c => callback_settle (backend_respond (exchange_request c))
                 | None => mret tt
                 end) (w, s).
Proof.
  unfold processCallback, callback_start. fold (error_signalled params).
  destruct (error_signalled params); [reflexivity|].
  destruct (as_truthy (search_get params "code")) as [c|]; [|reflexivity].
  unfold try_catch at 1, exchange_and_store, mbind at 1 2. rewrite browser_exchange_settle.
  reflexivity.
Qed.

(** The failure sequence ends in [Failed]; no path of the settled
    exchange leaves the page loading. *)
Lemma callback_settle_terminal r w s :
  cb_status_of (snd (final (callback_settle r) (w, s))) <> Loading.
Proof.
  unfold final, callback_settle, try_catch, mbind at 1.
  destruct r as [a|e]; simpl; [|done].
  unfold on_exchange_response. destruct (is_success a) as [d|]; simpl; [|done].
  unfold mbind at 1, browser at 1, lift_fst at 1.
  destruct (persist_session d w) as [[[]|e] w1]; simpl; [done|]. done.
Qed.

(** Settling sends no request. *)
Lemma callback_settle_sent r w s :
  w_sent (fst (final (callback_settle r) (w, s))) = w_sent w.
Proof.
  unfold final, callback_settle, try_catch, mbind at 1.
  destruct r as [a|e]; simpl; [|done].
  unfold on_exchange_response. destruct (is_success a) as [d|]; simpl; [|done].
  unfold mbind at 1, browser at 1, lift_fst at 1.
  destruct (persist_session d w) as [o w1] eqn:Hp.
  rewrite (persist_session_only_storage _ _ _ _ Hp).
  destruct o as [[]|e]; simpl; [done|]. done.
Qed.
End SplitLemmas.

Lemma run_timers_sent w : w_sent (run_timers w) = w_sent w.
Proof.
  unfold run_timers. simpl. generalize (timer_order (w_timers w)). intros ts.
  revert w. induction ts as [|t ts IH]; intros w; [done|]. simpl. by rewrite IH.
Qed.

(** ** The page refines [processCallback] *)

(** The events of an undisturbed page load: the effect, then the answer
    the backend gives to the exchange request if one was sent. *)
Definition effect_events `{Backend} `{ApiErrorHandler} (params : list (string * string)) (w : world)
    : list page_event :=
  EvEffect :: match result (callback_start params) (w, cb_init) with
              | Ok (Some c) => [EvAnswer (backend_respond (exchange_request c))]
              | _ => []
              end.

Section PageTheorems.
Context `{Backend} `{ApiErrorHandler} (params : list (string * string)).

(** Refinement: an undisturbed page load (the effect runs, then the
    exchange, if any, settles with the backend's answer) ends in exactly
    the browser and page state [processCallback] computes. *)
Theorem processCallback_as_events w :
  run_events params (effect_events params w) (page_init w) =
    Some (mk_cbpage (fst (final (processCallback params) (w, cb_init)))
                    (snd (final (processCallback params) (w, cb_init))) true Finished).
Proof.
  unfold effect_events, final, result. rewrite processCallback_split. unfold mbind.
  destruct (callback_start params (w, cb_init)) as [[[c|]|e] [w1 s1]] eqn:Hcs; simpl;
    rewrite Hcs; simpl; [|done|done].
  unfold final. by destruct (callback_settle _ (w1, s1)) as [o [w2 s2]].
Qed.

(** The invariant of the page: before the effect the hooks hold their
    initial values; while the exchange is in flight the status is
    [Loading] and exactly the exchange request has been sent; once the
    effect is over, a mounted page no longer shows [Loading], and at most
    one request has been sent. *)
Definition page_inv (w0 : world) (p : cb_page) : Prop :=
  (pg_phase p = NotStarted -> pg_state p = cb_init /\ w_sent (pg_world p) = w_sent w0) /\
  (forall c, pg_phase p = Awaiting c ->
     cb_status_of (pg_state p) = Loading /\ w_sent (pg_world p) = w_sent w0 ++ [exchange_request c]) /\
  (pg_phase p = Finished ->
     (pg_mounted p = true -> cb_status_of (pg_state p) <> Loading) /\
     exists extra, w_sent (pg_world p) = w_sent w0 ++ extra /\ length extra <= 1).

Lemma page_inv_init w0 : page_inv w0 (page_init w0).
Proof. split_and!; done. Qed.

Lemma callback_start_cases w :
  (exists c, callback_start params (w, cb_init) = (Ok (Some c), (add_sent (exchange_request c) w, cb_init))) \/
  (exists w' s', callback_start params (w, cb_init) = (Ok None, (w', s')) /\
                 cb_status_of s' = Failed /\ w_sent w' = w_sent w).
Proof.
  unfold callback_start. destruct (error_signalled params).
  { right. do 2 eexists. split; [reflexivity|done]. }
  destruct (as_truthy (search_get params "code")) as [c|].
  - left. by eexists.
  - right. do 2 eexists. split; [reflexivity|done].
Qed.

(** Leaving the page or running timers changes neither the hooks nor the
    phase, sends nothing, and can only unmount. *)
Lemma page_inv_frame w0 p w' m :
  page_inv w0 p -> w_sent w' = w_sent (pg_world p) -> (m = true -> pg_mounted p = true) ->
  page_inv w0 (mk_cbpage w' (pg_state p) m (pg_phase p)).
Proof.
  intros (HN & HA & HF) Hw Hm. unfold page_inv; simpl; rewrite Hw. split_and!.
  - exact HN.
  - exact HA.
  - intros Hf. destruct (HF Hf) as [Hl Hx]. split; [|exact Hx]. intros ->. by apply Hl, Hm.
Qed.

Lemma page_step_inv w0 e p p' : page_inv w0 p -> page_step params e p = Some p' -> page_inv w0 p'.
Proof.
  intros Hinv Hstep. destruct e as [|r|q|].
  3: { simpl in Hstep. simplify_eq. by apply page_inv_frame. }
  3: { simpl in Hstep. simplify_eq. apply page_inv_frame; [done | apply run_timers_sent | done]. }
  all: destruct Hinv as (HN & HA & HF); unfold page_inv.
  all: destruct (pg_phase p) as [|c|] eqn:Hph; simpl in Hstep; rewrite ?Hph in Hstep; try discriminate.
  - destruct (pg_mounted p); [|discriminate].
    destruct (HN eq_refl) as [Hs Hsent]. rewrite Hs in Hstep.
    destruct (callback_start_cases (pg_world p)) as [[c Hc] | (w' & s' & Hc & Hf & Hw)];
      rewrite Hc in Hstep; simplify_eq/=; repeat split; intros; simplify_eq/=.
    + by rewrite Hsent.
    + by rewrite Hf.
    + exists []. rewrite Hw, Hsent, app_nil_r. split; [done|simpl; lia].
  - destruct (HA c eq_refl) as [Hl Hsent].
    pose proof (callback_settle_terminal r (pg_world p) (pg_state p)) as Hterm.
    pose proof (callback_settle_sent r (pg_world p) (pg_state p)) as Hs.
    unfold final in *. destruct (callback_settle r _) as [o [w' s']].
    simplify_eq/=; repeat split; intros; simplify_eq/=.
    + match goal with Hm : pg_mounted _ = true |- _ => rewrite Hm end. done.
    + exists [exchange_request c]. rewrite Hs, Hsent. split; [done|simpl; lia].
Qed.
End PageTheorems.

Section PageClaims.
Context `{Backend} `{ApiErrorHandler} (params : list (string * string)).

Lemma reachable_page_inv w0 p : reachable params w0 p -> page_inv w0 p.
Proof.
  induction 1 as [|p e p' Hr IH Hstep]; [apply page_inv_init|].
  by eapply page_step_inv.
Qed.

(** C8 While the page is mounted it shows the spinner exactly until the
    effect has completed: [status] is ["loading"] if and only if the
    effect has not finished. *)
Theorem page_loading_until_finished w0 p :
  reachable params w0 p -> pg_mounted p = true ->
  (cb_status_of (pg_state p) = Loading <-> pg_phase p <> Finished).
Proof.
  intros Hr Hm. destruct (reachable_page_inv w0 p Hr) as (HN & HA & HF).
  destruct (pg_phase p) as [|c|].
  - destruct (HN eq_refl) as [-> _]. done.
  - destruct (HA c eq_refl) as [Hl _]. done.
  - destruct (HF eq_refl) as [Hl _]. specialize (Hl Hm). done.
Qed.

(** C9 The status changes at most once: from a reachable state that is no
    longer loading, every event leaves the page's hooks unchanged. *)
Theorem page_status_changes_once w0 p e p' :
  reachable params w0 p -> page_step params e p = Some p' ->
  cb_status_of (pg_state p) <> Loading -> pg_state p' = pg_state p.
Proof.
  intros Hr Hstep Hnl. destruct (reachable_page_inv w0 p Hr) as (HN & HA & _).
  destruct e as [|r|q|]; simpl in Hstep; destruct (pg_phase p) as [|c|] eqn:Hph;
    simplify_eq/=; try done.
  - destruct (HN eq_refl) as [Hs _]. by rewrite Hs in Hnl.
  - destruct (HA c eq_refl) as [Hl _]. done.
Qed.

(** C10 The effect sends at most one request in a page's whole life: the
    effect runs once, and only on the code path does it send the
    exchange request. *)
Theorem page_at_most_one_request w0 p :
  reachable params w0 p ->
  exists extra, w_sent (pg_world p) = w_sent w0 ++ extra /\ length extra <= 1.
Proof.
  intros Hr. destruct (reachable_page_inv w0 p Hr) as (HN & HA & HF).
  destruct (pg_phase p) as [|c|].
  - exists []. rewrite app_nil_r. split; [by apply HN|simpl; lia].
  - exists [exchange_request c]. split; [by apply HA|simpl; lia].
  - by apply HF.
Qed.
End PageClaims.

(** ** Leaving the page does not cancel its navigations *)

Section Leaving.
Context `{Backend} `{ApiErrorHandler} (params : list (string * string)).

Lemma callback_start_code c w s :
  error_signalled params = false -> as_truthy (search_get params "code") = Some c ->
  callback_start params (w, s) = (Ok (Some c), (add_sent (exchange_request c) w, s)).
Proof. intros He Hc. unfold callback_start. by rewrite He, Hc. Qed.

(** C28 The success timer is not cancelled: when the user leaves the page
    for [q] after a successful exchange, the pending timer still pushes
    [/] once it runs, taking the user away from [q]. *)
Theorem success_timer_fires_after_leaving c r d w q :
  error_signalled params = false -> as_truthy (search_get params "code") = Some c ->
  backend_respond (exchange_request c) = Ok r -> is_success r = Some d ->
  writes_fit (w_quota w) (w_storage w) (session_writes d) = true -> w_timers w = [] ->
  exists p, run_events params [EvEffect; EvAnswer (Ok r); EvNavigate q; EvTimers] (page_init w) = Some p /\
            pg_mounted p = false /\ w_history (pg_world p) = w_history w ++ [q; "/"%string].
Proof.
  intros He Hc Hr Hd Hfit Ht.
  pose proof (processCallback_success params c r d w cb_init He Hc Hr Hd Hfit) as Hpc.
  rewrite processCallback_split in Hpc. unfold mbind in Hpc.
  rewrite (callback_start_code c) in Hpc by done. simpl in Hpc. rewrite Hr in Hpc.
  unfold run_events, page_step, page_init. simpl. rewrite (callback_start_code c) by done. simpl.
  unfold final. rewrite Hpc. simpl. eexists. split; [reflexivity|]. split; [done|].
  rewrite Ht. simpl. by rewrite <- app_assoc.
Qed.

(** C29 A failure that settles after the user has left still redirects: the
    unmounted page ignores the state update and stays ["loading"], but
    the error toast is shown and [/login?error=<message>] is pushed after
    the user's own navigation to [q]. *)
Theorem error_redirect_after_leaving c e w q :
  error_signalled params = false -> as_truthy (search_get params "code") = Some c ->
  let m := or_default (ae_message (apiErrorHandler e)) "Failed to complete authentication" in
  exists p, run_events params [EvEffect; EvNavigate q; EvAnswer (Exc e)] (page_init w) = Some p /\
            pg_mounted p = false /\ cb_status_of (pg_state p) = Loading /\
            w_history (pg_world p) = w_history w ++ [q; login_error_url m].
Proof.
  intros He Hc. unfold run_events, page_step, page_init. simpl.
  rewrite (callback_start_code c) by done. simpl.
  eexists. split; [reflexivity|]. split_and!; [done|done|]. simpl. by rewrite <- app_assoc.
Qed.
End Leaving.

(** ** Witnesses *)

Definition code_params : list (string * string) := callback_params "code=abc123".

Definition awaiting_page : cb_page :=
  mk_cbpage (add_sent (exchange_request "abc123") demo_w) cb_init true (Awaiting "abc123").

Lemma awaiting_page_reachable : reachable code_params demo_w awaiting_page.
Proof. apply (reach_step _ _ (page_init demo_w) EvEffect); [apply reach_init | reflexivity]. Defined.

(** The exchange fails with a network error, then the user leaves. *)
Definition failed_page : cb_page :=
  let '(w', s') := final (callback_settle (Exc (AxiosError None None "Network Error")))
                     (pg_world awaiting_page, pg_state awaiting_page) in
  mk_cbpage w' s' true Finished.

Lemma failed_page_reachable : reachable code_params demo_w failed_page.
Proof.
  apply (reach_step _ _ awaiting_page (EvAnswer (Exc (AxiosError None None "Network Error"))));
    [apply awaiting_page_reachable | reflexivity].
Defined.

Lemma page_loading_until_finished_witness :
  cb_status_of (pg_state awaiting_page) = Loading <-> pg_phase awaiting_page <> Finished.
Proof. apply (page_loading_until_finished code_params demo_w); [apply awaiting_page_reachable | reflexivity]. Defined.

Lemma page_status_changes_once_witness :
  pg_state (mk_cbpage (add_history "/about" (pg_world failed_page)) (pg_state failed_page) false Finished)
    = pg_state failed_page.
Proof.
  apply (page_status_changes_once code_params demo_w failed_page (EvNavigate "/about"));
    [apply failed_page_reachable | reflexivity | vm_compute; discriminate].
Defined.

Lemma page_at_most_one_request_witness :
  exists extra, w_sent (pg_world failed_page) = w_sent demo_w ++ extra /\ length extra <= 1.
Proof. apply (page_at_most_one_request code_params demo_w). apply failed_page_reachable. Defined.

Lemma success_timer_fires_after_leaving_witness :
  exists p, @run_events spec_apiErrorHandler code_params
              [EvEffect; EvAnswer (Ok (mk_auth_response "success" (Some "Welcome")
                                         (Some (mk_auth_data (Some (mk_tokens "at" "rt")) (Some demo_user)))));
               EvNavigate "/about"; EvTimers] (page_init demo_w) = Some p /\
            pg_mounted p = false /\ w_history (pg_world p) = w_history demo_w ++ ["/about"; "/"]%string.
Proof.
  apply (@success_timer_fires_after_leaving demo_backend spec_apiErrorHandler code_params "abc123" _
           (mk_auth_data (Some (mk_tokens "at" "rt")) (Some demo_user)));
    [reflexivity | reflexivity | reflexivity | reflexivity | vm_compute; reflexivity | reflexivity].
Defined.

Lemma error_redirect_after_leaving_witness :
  exists p, run_events code_params [EvEffect; EvNavigate "/about"; EvAnswer (Exc (AxiosError None None "Network Error"))]
              (page_init demo_w) = Some p /\
            pg_mounted p = false /\ cb_status_of (pg_state p) = Loading /\
            w_history (pg_world p) = w_history demo_w ++ ["/about"; login_error_url generic_error_message]%string.
Proof.
  exact (error_redirect_after_leaving code_params "abc123" (AxiosError None None "Network Error")
           demo_w "/about" eq_refl eq_refl).
Defined.
