(* ===== verification/StrictMode.v ===== *)
(** * The callback page when React runs its effect more than once

    [CallbackPage] runs the page's effect once, as a production build
    does.  A development build of the App Router renders under React's
    strict mode, which mounts every component twice on its first render:
    the effect runs, its cleanup runs (the page returns none), and the
    effect runs again, all before the event loop takes over.  The page
    keeps no flag that would stop the second run, so two
    [processCallback]s are in flight at once, each up to its [await].

    This file generalizes the page to [effect_runs] runs of the effect
    ([sm_step]): the exchanges in flight are a list ([sm_pending]), and
    an answer names the exchange it settles.  With one run the model is
    the page of [CallbackPage] ([strict_one_run_refines]); with [n] runs
    at most [n] requests leave ([effect_runs_requests]); with two runs a
    success can be followed by the failure of the second exchange of the
    same code, and the page ends in error after storing the session
    ([strict_mode_success_then_error]). *)

From Stdlib Require Import String Ascii.
From stdpp Require Import base gmap strings list.
From S2P Require Import Prelude Browser UrlCodec Http Session OAuthCallback CallbackPage.

(** ** The page with several runs of its effect *)

Record sm_page : Type := mk_smpage {
  sm_world : world;
  sm_state : cb_state;
  sm_mounted : bool;
  sm_started : bool;          (** the effect has run (all its runs) *)
  sm_pending : list string    (** the codes whose exchange is in flight, in order *)
}.

Inductive sm_event : Type :=
| SmEffect                                          (** React runs the effect after the first render *)
| SmAnswer (i : nat) (r : outcome js_error auth_response) (** the [i]-th exchange in flight settles *)
| SmNavigate (path : string)
| SmTimers.

Definition sm_init (w : world) : sm_page := mk_smpage w cb_init true false [].

Section StrictSteps.
Context `{ApiErrorHandler} (params : list (string * string)) (effect_runs : nat).

(** The runs of the effect, one after the other, each up to its [await]:
    the world and hooks after them, and the codes they sent. *)
Fixpoint start_runs (n : nat) (w : world) (s : cb_state) : world * cb_state * list string :=
  match n with
  | 0 => (w, s, [])
  | S n' =>
      let '(r, (w1, s1)) := callback_start params (w, s) in
      let '(w2, s2, cs) := start_runs n' w1 s1 in
      (w2, s2, match r with Ok (Some c) => c :: cs | _ => cs end)
  end.

Definition sm_step (e : sm_event) (p : sm_page) : option sm_page :=
  match e with
  | SmEffect =>
      if sm_mounted p && negb (sm_started p) then
        let '(w', s', cs) := start_runs effect_runs (sm_world p) (sm_state p) in
        Some (mk_smpage w' s' true true (sm_pending p ++ cs))
      else None
  | SmAnswer i r =>
      match sm_pending p !! i with
      | Some _ =>
          let '(w', s') := final (callback_settle r) (sm_world p, sm_state p) in
          Some (mk_smpage w' (if sm_mounted p then s' else sm_state p) (sm_mounted p)
                          (sm_started p) (delete i (sm_pending p)))
      | None => None
      end
  | SmNavigate q =>
      Some (mk_smpage (add_history q (sm_world p)) (sm_state p) false (sm_started p) (sm_pending p))
  | SmTimers =>
      Some (mk_smpage (run_timers (sm_world p)) (sm_state p) (sm_mounted p) (sm_started p) (sm_pending p))
  end.

Fixpoint sm_run (es : list sm_event) (p : sm_page) : option sm_page :=
  match es with
  | [] => Some p
  | e :: es' => p' ← sm_step e p; sm_run es' p'
  end.

Inductive sm_reachable (w0 : world) : sm_page -> Prop :=
| sm_reach_init : sm_reachable w0 (sm_init w0)
| sm_reach_step p e p' : sm_reachable w0 p -> sm_step e p = Some p' -> sm_reachable w0 p'.
End StrictSteps.

(** ** One run is the page of [CallbackPage] *)

(** The page the general model stands for when the effect runs once. *)
Definition to_page (p : sm_page) : cb_page :=
  mk_cbpage (sm_world p) (sm_state p) (sm_mounted p)
    (if sm_started p then match sm_pending p with c :: _ => Awaiting c | [] => Finished end
     else NotStarted).

Definition to_event (e : sm_event) : page_event :=
  match e with
  | SmEffect => EvEffect
  | SmAnswer _ r => EvAnswer r
  | SmNavigate q => EvNavigate q
  | SmTimers => EvTimers
  end.

(** With one run: nothing is in flight before the effect, at most one
    exchange after it. *)
Definition one_run_inv (p : sm_page) : Prop :=
  (sm_started p = false -> sm_pending p = []) /\ length (sm_pending p) <= 1.

Section OneRun.
Context `{ApiErrorHandler} (params : list (string * string)).

Lemma start_runs_one w s :
  start_runs params 1 w s =
    let '(r, (w1, s1)) := callback_start params (w, s) in
    (w1, s1, match r with Ok (Some c) => [c] | _ => [] end).
Proof. simpl. destruct (callback_start params (w, s)) as [[[c|]|e] [w1 s1]]; reflexivity. Qed.

Lemma one_run_step_sim e p p' :
  one_run_inv p -> sm_step params 1 e p = Some p' ->
  page_step params (to_event e) (to_page p) = Some (to_page p') /\ one_run_inv p'.
Proof.
  intros [Hns Hlen] Hstep. destruct e as [|i r|q|]; simpl in Hstep.
  - destruct (sm_mounted p) eqn:Hm, (sm_started p) eqn:Hs; simpl in Hstep; try discriminate.
    rewrite (Hns eq_refl) in Hstep.
    unfold to_page; simpl; rewrite Hm, Hs.
    destruct (callback_start params _) as [[[c|]|err] [w1 s1]]; simplify_eq/=;
      split; try done; split; simpl; try done; lia.
  - destruct (sm_pending p !! i) as [c|] eqn:Hi; [|discriminate].
    destruct (sm_pending p) as [|c0 [|c1 cs]] eqn:Hp; simpl in Hlen; [done| |lia].
    destruct i as [|i]; [|by destruct i]. simplify_eq/=.
    unfold to_page; simpl. rewrite Hp.
    destruct (sm_started p) eqn:Hs; [|by specialize (Hns eq_refl)].
    unfold final in *. destruct (callback_settle r _) as [o [w' s']]. simplify_eq/=.
    split; [done|]. split; simpl; [done|lia].
  - simplify_eq/=. split; [done|]. split; done.
  - simplify_eq/=. split; [done|]. split; done.
Qed.

Lemma one_run_step_back p q e :
  one_run_inv p -> page_step params e (to_page p) = Some q ->
  exists e' p', sm_step params 1 e' p = Some p' /\ to_page p' = q.
Proof.
  intros [Hns Hlen] Hstep. destruct e as [|r|path|].
  - exists SmEffect. unfold to_page in Hstep; simpl in Hstep.
    destruct (sm_started p) eqn:Hs; [by destruct (sm_pending p)|].
    destruct (sm_mounted p) eqn:Hm; [|discriminate]. simpl. rewrite Hm, Hs.
    rewrite (Hns eq_refl).
    destruct (callback_start params _) as [[[c|]|err] [w1 s1]]; simplify_eq/=; eexists; done.
  - exists (SmAnswer 0 r). unfold to_page in Hstep; simpl in Hstep.
    destruct (sm_started p) eqn:Hs; [|discriminate].
    destruct (sm_pending p) as [|c [|c1 cs]] eqn:Hp; simpl in Hlen; [discriminate| |lia].
    simpl. rewrite Hp. simpl. unfold final in *.
    destruct (callback_settle r _) as [o [w' s']]. simplify_eq/=. eexists. split; [done|].
    unfold to_page. simpl. by rewrite Hs.
  - exists (SmNavigate path). simpl in *. simplify_eq. by eexists.
  - exists SmTimers. simpl in *. simplify_eq. by eexists.
Qed.

Lemma one_run_reachable_inv w0 p : sm_reachable params 1 w0 p -> one_run_inv p.
Proof.
  induction 1 as [|p e p' _ IH Hs]; [split; simpl; [done|lia]|].
  exact (proj2 (one_run_step_sim e p p' IH Hs)).
Qed.
End OneRun.

(** ** What the runs send *)

Section Runs.
Context `{ApiErrorHandler} (params : list (string * string)).

Lemma callback_start_sent w s :
  let '(r, (w', _)) := callback_start params (w, s) in
  w_sent w' = w_sent w ++ match r with Ok (Some c) => [exchange_request c] | _ => [] end.
Proof.
  unfold callback_start. destruct (error_signalled params); [cbn; by rewrite app_nil_r|].
  destruct (as_truthy _); [done|]. cbn. by rewrite app_nil_r.
Qed.

(** [n] runs send one exchange per code they found, at most [n]. *)
Lemma start_runs_sent n w s :
  let '(w', _, cs) := start_runs params n w s in
  w_sent w' = w_sent w ++ map exchange_request cs /\ length cs <= n.
Proof.
  revert w s. induction n as [|n IH]; intros w s; simpl; [by rewrite app_nil_r|].
  pose proof (callback_start_sent w s) as Hs.
  destruct (callback_start params (w, s)) as [r [w1 s1]].
  specialize (IH w1 s1). destruct (start_runs params n w1 s1) as [[w2 s2] cs].
  destruct IH as [IH Hl]. rewrite IH, Hs.
  destruct r as [[c|]|e]; simpl; rewrite ?app_nil_r, <- ?app_assoc; split; simpl; auto with lia.
Qed.

(** On the code path every run sends the exchange of the same code. *)
Lemma start_runs_code n c w s :
  error_signalled params = false -> as_truthy (search_get params "code") = Some c ->
  start_runs params n w s = (Nat.iter n (add_sent (exchange_request c)) w, s, replicate n c).
Proof.
  intros He Hc. revert w. induction n as [|n IH]; intros w; [done|]. simpl.
  rewrite (callback_start_code params c) by done. rewrite IH.
  by rewrite <- Nat.iter_succ_r.
Qed.

Lemma iter_add_sent n rq w :
  w_sent (Nat.iter n (add_sent rq) w) = w_sent w ++ replicate n rq.
Proof.
  induction n as [|n IH]; simpl; [by rewrite app_nil_r|]. rewrite IH, <- app_assoc.
  f_equal. by rewrite replicate_cons_app.
Qed.

(** The requests sent so far: none before the effect, at most [n] after. *)
Definition sent_inv (n : nat) (w0 : world) (p : sm_page) : Prop :=
  exists extra, w_sent (sm_world p) = w_sent w0 ++ extra /\
                length extra <= (if sm_started p then n else 0).

Lemma sm_step_sent_inv n w0 e p p' :
  sent_inv n w0 p -> sm_step params n e p = Some p' -> sent_inv n w0 p'.
Proof.
  intros (extra & Hw & Hl) Hstep. destruct e as [|i r|q|]; simpl in Hstep.
  - destruct (sm_mounted p), (sm_started p) eqn:Hs; simpl in Hstep; try discriminate.
    pose proof (start_runs_sent n (sm_world p) (sm_state p)) as Hr.
    destruct (start_runs params n _ _) as [[w' s'] cs]. simplify_eq/=.
    destruct extra; simpl in Hl; [|lia]. destruct Hr as [Hr Hn].
    exists (map exchange_request cs). simpl. rewrite Hr, Hw, app_nil_r, length_map. done.
  - destruct (sm_pending p !! i); [|discriminate].
    pose proof (callback_settle_sent r (sm_world p) (sm_state p)) as Hs.
    unfold final in *. destruct (callback_settle r _) as [o [w' s']]. simplify_eq/=.
    exists extra. simpl. by rewrite Hs, Hw.
  - simplify_eq/=. by exists extra.
  - simplify_eq. exists extra. cbn [sm_world sm_started]. by rewrite run_timers_sent, Hw.
Qed.

Lemma callback_settle_success r d w s :
  is_success r = Some d -> writes_fit (w_quota w) (w_storage w) (session_writes d) = true ->
  let m := or_default (message r) "Authentication successful!" in
  final (callback_settle (Ok r)) (w, s) =
    (set_timers (w_timers w ++ [(1500, "/"%string)])
       (add_toast (ToastSuccess m) (set_storage (apply_writes (session_writes d) (w_storage w)) w)),
     mk_cb Succeeded m).
Proof.
  intros Hd Hfit. unfold final, callback_settle, try_catch, mbind at 1. simpl.
  unfold on_exchange_response. rewrite Hd. unfold mbind at 1, browser at 1, lift_fst at 1.
  rewrite persist_session_set_items, (set_items_fit _ w Hfit). reflexivity.
Qed.

Lemma callback_settle_error e w s :
  let m := or_default (ae_message (apiErrorHandler e)) "Failed to complete authentication" in
  final (callback_settle (Exc e)) (w, s) =
    (add_history (login_error_url m) (add_toast (ToastError m) (add_console e w)), mk_cb Failed m).
Proof. reflexivity. Qed.
End Runs.

(** ** The claims *)

Section StrictClaims.
Context `{ApiErrorHandler} (params : list (string * string)).

(** Refinement: with the effect run once, as in a production build,
    the general page and the page of [CallbackPage] reach the same states:
    every reachable state of the one maps to a reachable state of the
    other, and every reachable state of the page is the image of one. *)
Theorem strict_one_run_refines w0 :
  (forall p, sm_reachable params 1 w0 p -> CallbackPage.reachable params w0 (to_page p)) /\
  (forall q, CallbackPage.reachable params w0 q -> exists p, sm_reachable params 1 w0 p /\ to_page p = q).
Proof.
  split.
  - induction 1 as [|p e p' Hr IH Hs]; [apply reach_init|].
    eapply reach_step; [exact IH|].
    exact (proj1 (one_run_step_sim params e p p' (one_run_reachable_inv params w0 p Hr) Hs)).
  - induction 1 as [|q e q' Hr IH Hs]; [exists (sm_init w0); split; [constructor|done]|].
    destruct IH as (p & Hp & <-).
    destruct (one_run_step_back params p q' e (one_run_reachable_inv params w0 p Hp) Hs)
      as (e' & p' & Hs' & <-).
    exists p'. split; [econstructor; eauto|done].
Qed.

(** C12 Requests: with the effect run [n] times, a page sends at most [n]
    requests in its whole life; on the code path the effect sends [n]
    exchanges of the same code at once, all in flight together. *)
Theorem effect_runs_requests n w0 :
  (forall p, sm_reachable params n w0 p ->
     exists extra, w_sent (sm_world p) = w_sent w0 ++ extra /\ length extra <= n) /\
  (forall c, error_signalled params = false -> as_truthy (search_get params "code") = Some c ->
     exists p, sm_step params n SmEffect (sm_init w0) = Some p /\
               w_sent (sm_world p) = w_sent w0 ++ replicate n (exchange_request c) /\
               sm_pending p = replicate n c).
Proof.
  split.
  - intros p Hr. assert (Hinv : sent_inv n w0 p).
    { induction Hr as [|p e p' _ IH Hs]; [exists []; split; [by rewrite app_nil_r|simpl; lia]|].
      by eapply sm_step_sent_inv. }
    destruct Hinv as (extra & Hw & Hl). exists extra. split; [done|]. destruct (sm_started p); lia.
  - intros c He Hc. simpl. rewrite (start_runs_code params n c) by done.
    eexists. split; [reflexivity|]. split; [apply iter_add_sent|done].
Qed.

(** C11 Strict mode breaks the page's single transition: with the effect
    run twice, when the first exchange succeeds and the second exchange
    of the same (already used) code fails, the page stores the session
    and shows the success toast, then turns to the error view, shows the
    error toast and pushes [/login?error=<message>], while the success
    timer to [/] is still pending. *)
Theorem strict_mode_success_then_error c r d e w :
  error_signalled params = false -> as_truthy (search_get params "code") = Some c ->
  is_success r = Some d -> writes_fit (w_quota w) (w_storage w) (session_writes d) = true ->
  let ms := or_default (message r) "Authentication successful!" in
  let me := or_default (ae_message (apiErrorHandler e)) "Failed to complete authentication" in
  exists p, sm_run params 2 [SmEffect; SmAnswer 0 (Ok r); SmAnswer 0 (Exc e)] (sm_init w) = Some p /\
    w_sent (sm_world p) = w_sent w ++ [exchange_request c; exchange_request c] /\
    w_storage (sm_world p) = apply_writes (session_writes d) (w_storage w) /\
    sm_state p = mk_cb Failed me /\
    w_toasts (sm_world p) = w_toasts w ++ [ToastSuccess ms; ToastError me] /\
    w_history (sm_world p) = w_history w ++ [login_error_url me] /\
    w_timers (sm_world p) = w_timers w ++ [(1500, "/"%string)].
Proof.
  intros He Hc Hd Hfit ms me. cbn -[start_runs callback_settle].
  rewrite (start_runs_code params 2 c) by done. cbn -[callback_settle].
  rewrite (callback_settle_success r d) by done. cbn -[callback_settle].
  rewrite callback_settle_error. cbn.
  eexists. split; [reflexivity|]. simpl. by rewrite <- !app_assoc.
Qed.
End StrictClaims.

(** ** Witnesses *)

Lemma strict_one_run_refines_witness :
  exists p, sm_step code_params 1 SmEffect (sm_init demo_w) = Some p /\
            CallbackPage.reachable code_params demo_w (to_page p).
Proof.
  eexists. split; [reflexivity|].
  apply (proj1 (strict_one_run_refines code_params demo_w)).
  eapply sm_reach_step with (e := SmEffect); [apply sm_reach_init|reflexivity].
Defined.

Lemma effect_runs_requests_witness :
  exists p, sm_step code_params 2 SmEffect (sm_init demo_w) = Some p /\
            w_sent (sm_world p) = w_sent demo_w ++ replicate 2 (exchange_request "abc123") /\
            sm_pending p = replicate 2 "abc123"%string.
Proof. apply (proj2 (effect_runs_requests code_params 2 demo_w) "abc123"); reflexivity. Defined.

(** The backend accepts the code once and rejects its second use. *)
Definition strict_success : auth_response :=
  mk_auth_response "success" (Some "Welcome") (Some (mk_auth_data (Some (mk_tokens "at" "rt")) (Some demo_user))).

Definition code_reused : js_error :=
  AxiosError (Some 400%Z) (Some "Invalid or expired code") "Request failed with status code 400".

Lemma strict_mode_success_then_error_witness :
  exists p, sm_run code_params 2 [SmEffect; SmAnswer 0 (Ok strict_success); SmAnswer 0 (Exc code_reused)]
              (sm_init demo_w) = Some p /\
    sm_state p = mk_cb Failed "Invalid or expired code" /\
    w_toasts (sm_world p) = [ToastSuccess "Welcome"; ToastError "Invalid or expired code"] /\
    w_history (sm_world p) = [login_error_url "Invalid or expired code"].
Proof.
  destruct (strict_mode_success_then_error code_params "abc123" strict_success
              (mk_auth_data (Some (mk_tokens "at" "rt")) (Some demo_user)) code_reused demo_w)
    as (p & Hrun & _ & _ & Hs & Ht & Hh & _); [reflexivity|reflexivity|reflexivity|vm_compute; reflexivity|].
  exists p. split_and!; [exact Hrun|exact Hs|exact Ht|exact Hh].
Defined.
