(* ===== verification/OAuthButtons.v ===== *)
(** * The OAuth buttons ([src/components/auth/oauth-buttons.tsx])

    The component keeps [loadingProvider] (the provider whose redirect is
    starting, if any) and [error]; its props are an optional external
    loading flag and an optional [onProviderClick] callback.  A click runs
    [handleOAuthClick]: ignored while anything is loading, otherwise it
    marks the provider as loading, calls the callback and [initiateOAuth];
    a synchronous throw resets the loading flag and shows the message
    inline and as a toast.  The render is a function of the props and the
    state. *)

From Stdlib Require Import String Ascii.
From stdpp Require Import base strings list.
From S2P Require Import Prelude Browser Http.

(** ** State and props *)

Record buttons_state : Type := mk_buttons {
  loadingProvider : option provider;
  error : option string
}.

(** [useState<OAuthProvider | null>(null)], [useState<string | null>(null)] *)
Definition buttons_init : buttons_state := mk_buttons None None.

Record buttons_props : Type := mk_props {
  externalLoading : option bool;
  onProviderClick : option (provider -> JS unit)
}.

Abbreviation Buttons := (M (world * buttons_state) js_error).

Definition setLoadingProvider (p : option provider) : Buttons unit :=
  lift_snd (mmodify (fun st => mk_buttons p (error st))).

Definition setError (e : option string) : Buttons unit :=
  lift_snd (mmodify (fun st => mk_buttons (loadingProvider st) e)).

(** [externalLoading || loadingProvider !== null]: a provider name is a
    non-empty string, so [loadingProvider] is truthy exactly when it is
    set. *)
Definition isLoading (props : buttons_props) (st : buttons_state) : bool :=
  bool_decide (externalLoading props = Some true) || bool_decide (loadingProvider st <> None).

(** [err instanceof Error ? err.message : "Failed to initiate OAuth"] *)
Definition click_error_message (err : js_error) : string :=
  if is_error_instance err then error_message err else "Failed to initiate OAuth".

(** ** [handleOAuthClick] *)

Definition handleOAuthClick `{OAuthEnv} (props : buttons_props) (p : provider) : Buttons unit :=
  s <- lift_snd mget ;;
  if isLoading props s then mret tt
  else
    try_catch
      (setLoadingProvider (Some p) ;;
       setError None ;;
       (match onProviderClick props with
        | Some f => lift_fst (f p)
        | None => mret tt
        end) ;;
       lift_fst (initiateOAuth p))
      (fun err =>
         setError (Some (click_error_message err)) ;;
         setLoadingProvider None ;;
         lift_fst (toast_error (click_error_message err))).

(** ** The render *)

Record button_view : Type := mk_button_view {
  bv_disabled : bool;
  bv_spinner : bool;
  bv_label : string
}.

Record buttons_view : Type := mk_buttons_view {
  banner : option string;          (** [{error && <div>...{error}</div>}] *)
  google_button : button_view;
  github_button : button_view
}.

Definition render_button (props : buttons_props) (st : buttons_state) (p : provider) (idle_label : string) : button_view :=
  let spinning := bool_decide (loadingProvider st = Some p) in
  mk_button_view (isLoading props st) spinning (if spinning then "Connecting..." else idle_label).

Definition render_buttons (props : buttons_props) (st : buttons_state) : buttons_view :=
  mk_buttons_view (as_truthy (error st))
    (render_button props st google "Continue with Google")
    (render_button props st github "Continue with GitHub").

(** ** What a click does *)

(** The part of the [try] block that acts on the browser: the parent's
    callback, then the redirect. *)
Definition start_redirect `{OAuthEnv} (props : buttons_props) (p : provider) : JS unit :=
  (match onProviderClick props with
   | Some f => f p
   | None => mret tt
   end) ;;
  initiateOAuth p.

Section Click.
Context `{OAuthEnv}.

(** The click splits into the browser part and the hooks' updates. *)
Lemma handleOAuthClick_run props p w st :
  isLoading props st = false ->
  handleOAuthClick props p (w, st) =
    match start_redirect props p w with
    | (Ok _, w1) => (Ok tt, (w1, mk_buttons (Some p) None))
    | (Exc e, w1) =>
        (Ok tt, (add_toast (ToastError (click_error_message e)) w1,
                 mk_buttons None (Some (click_error_message e))))
    end.
Proof.
  intros Hl. unfold handleOAuthClick, start_redirect. js_run. rewrite Hl. js_run.
  destruct (onProviderClick props) as [f|]; js_run;
    [destruct (f p w) as [[[]|e] w1]; js_run|];
    unfold initiateOAuth; destruct (initiation_failure p); js_run; done.
Qed.

(** C19 The idempotent guard: a click while the external flag is set or a
    provider is loading changes nothing: no callback, no initiation, no
    state update. *)
Theorem handleOAuthClick_ignored props p w st :
  isLoading props st = true -> handleOAuthClick props p (w, st) = (Ok tt, (w, st)).
Proof. intros Hl. unfold handleOAuthClick. js_run. by rewrite Hl. Qed.

(** C21 A click that passes the guard marks its provider as loading and
    clears the error; if the callback or [initiateOAuth] throws, the
    loading flag is reset, and the error's message (or the default for a
    non-[Error] value) is shown inline and in an error toast. *)
Theorem handleOAuthClick_outcome props p w st :
  isLoading props st = false ->
  (forall w1, start_redirect props p w = (Ok tt, w1) ->
     handleOAuthClick props p (w, st) = (Ok tt, (w1, mk_buttons (Some p) None))) /\
  (forall e w1, start_redirect props p w = (Exc e, w1) ->
     handleOAuthClick props p (w, st) =
       (Ok tt, (add_toast (ToastError (click_error_message e)) w1,
                mk_buttons None (Some (click_error_message e))))).
Proof.
  intros Hl. rewrite handleOAuthClick_run by done.
  split; [intros w1 ->| intros e w1 ->]; done.
Qed.
End Click.

(** ** Sequences of clicks *)

(** Clicks handled one after the other (React re-renders between two
    discrete events, so each click sees the state the previous one left). *)
Fixpoint run_clicks `{OAuthEnv} (props : buttons_props) (ps : list provider)
    (ws : world * buttons_state) : world * buttons_state :=
  match ps with
  | [] => ws
  | p :: ps' => run_clicks props ps' (final (handleOAuthClick props p) ws)
  end.

(** A parent whose [onProviderClick] records each call as a navigation. *)
Definition recording_props (ext : option bool) (tag : provider -> string) : buttons_props :=
  mk_props ext (Some (fun p => push (tag p))).

Section Clicks.
Context `{OAuthEnv}.

(** Once a provider is loading, every further click is ignored. *)
Lemma run_clicks_while_loading props ps w st p0 :
  loadingProvider st = Some p0 -> run_clicks props ps (w, st) = (w, st).
Proof.
  intros Hp. induction ps as [|p ps IH]; [done|]. simpl.
  assert (Hl : isLoading props st = true).
  { unfold isLoading. rewrite Hp. by rewrite orb_true_r. }
  unfold final at 1. by rewrite handleOAuthClick_ignored.
Qed.

(** C20 Specification, section 8: when the redirect starts without a
    synchronous error, a sequence of clicks on either button, in any
    order, calls the parent's [onProviderClick] at most once, so at most
    one redirect starts: with a parent that records each call as a
    navigation, the history gains at most one entry. *)
Theorem run_clicks_at_most_one_start ext tag ps w st :
  (forall p, initiation_failure p = None) ->
  exists extra, w_history (run_clicks (recording_props ext tag) ps (w, st)).1 = w_history w ++ extra /\
                length extra <= 1.
Proof.
  intros Hok. revert w st. induction ps as [|p ps IH]; intros w st.
  { exists []. rewrite app_nil_r. simpl. split; [done|lia]. }
  simpl. unfold final at 1. destruct (isLoading (recording_props ext tag) st) eqn:Hl.
  - rewrite handleOAuthClick_ignored by done. apply IH.
  - rewrite handleOAuthClick_run by done.
    unfold start_redirect, initiateOAuth. simpl. rewrite Hok. simpl.
    rewrite (run_clicks_while_loading _ ps _ _ p) by done. simpl.
    exists [tag p]. split; [done|simpl; lia].
Qed.

(** ** The render after a click *)

(** C33 The render follows the click: after a click past the guard whose
    redirect starts, both buttons are disabled and only the clicked
    provider's button shows the spinner and "Connecting...", the other
    its own label; when the redirect throws, no button spins, both show
    their labels, they are enabled unless the parent's flag is set, and
    the error message is shown inline when it is not empty. *)
Theorem render_after_click props p w st :
  isLoading props st = false ->
  (forall w1, start_redirect props p w = (Ok tt, w1) ->
     let v := render_buttons props (snd (final (handleOAuthClick props p) (w, st))) in
     bv_disabled (google_button v) = true /\ bv_disabled (github_button v) = true /\
     bv_spinner (google_button v) = bool_decide (p = google) /\
     bv_spinner (github_button v) = bool_decide (p = github) /\
     bv_label (google_button v) = (if bool_decide (p = google) then "Connecting..." else "Continue with Google")%string /\
     bv_label (github_button v) = (if bool_decide (p = github) then "Connecting..." else "Continue with GitHub")%string /\
     banner v = None) /\
  (forall e w1, start_redirect props p w = (Exc e, w1) ->
     let v := render_buttons props (snd (final (handleOAuthClick props p) (w, st))) in
     bv_disabled (google_button v) = bool_decide (externalLoading props = Some true) /\
     bv_disabled (github_button v) = bool_decide (externalLoading props = Some true) /\
     bv_spinner (google_button v) = false /\ bv_spinner (github_button v) = false /\
     bv_label (google_button v) = "Continue with Google"%string /\
     bv_label (github_button v) = "Continue with GitHub"%string /\
     banner v = as_truthy (Some (click_error_message e))).
Proof.
  intros Hl. unfold final. rewrite handleOAuthClick_run by done.
  split; [intros w1 ->|intros e w1 ->]; unfold render_buttons, render_button, isLoading; simpl;
    rewrite ?orb_true_r, ?orb_false_r; destruct p; split_and!; done.
Qed.
End Clicks.

(** ** Witnesses *)

(** A redirect that always starts, and one that always throws. *)
Definition ok_env : OAuthEnv := fun _ => None.
Definition failing_env : OAuthEnv := fun _ => Some (PlainError "OAuth is not configured").

Definition no_props : buttons_props := mk_props None None.

Definition w0 : world := mk_world ∅ 1000 [] [] None [] [] [].

Lemma handleOAuthClick_ignored_witness :
  isLoading no_props (mk_buttons (Some google) None) = true /\
  @handleOAuthClick ok_env no_props github (w0, mk_buttons (Some google) None) =
    (Ok tt, (w0, mk_buttons (Some google) None)).
Proof.
  split; [reflexivity|]. by apply (@handleOAuthClick_ignored ok_env).
Defined.

Lemma handleOAuthClick_outcome_witness :
  isLoading no_props buttons_init = false /\
  @handleOAuthClick failing_env no_props google (w0, buttons_init) =
    (Ok tt, (add_toast (ToastError "OAuth is not configured") w0,
             mk_buttons None (Some "OAuth is not configured"%string))).
Proof.
  split; [reflexivity|].
  apply (proj2 (@handleOAuthClick_outcome failing_env no_props google w0 buttons_init eq_refl)
           (PlainError "OAuth is not configured") w0).
  reflexivity.
Defined.

Lemma run_clicks_at_most_one_start_witness :
  exists extra,
    w_history (@run_clicks ok_env (recording_props None provider_name) [google; github; google]
                 (w0, buttons_init)).1 = w_history w0 ++ extra /\ length extra <= 1.
Proof. apply (@run_clicks_at_most_one_start ok_env). done. Defined.

Lemma render_after_click_witness :
  bv_spinner (google_button (render_buttons no_props
     (snd (final (@handleOAuthClick ok_env no_props google) (w0, buttons_init))))) = true /\
  banner (render_buttons no_props
     (snd (final (@handleOAuthClick failing_env no_props github) (w0, buttons_init)))) =
    Some "OAuth is not configured"%string.
Proof.
  split.
  - destruct (proj1 (@render_after_click ok_env no_props google w0 buttons_init eq_refl) _ eq_refl)
      as (_ & _ & Hs & _).
    etransitivity; [exact Hs|reflexivity].
  - destruct (proj2 (@render_after_click failing_env no_props github w0 buttons_init eq_refl)
                (PlainError "OAuth is not configured") w0 eq_refl) as (_ & _ & _ & _ & _ & _ & Hb).
    etransitivity; [exact Hb|reflexivity].
Defined.
