(* ===== verification/LoginForm.v ===== *)
(** * The login form ([src/components/auth/login-form.tsx])

    The form keeps its field values and [isSubmitting] (react-hook-form)
    and a presentation flag [showPassword].  Submitting runs
    [form.handleSubmit(onSubmit)]: validation by the zod schema
    [loginValidator] (not in the repository: a parameter here), then
    [onSubmit], which calls [loginService], stores the session, notifies,
    navigates to [/] and resets the fields on success, and shows an error
    toast when anything throws.  The submit button is disabled while a
    submission is in flight; the event-level model [form_step] makes the
    [await] explicit, so that other events can happen while the request
    is pending. *)

From Stdlib Require Import String Ascii.
From stdpp Require Import base gmap strings list.
From S2P Require Import Prelude Browser Http Session.

(** ** State *)

Record form_state : Type := mk_form {
  values : login_schema;
  isSubmitting : bool;
  showPassword : bool
}.

(** [defaultValues: { email: "", password: "" }] *)
Definition default_values : login_schema := mk_login "" "".

(** [useState(false)] and [useForm] before any input. *)
Definition form_init : form_state := mk_form default_values false false.

Abbreviation Form := (M (world * form_state) js_error).

(** [form.reset()]: the fields go back to their default values. *)
Definition form_reset : Form unit :=
  lift_snd (mmodify (fun st => mk_form default_values (isSubmitting st) (showPassword st))).

Definition setSubmitting (b : bool) : Form unit :=
  lift_snd (mmodify (fun st => mk_form (values st) b (showPassword st))).

(** ** [onSubmit] *)

Section Submit.
Context `{Backend} `{ApiErrorHandler}.

(** The body of the [try] block once the response is known. *)
Definition on_login_response (response : auth_response) : Form unit :=
  match is_success response with
  | Some d =>
      lift_fst (persist_session d) ;;
      lift_fst (toast_success (or_default (message response) "Login successful")) ;;
      lift_fst (push "/") ;;
      form_reset
  | None => mret tt
  end.

(** [toast.error(apiErrorHandler(error).message ?? "Unknown error"); return;] *)
Definition on_login_error (e : js_error) : Form unit :=
  lift_fst (toast_error (nullish (ae_message (apiErrorHandler e)) "Unknown error")).

Definition onSubmit (vals : login_schema) : Form unit :=
  try_catch
    (response <- lift_fst (loginService vals) ;;
     on_login_response response)
    on_login_error.

(** [form.handleSubmit(onSubmit)] for one submit event: the resolver
    validates the current values; [onSubmit] runs only on valid ones,
    with [isSubmitting] set for its duration. *)
Definition handleSubmit (valid : login_schema -> bool) : Form unit :=
  s <- lift_snd mget ;;
  setSubmitting true ;;
  (if valid (values s) then onSubmit (values s) else mret tt) ;;
  setSubmitting false.

(** ** The [await] made explicit *)

(** What [onSubmit] does once the login request has settled with [r]:
    [loginService] logs and rethrows a failure, which [onSubmit] catches. *)
Definition settle_login (r : outcome js_error auth_response) : Form unit :=
  try_catch
    (response <- lift_fst (settle_logged r) ;;
     on_login_response response)
    on_login_error.
End Submit.

(** ** The render *)

Record form_view : Type := mk_form_view {
  email_field : string;
  password_field : string;
  password_input_type : string;     (** ["text"] or ["password"] *)
  submit_disabled : bool;
  submit_label : string;            (** ["Logging in..."] with a spinner, or ["Login"] *)
  signup_href : string;
  oauth_buttons_have_handler : bool (** the Google/GitHub buttons of this form *)
}.

Definition render_form (st : form_state) : form_view :=
  mk_form_view (email (values st)) (password (values st))
    (if showPassword st then "text" else "password")
    (isSubmitting st)
    (if isSubmitting st then "Logging in..." else "Login")
    "/signup"
    false.

(** The eye button: [setShowPassword(!showPassword)]. *)
Definition toggle_password (st : form_state) : form_state :=
  mk_form (values st) (isSubmitting st) (negb (showPassword st)).

(** ** [onSubmit] on each answer *)

Definition login_request (v : login_schema) : request := spec_request (CallLogin v).

Section SubmitTheorems.
Context `{Backend} `{ApiErrorHandler}.

Lemma lift_fst_loginService v w (st : form_state) :
  lift_fst (loginService v) (w, st) =
    lift_fst (settle_logged (backend_respond (login_request v))) (add_sent (login_request v) w, st).
Proof.
  unfold lift_fst. change (loginService v w) with (logged (api_request (login_request v)) w).
  by rewrite logged_settle.
Qed.

(** [onSubmit] is the request followed by [settle_login] on the
    backend's answer: the atomic model and the event model (where the
    answer arrives in a later step) agree. *)
Theorem onSubmit_settle v w st :
  onSubmit v (w, st) = settle_login (backend_respond (login_request v)) (add_sent (login_request v) w, st).
Proof.
  unfold onSubmit, settle_login, try_catch, mbind. by rewrite lift_fst_loginService.
Qed.

(** C17 Specification, section 8: a successful login stores the session,
    shows a success toast with the response's message (or "Login
    successful"), navigates to [/] and clears the fields. *)
Theorem onSubmit_success v r d w st :
  backend_respond (login_request v) = Ok r -> is_success r = Some d ->
  writes_fit (w_quota w) (w_storage w) (session_writes d) = true ->
  let m := or_default (message r) "Login successful" in
  onSubmit v (w, st) =
    (Ok tt, (add_history "/" (add_toast (ToastSuccess m)
               (set_storage (apply_writes (session_writes d) (w_storage w)) (add_sent (login_request v) w))),
             mk_form default_values (isSubmitting st) (showPassword st))).
Proof.
  intros Hr Hd Hfit. rewrite onSubmit_settle, Hr.
  unfold settle_login, try_catch, mbind at 1, on_login_response. js_run. rewrite Hd. js_run.
  rewrite persist_session_set_items.
  rewrite (set_items_fit _ (add_sent (login_request v) w) Hfit). reflexivity.
Qed.

(** C18 A failed request (network error or non-2xx answer) is logged,
    reported in an error toast with [apiErrorHandler(error).message ??
    "Unknown error"], and changes nothing else: no storage write, no
    navigation, the fields kept for a retry. *)
Theorem onSubmit_request_error v e w st :
  backend_respond (login_request v) = Exc e ->
  onSubmit v (w, st) =
    (Ok tt, (add_toast (ToastError (nullish (ae_message (apiErrorHandler e)) "Unknown error"))
               (add_console e (add_sent (login_request v) w)), st)).
Proof. intros Hr. rewrite onSubmit_settle, Hr. reflexivity. Qed.

(** C27 An answer that arrives but is not [status = "success"] with [data]
    is ignored: no toast, no navigation, no storage write, the fields
    kept.  The user gets no feedback. *)
Theorem onSubmit_rejected_silent v r w st :
  backend_respond (login_request v) = Ok r -> is_success r = None ->
  onSubmit v (w, st) = (Ok tt, (add_sent (login_request v) w, st)).
Proof.
  intros Hr Hd. rewrite onSubmit_settle, Hr.
  unfold settle_login, try_catch, mbind at 1, on_login_response. js_run. by rewrite Hd.
Qed.
End SubmitTheorems.

(** ** The form as a transition system

    A page state is the browser, the form, and the login request in
    flight, if any.  The user types, toggles the password's visibility,
    or submits (the button is disabled while [isSubmitting]); the pending
    request settles later with any answer. *)

Record form_page : Type := mk_page {
  fp_world : world;
  fp_form : form_state;
  fp_pending : option login_schema
}.

Definition set_email (s : string) (st : form_state) : form_state :=
  mk_form (mk_login s (password (values st))) (isSubmitting st) (showPassword st).

Definition set_password (s : string) (st : form_state) : form_state :=
  mk_form (mk_login (email (values st)) s) (isSubmitting st) (showPassword st).

Definition with_submitting (b : bool) (st : form_state) : form_state :=
  mk_form (values st) b (showPassword st).

Definition page_init (w : world) : form_page := mk_page w form_init None.

Section FormSteps.
Context `{Backend} `{ApiErrorHandler} (valid : login_schema -> bool).

Inductive form_step : form_page -> form_page -> Prop :=
| step_email w st pend s :
    form_step (mk_page w st pend) (mk_page w (set_email s st) pend)
| step_password w st pend s :
    form_step (mk_page w st pend) (mk_page w (set_password s st) pend)
| step_toggle w st pend :
    form_step (mk_page w st pend) (mk_page w (toggle_password st) pend)
| step_submit w st pend :
    isSubmitting st = false -> valid (values st) = true ->
    form_step (mk_page w st pend)
              (mk_page (add_sent (login_request (values st)) w) (with_submitting true st) (Some (values st)))
| step_submit_invalid w st pend :
    isSubmitting st = false -> valid (values st) = false ->
    form_step (mk_page w st pend) (mk_page w st pend)
| step_settle w st v r :
    form_step (mk_page w st (Some v))
              (mk_page (fst (final (settle_login r) (w, st)))
                       (with_submitting false (snd (final (settle_login r) (w, st)))) None).

Inductive reachable (w0 : world) : form_page -> Prop :=
| reach_init : reachable w0 (page_init w0)
| reach_step p p' : reachable w0 p -> form_step p p' -> reachable w0 p'.

(** [isSubmitting] is set exactly while a request is pending, and the
    pending request is the last one sent. *)
Definition form_inv (p : form_page) : Prop :=
  (isSubmitting (fp_form p) = true <-> fp_pending p <> None) /\
  (forall v, fp_pending p = Some v -> last (w_sent (fp_world p)) = Some (login_request v)).

End FormSteps.

Section FormInvariant.
Context `{Backend} `{ApiErrorHandler} (valid : login_schema -> bool).

Lemma form_inv_init w0 : form_inv (page_init w0).
Proof. split; [simpl; split; [done|intros []; done]|done]. Qed.

Lemma form_step_inv p p' : form_inv p -> form_step valid p p' -> form_inv p'.
Proof.
  intros [Hsub Hlast] Hstep. destruct Hstep as [w st pend s|w st pend s|w st pend|w st pend Hs Hv|w st pend Hs Hv|w st v r];
    simpl in *; try (split; done).
  - split; [done|]. intros v' [= <-]. simpl. by rewrite last_snoc.
Qed.

(** The form's invariant holds in every reachable state: the submit
    button is disabled ([isSubmitting]) exactly while a login request is
    pending, and that request is the last one sent. *)
Theorem reachable_form_inv w0 p : reachable valid w0 p -> form_inv p.
Proof.
  induction 1 as [|p p' Hr IH Hstep]; [apply form_inv_init|].
  by eapply form_step_inv.
Qed.

(** C22 Specification, section 4.4: no submission starts while one is in
    flight.  From any reachable state with a pending request, every step
    either keeps that same request pending or settles it. *)
Theorem pending_request_not_replaced w0 p p' v :
  reachable valid w0 p -> fp_pending p = Some v -> form_step valid p p' ->
  fp_pending p' = Some v \/ fp_pending p' = None.
Proof.
  intros Hr Hp Hstep. destruct (reachable_form_inv w0 p Hr) as [[_ Hsub] _].
  assert (Hs : isSubmitting (fp_form p) = true) by (apply Hsub; congruence).
  destruct Hstep; simpl in *; subst; auto; congruence.
Qed.
End FormInvariant.

(** ** [handleSubmit] against the event model *)

Section HandleSubmit.
Context `{Backend} `{ApiErrorHandler} (valid : login_schema -> bool).

(** [onSubmit] catches everything it can throw. *)
Lemma settle_login_returns r w st :
  settle_login r (w, st) = (Ok tt, final (settle_login r) (w, st)).
Proof.
  unfold final, settle_login, try_catch.
  destruct (mbind _ _ (w, st)) as [[[]|e] [w' st']]; reflexivity.
Qed.

(** Refinement: one valid submit handled by react-hook-form's
    [handleSubmit] (set [isSubmitting], await [onSubmit], clear it) ends in
    the state the event model reaches by a [step_submit] followed by the
    [step_settle] that delivers the backend's answer. *)
Theorem handleSubmit_refines_steps w st :
  isSubmitting st = false -> valid (values st) = true ->
  let p1 := mk_page (add_sent (login_request (values st)) w) (with_submitting true st) (Some (values st)) in
  let r := backend_respond (login_request (values st)) in
  let p2 := mk_page (fst (final (settle_login r) (fp_world p1, fp_form p1)))
                    (with_submitting false (snd (final (settle_login r) (fp_world p1, fp_form p1)))) None in
  form_step valid (mk_page w st None) p1 /\ form_step valid p1 p2 /\
  handleSubmit valid (w, st) = (Ok tt, (fp_world p2, fp_form p2)).
Proof.
  intros Hs Hv. split_and!.
  - by apply step_submit.
  - apply step_settle.
  - unfold handleSubmit. js_run. rewrite Hv.
    change (mk_form (values st) true (showPassword st)) with (with_submitting true st).
    rewrite onSubmit_settle, settle_login_returns. unfold final.
    destruct (settle_login _ _) as [o [w2 st2]]. reflexivity.
Qed.
End HandleSubmit.

(** ** Witnesses *)

Definition demo_login : login_schema := mk_login "a@b.c" "secret".

Definition login_ok_response : auth_response :=
  mk_auth_response "success" None (Some (mk_auth_data (Some (mk_tokens "at" "rt")) (Some demo_user))).

(** A backend that accepts [demo_login] only. *)
Definition login_backend : Backend :=
  fun rq => if bool_decide (rq = login_request demo_login) then Ok login_ok_response
            else Exc (AxiosError (Some 401%Z) (Some "Invalid credentials") "Request failed with status code 401").

(** A backend that answers 200 with [status: "error"]. *)
Definition soft_error_backend : Backend :=
  fun rq => Ok (mk_auth_response "error" (Some "Email not verified") None).

Definition lw : world := mk_world ∅ 1000 [] [] None [] [] [].

Definition valid_login (v : login_schema) : bool := negb (String.eqb (email v) "").

Lemma onSubmit_success_witness :
  writes_fit 1000 ∅ (session_writes (mk_auth_data (Some (mk_tokens "at" "rt")) (Some demo_user))) = true /\
  final (@onSubmit login_backend spec_apiErrorHandler demo_login) (lw, mk_form demo_login true false) =
    (add_history "/" (add_toast (ToastSuccess "Login successful")
       (set_storage (apply_writes (session_writes (mk_auth_data (Some (mk_tokens "at" "rt")) (Some demo_user))) ∅)
          (add_sent (login_request demo_login) lw))),
     mk_form default_values true false).
Proof.
  split; [vm_compute; reflexivity|]. unfold final.
  rewrite (@onSubmit_success login_backend spec_apiErrorHandler demo_login login_ok_response
             (mk_auth_data (Some (mk_tokens "at" "rt")) (Some demo_user)) lw (mk_form demo_login true false));
    [reflexivity | reflexivity | reflexivity | vm_compute; reflexivity].
Defined.

Lemma onSubmit_request_error_witness :
  final (@onSubmit login_backend spec_apiErrorHandler (mk_login "a@b.c" "wrong")) (lw, form_init) =
    (add_toast (ToastError "Invalid credentials")
       (add_console (AxiosError (Some 401%Z) (Some "Invalid credentials") "Request failed with status code 401")
          (add_sent (login_request (mk_login "a@b.c" "wrong")) lw)), form_init).
Proof.
  unfold final.
  rewrite (@onSubmit_request_error login_backend spec_apiErrorHandler (mk_login "a@b.c" "wrong")
             (AxiosError (Some 401%Z) (Some "Invalid credentials") "Request failed with status code 401") lw form_init);
    [reflexivity | vm_compute; reflexivity].
Defined.

Lemma onSubmit_rejected_silent_witness :
  is_success (mk_auth_response "error" (Some "Email not verified") None) = None /\
  @onSubmit soft_error_backend spec_apiErrorHandler demo_login (lw, form_init) =
    (Ok tt, (add_sent (login_request demo_login) lw, form_init)).
Proof.
  split; [reflexivity|].
  exact (@onSubmit_rejected_silent soft_error_backend spec_apiErrorHandler demo_login
           (mk_auth_response "error" (Some "Email not verified") None) lw form_init eq_refl eq_refl).
Defined.

(** Typing an address, then submitting: the request is pending. *)
Definition submitted_page : form_page :=
  mk_page (add_sent (login_request (mk_login "a@b.c" "")) lw)
          (with_submitting true (set_email "a@b.c" form_init)) (Some (mk_login "a@b.c" "")).

Lemma submitted_page_reachable :
  @reachable spec_apiErrorHandler valid_login lw submitted_page.
Proof.
  eapply reach_step; [eapply reach_step; [apply reach_init | apply step_email] |].
  apply (step_submit valid_login lw (set_email "a@b.c" form_init) None); reflexivity.
Defined.

Lemma reachable_form_inv_witness : form_inv submitted_page.
Proof. exact (@reachable_form_inv spec_apiErrorHandler valid_login lw _ submitted_page_reachable). Defined.

Lemma pending_request_not_replaced_witness :
  fp_pending (mk_page (fp_world submitted_page) (set_password "x" (fp_form submitted_page)) (fp_pending submitted_page))
    = Some (mk_login "a@b.c" "") \/
  fp_pending (mk_page (fp_world submitted_page) (set_password "x" (fp_form submitted_page)) (fp_pending submitted_page))
    = None.
Proof.
  apply (@pending_request_not_replaced spec_apiErrorHandler valid_login lw submitted_page);
    [exact submitted_page_reachable | reflexivity | apply step_password].
Defined.

Lemma handleSubmit_refines_steps_witness :
  isSubmitting (set_email "a@b.c" form_init) = false /\
  snd (final (@handleSubmit login_backend spec_apiErrorHandler valid_login) (lw, mk_form demo_login false false))
    = mk_form default_values false false.
Proof.
  split; [reflexivity|].
  destruct (@handleSubmit_refines_steps login_backend spec_apiErrorHandler valid_login lw
              (mk_form demo_login false false) eq_refl eq_refl) as (_ & _ & Hrun).
  unfold final. rewrite Hrun. vm_compute. reflexivity.
Defined.
