(* ===== verification/Storage.v ===== *)
(** * What the program does to the browser, handler by handler

    Properties of the whole program are proved here by one method:
    a relation [R] between the browser before and after, reflexive and
    transitive, is kept by a computation ([keeps]) when it relates the
    world before and the world after; [keeps] is closed under the
    monad's combinators, so a handler keeps [R] when the primitives it
    calls do.  The hint database [browser_kept] holds the primitives and
    the tactic [keeps_auto] follows a handler's code.

    - [quota_kept]: [localStorage.setItem] throws [QuotaExceededError]
      rather than store more than the quota allows ([Browser.setItem]),
      so the storage stays within its quota ([world_wf]) in every
      reachable state of the callback page and of the login form; this
      follows from [setItem]'s own check and checks the method itself.
    - [toasts_kept]: every toast shown has a non-empty text; the callback
      page's [||] defaults guarantee it, the login form's [??] only when
      [apiErrorHandler] never returns an empty message, a button click
      only when the redirect throws errors with a message.
    - the two login paths run the same session block: from the same
      answer they leave the same storage. *)

From stdpp Require Import base gmap strings list.
From Stdlib Require Import String Ascii.
From S2P Require Import Prelude Browser UrlCodec Http Session OAuthCallback CallbackPage OAuthButtons LoginForm.

Create HintDb browser_kept discriminated.

(** ** Relations kept by a computation *)

Section Keeps.
Context {S : Type} (proj : S -> world) (R : relation world) `{!PreOrder R}.

Definition keeps {A} (m : M S js_error A) : Prop := forall s, R (proj s) (proj (snd (m s))).

Lemma keeps_mret {A} (a : A) : keeps (mret a).
Proof. intros s. reflexivity. Qed.

Lemma keeps_mthrow {A} (e : js_error) : keeps (@mthrow S js_error A e).
Proof. intros s. reflexivity. Qed.

Lemma keeps_mbind {A B} (m : M S js_error A) (k : A -> M S js_error B) :
  keeps m -> (forall a, keeps (k a)) -> keeps (mbind m k).
Proof.
  intros Hm Hk s. unfold mbind. specialize (Hm s).
  destruct (m s) as [[a|e] s']; [|done]. etrans; [exact Hm|apply Hk].
Qed.

Lemma keeps_try_catch {A} (m : M S js_error A) (h : js_error -> M S js_error A) :
  keeps m -> (forall e, keeps (h e)) -> keeps (try_catch m h).
Proof.
  intros Hm Hh s. unfold try_catch. specialize (Hm s).
  destruct (m s) as [[a|e] s']; [done|]. etrans; [exact Hm|apply Hh].
Qed.
End Keeps.

Section Lift.
Context (R : relation world) `{!PreOrder R}.

Lemma keeps_lift_fst {X A} (m : JS A) : keeps id R m -> keeps (@fst world X) R (lift_fst m).
Proof. intros Hm [w x]. unfold lift_fst. specialize (Hm w). simpl in *. by destruct (m w) as [r w']. Qed.

Lemma keeps_lift_snd {X A} (m : M X js_error A) : keeps (@fst world X) R (lift_snd m).
Proof. intros [w x]. unfold lift_snd. simpl. destruct (m x) as [r x']. simpl. reflexivity. Qed.
End Lift.

#[export] Hint Resolve keeps_mret keeps_mthrow keeps_lift_snd : browser_kept.

(** Follow a handler's code: through binds, [try]/[catch], branches and
    lifts, down to the primitives of the hint database. *)
Ltac keeps_auto :=
  repeat match goal with
  | |- keeps _ _ (mbind _ _) => apply keeps_mbind; [typeclasses eauto| |intros ?]
  | |- keeps _ _ (try_catch _ _) => apply keeps_try_catch; [typeclasses eauto| |intros ?]
  | |- keeps _ _ (lift_fst _) => apply keeps_lift_fst
  | |- keeps _ _ _ => solve [eauto with browser_kept js]
  | |- keeps _ _ _ => case_match
  end.

(** The text of a toast. *)
Definition toast_text (t : toast) : string := match t with ToastSuccess m | ToastError m => m end.

(** ** What a relation must satisfy to be kept by the program

    [ok] says which toast texts the relation admits.  Every primitive of
    [Browser] keeps the relation: the storage only changes through
    [setItem], and a toast only with an admitted text. *)

Class BrowserRel (ok : string -> Prop) (R : relation world) : Prop := {
  br_preorder :: PreOrder R;
  br_ok m : m <> ""%string -> ok m;
  br_setItem k v : keeps id R (setItem k v);
  br_toast t w : ok (toast_text t) -> R w (add_toast t w);
  br_history p w : R w (add_history p w);
  br_location u w : R w (set_location u w);
  br_sent rq w : R w (add_sent rq w);
  br_console e w : R w (add_console e w);
  br_timers ts w : R w (set_timers ts w)
}.

(** ** The handlers keep every such relation *)

Section Kept.
Context (ok : string -> Prop) (R : relation world) `{!BrowserRel ok R}.

#[local] Instance kept_preorder : PreOrder R := br_preorder.
#[local] Hint Resolve kept_preorder : browser_kept.

Lemma keeps_push p : keeps id R (push p).
Proof. intros w. apply br_history. Qed.
Lemma keeps_assign_location u : keeps id R (assign_location u).
Proof. intros w. apply br_location. Qed.
Lemma keeps_console_error e : keeps id R (console_error e).
Proof. intros w. apply br_console. Qed.
Lemma keeps_setTimeout_push p d : keeps id R (setTimeout_push p d).
Proof. intros w. apply br_timers. Qed.
Lemma keeps_api_request `{Backend} rq : keeps id R (api_request rq).
Proof. intros w. apply br_sent. Qed.
Lemma keeps_api_send rq : keeps id R (api_send rq).
Proof. intros w. apply br_sent. Qed.
Lemma keeps_toast_success m : ok m -> keeps id R (toast_success m).
Proof. intros Hm w. by apply (br_toast (ToastSuccess m)). Qed.
Lemma keeps_toast_error m : ok m -> keeps id R (toast_error m).
Proof. intros Hm w. by apply (br_toast (ToastError m)). Qed.

Lemma run_timers_kept w : R w (run_timers w).
Proof.
  unfold run_timers. etrans; [|apply br_timers].
  generalize (timer_order (w_timers w)). intros ts. revert w.
  induction ts as [|t ts IH]; intros w; [done|]. simpl. etrans; [apply br_history|apply IH].
Qed.

#[local] Hint Resolve keeps_push keeps_assign_location keeps_console_error keeps_setTimeout_push
  keeps_api_request keeps_api_send keeps_toast_success keeps_toast_error br_setItem : browser_kept.
#[local] Hint Extern 2 (ok _) => apply br_ok : browser_kept.
#[local] Hint Extern 1 (_ <> ""%string) => (try unfold missing_code_message); discriminate : browser_kept.

Lemma keeps_logged (m : JS auth_response) : keeps id R m -> keeps id R (logged m).
Proof. intros Hm. unfold logged. keeps_auto. Qed.

Lemma keeps_settle_logged r : keeps id R (settle_logged r).
Proof. unfold settle_logged. keeps_auto. Qed.

Lemma keeps_persist_session d : keeps id R (persist_session d).
Proof. unfold persist_session. keeps_auto. Qed.

Lemma keeps_initiateOAuth `{OAuthEnv} p : keeps id R (initiateOAuth p).
Proof. unfold initiateOAuth. keeps_auto. Qed.

#[local] Hint Resolve keeps_logged keeps_settle_logged keeps_persist_session keeps_initiateOAuth : browser_kept.

Lemma keeps_exchangeOAuthCode `{Backend} c : keeps id R (exchangeOAuthCode c).
Proof. unfold exchangeOAuthCode, api_post. eauto with browser_kept. Qed.

Lemma keeps_loginService `{Backend} v : keeps id R (loginService v).
Proof. unfold loginService, api_post. eauto with browser_kept. Qed.

#[local] Hint Resolve keeps_exchangeOAuthCode keeps_loginService : browser_kept.

Lemma keeps_fail_with m : ok m -> keeps fst R (fail_with m).
Proof. intros Hm. unfold fail_with, setStatus, setMessage, browser. keeps_auto. Qed.

#[local] Hint Resolve keeps_fail_with : browser_kept.

Section Callback.
Context `{Backend} `{ApiErrorHandler}.

Lemma keeps_processCallback params : keeps fst R (processCallback params).
Proof.
  unfold processCallback, exchange_and_store, on_exchange_response, exchange_failed,
    setStatus, setMessage, browser.
  keeps_auto.
Qed.

Lemma keeps_callback_start params : keeps fst R (callback_start params).
Proof. unfold callback_start, browser. keeps_auto. Qed.

Lemma keeps_callback_settle r : keeps fst R (callback_settle r).
Proof.
  unfold callback_settle, on_exchange_response, exchange_failed, setStatus, setMessage, browser.
  keeps_auto.
Qed.

(** The login form's error toast is [message ?? "Unknown error"]: an empty
    message from [apiErrorHandler] passes through [??]. *)
Context (login_ok : forall e, ok (nullish (ae_message (apiErrorHandler e)) "Unknown error")).
#[local] Hint Resolve login_ok : browser_kept.

Lemma keeps_settle_login r : keeps fst R (settle_login r).
Proof. unfold settle_login, on_login_response, on_login_error, form_reset. keeps_auto. Qed.

Lemma keeps_handleSubmit valid : keeps fst R (handleSubmit valid).
Proof.
  unfold handleSubmit, setSubmitting, onSubmit, on_login_response, on_login_error, form_reset.
  keeps_auto.
Qed.
End Callback.

(** The click handler's toast is [err.message] when [err] is an [Error]. *)
Lemma keeps_handleOAuthClick `{OAuthEnv} props prov :
  (forall err, ok (click_error_message err)) ->
  (forall f, onProviderClick props = Some f -> keeps id R (f prov)) ->
  keeps fst R (handleOAuthClick props prov).
Proof.
  intros Hmsg Hf. unfold handleOAuthClick, setLoadingProvider, setError. keeps_auto.
Qed.

(** ** The transition systems *)

Section Steps.
Context `{ApiErrorHandler}.

Lemma page_step_kept params e p p' :
  page_step params e p = Some p' -> R (pg_world p) (pg_world p').
Proof.
  destruct e as [|r|q|]; simpl.
  - destruct (pg_phase p); [|done|done]. destruct (pg_mounted p); [|done].
    pose proof (keeps_callback_start params (pg_world p, pg_state p)) as Hk.
    destruct (callback_start params _) as [r [w' s']]. by intros [= <-].
  - destruct (pg_phase p); [done| |done].
    pose proof (keeps_callback_settle r (pg_world p, pg_state p)) as Hk.
    unfold final. destruct (callback_settle r _) as [o [w' s']]. by intros [= <-].
  - intros [= <-]. apply br_history.
  - intros [= <-]. apply run_timers_kept.
Qed.

Lemma page_reachable_kept params w0 p :
  CallbackPage.reachable params w0 p -> R w0 (pg_world p).
Proof. induction 1 as [|p e p' _ IH Hs]; [done|]. etrans; [exact IH|by eapply page_step_kept]. Qed.

Context (login_ok : forall e, ok (nullish (ae_message (apiErrorHandler e)) "Unknown error")).

Lemma form_step_kept valid p p' : form_step valid p p' -> R (fp_world p) (fp_world p').
Proof.
  destruct 1; simpl; try done; [apply br_sent|].
  apply (keeps_settle_login login_ok r (w, st)).
Qed.

Lemma form_reachable_kept valid w0 p : LoginForm.reachable valid w0 p -> R w0 (fp_world p).
Proof. induction 1 as [|p p' _ IH Hs]; [done|]. etrans; [exact IH|by eapply form_step_kept]. Qed.
End Steps.
End Kept.

(** ** The storage quota *)

(** The storage holds no more than its quota. *)
Definition world_wf (w : world) : Prop := storage_size (w_storage w) <= w_quota w.

Definition quota_kept (w w' : world) : Prop := world_wf w -> world_wf w'.

Lemma keeps_setItem_quota k v : keeps id quota_kept (setItem k v).
Proof.
  intros w Hw. unfold setItem. simpl.
  destruct (Nat.leb_spec (storage_size (<[k := v]> (w_storage w))) (w_quota w)); done.
Qed.

#[export] Instance quota_browser_rel : BrowserRel (fun _ => True) quota_kept.
Proof.
  split; [split| | | | | | | |]; unfold quota_kept; auto.
  apply keeps_setItem_quota.
Qed.

(** ** The toasts *)

(** The toasts shown in between have non-empty texts. *)
Definition toasts_kept (w w' : world) : Prop :=
  exists new, w_toasts w' = w_toasts w ++ new /\ Forall (fun t => toast_text t <> ""%string) new.

Lemma toasts_kept_same w w' : w_toasts w' = w_toasts w -> toasts_kept w w'.
Proof. intros H. exists []. by rewrite app_nil_r. Qed.

#[export] Instance toasts_browser_rel : BrowserRel (fun m => m <> ""%string) toasts_kept.
Proof.
  split; [split| | | | | | | |]; try (intros; by apply toasts_kept_same).
  - intros w. by apply toasts_kept_same.
  - intros w1 w2 w3 (n1 & H1 & F1) (n2 & H2 & F2). exists (n1 ++ n2).
    rewrite H2, H1, app_assoc. split; [done|]. by apply Forall_app.
  - done.
  - intros k v w. apply toasts_kept_same. unfold setItem. by destruct (_ <=? _).
  - intros t w Ht. exists [t]. split; [done|]. by constructor.
Qed.

(** An [apiErrorHandler] that never returns an empty message gives the
    login form's error toast a text. *)
Lemma nullish_message_nonempty `{ApiErrorHandler} :
  (forall e, ae_message (apiErrorHandler e) <> Some ""%string) ->
  forall e, nullish (ae_message (apiErrorHandler e)) "Unknown error" <> ""%string.
Proof. intros Hh e. specialize (Hh e). destruct (ae_message _); simpl; congruence. Qed.

(** The specification's handler never returns an empty message. *)
Lemma spec_apiErrorHandler_nonempty e :
  ae_message (@apiErrorHandler spec_apiErrorHandler e) <> Some ""%string.
Proof.
  unfold apiErrorHandler, spec_apiErrorHandler, generic_error_message.
  destruct e as [st [m|] msg| | |]; try discriminate.
  destruct (String.eqb_spec m ""); simpl; congruence.
Qed.

(** Local storage never exceeds its quota: from a browser whose
    storage is within the quota, every reachable state of the OAuth
    callback page and of the login form keeps it within the quota, and
    so does a click on an OAuth button whenever the parent's
    [onProviderClick] does. *)
Theorem storage_within_quota `{ApiErrorHandler} params valid w0 :
  world_wf w0 ->
  (forall p, CallbackPage.reachable params w0 p -> world_wf (pg_world p)) /\
  (forall p, LoginForm.reachable valid w0 p -> world_wf (fp_world p)) /\
  (forall (E : OAuthEnv) props prov,
     (forall f, onProviderClick props = Some f -> keeps id quota_kept (f prov)) ->
     keeps fst quota_kept (handleOAuthClick props prov)).
Proof.
  intros Hw. split_and!.
  - intros p Hp. exact (page_reachable_kept (fun _ => True) quota_kept params w0 p Hp Hw).
  - intros p Hp. exact (form_reachable_kept (fun _ => True) quota_kept (fun _ => I) valid w0 p Hp Hw).
  - intros E props prov Hf. exact (keeps_handleOAuthClick (fun _ => True) quota_kept props prov (fun _ => I) Hf).
Qed.

Lemma storage_within_quota_witness :
  world_wf demo_w /\ world_wf (pg_world failed_page).
Proof.
  assert (Hw : world_wf demo_w) by (vm_compute; lia).
  split; [exact Hw|].
  exact (proj1 (storage_within_quota code_params valid_login demo_w Hw) failed_page failed_page_reachable).
Defined.

(** A click shows a toast with a text when the redirect it starts shows
    none without one and throws only errors whose message is not empty. *)
Lemma keeps_handleOAuthClick_toasts `{OAuthEnv} props prov :
  keeps id toasts_kept (start_redirect props prov) ->
  (forall w e w1, start_redirect props prov w = (Exc e, w1) -> click_error_message e <> ""%string) ->
  keeps fst toasts_kept (handleOAuthClick props prov).
Proof.
  intros Hk Hm [w st]. simpl. destruct (isLoading props st) eqn:Hl.
  - rewrite handleOAuthClick_ignored by done. reflexivity.
  - rewrite handleOAuthClick_run by done. specialize (Hk w). simpl in Hk.
    destruct (start_redirect props prov w) as [[[]|e] w1] eqn:Hs; simpl in *; [exact Hk|].
    etrans; [exact Hk|]. exists [ToastError (click_error_message e)].
    split; [done|]. constructor; [exact (Hm w e w1 Hs)|constructor].
Qed.

(** C16 No toast is shown without a text: every toast the OAuth callback
    page shows, on every path and whatever [apiErrorHandler] returns, has
    a non-empty text (each message goes through [||] with a non-empty
    default); every toast the login form shows has one when
    [apiErrorHandler] never returns an empty message, since the form
    applies [??], which keeps an empty string; a click on an OAuth button
    shows one when the parent's [onProviderClick] shows none without a
    text and the redirect throws only errors with a message, since the
    button shows [err.message] as it is. *)
Theorem toasts_never_empty `{ApiErrorHandler} params valid w0 :
  (forall p, CallbackPage.reachable params w0 p -> toasts_kept w0 (pg_world p)) /\
  ((forall e, ae_message (apiErrorHandler e) <> Some ""%string) ->
   forall p, LoginForm.reachable valid w0 p -> toasts_kept w0 (fp_world p)) /\
  (forall (E : OAuthEnv) props prov,
     keeps id toasts_kept (start_redirect props prov) ->
     (forall w e w1, start_redirect props prov w = (Exc e, w1) -> click_error_message e <> ""%string) ->
     keeps fst toasts_kept (handleOAuthClick props prov)).
Proof.
  split_and!.
  - intros p Hp. exact (page_reachable_kept (fun m => m <> ""%string) toasts_kept params w0 p Hp).
  - intros Hh p Hp.
    exact (form_reachable_kept (fun m => m <> ""%string) toasts_kept (nullish_message_nonempty Hh) valid w0 p Hp).
  - intros E props prov Hk Hm. exact (keeps_handleOAuthClick_toasts props prov Hk Hm).
Qed.

Lemma toasts_never_empty_witness :
  toasts_kept demo_w (pg_world failed_page) /\ toasts_kept lw (fp_world submitted_page) /\
  keeps fst toasts_kept (@handleOAuthClick failing_env no_props google).
Proof.
  split_and!.
  - exact (proj1 (toasts_never_empty code_params valid_login demo_w) failed_page failed_page_reachable).
  - exact (proj1 (proj2 (toasts_never_empty code_params valid_login lw)) spec_apiErrorHandler_nonempty
             submitted_page submitted_page_reachable).
  - apply (proj2 (proj2 (toasts_never_empty code_params valid_login lw)) failing_env no_props google).
    + intros w. by apply toasts_kept_same.
    + intros w e w1 Hs. vm_compute in Hs. injection Hs as <- _. discriminate.
Defined.

(** A handler that returns an empty message: the login form shows a toast
    with no text, where [||] would have shown ["Unknown error"]. *)
Example login_toast_empty_with_lax_handler :
  w_toasts (fst (final (@on_login_error (fun _ => mk_api_error (Some ""%string)) NonErrorValue)
                       (lw, form_init))) = [ToastError ""].
Proof. reflexivity. Qed.

(** A redirect that throws [new Error("")]: the button shows a toast with
    no text, and no inline error, since [{error && ...}] hides an empty
    string. *)
Example click_toast_empty_with_empty_error :
  w_toasts (fst (final (@handleOAuthClick (fun _ => Some (PlainError "")) no_props google)
                       (w0, buttons_init))) = [ToastError ""] /\
  error (snd (final (@handleOAuthClick (fun _ => Some (PlainError "")) no_props google)
                       (w0, buttons_init))) = Some ""%string.
Proof. split; reflexivity. Qed.

(** ** The two login paths share the session block *)

(** C34 The OAuth callback and the login form store the session with the
    same block: given the same successful answer, the callback page
    (after the code exchange) and the login form (after the login
    request) leave the same [localStorage], the one [persist_session]
    makes of it, whether every write fits or a write throws
    [QuotaExceededError] halfway (which both catch). *)
Theorem login_paths_same_storage `{Backend} `{ApiErrorHandler} params c v r d w s st :
  error_signalled params = false -> as_truthy (search_get params "code") = Some c ->
  backend_respond (exchange_request c) = Ok r -> backend_respond (login_request v) = Ok r ->
  is_success r = Some d ->
  w_storage (fst (final (processCallback params) (w, s))) = w_storage (final (persist_session d) w) /\
  w_storage (fst (final (onSubmit v) (w, st))) = w_storage (final (persist_session d) w).
Proof.
  intros He Hc Hx Hl Hd. split.
  - destruct (persist_session d (add_sent (exchange_request c) w)) as [o w2] eqn:Hp.
    unfold final at 1. rewrite (processCallback_answered params c r d w s o w2) by done.
    rewrite <- (persist_session_storage d (add_sent (exchange_request c) w) w) by done.
    unfold final. rewrite Hp. by destruct o.
  - rewrite <- (persist_session_storage d (add_sent (login_request v) w) w) by done.
    unfold final. rewrite onSubmit_settle, Hl.
    unfold settle_login, try_catch, mbind at 1, on_login_response. js_run. rewrite Hd.
    destruct (persist_session d _) as [[[]|e] w2]; js_run; try done.
Qed.

(** A backend that gives every request the same successful answer. *)
Definition same_answer_backend : Backend := fun _ => Ok login_ok_response.

(** With a quota of 20 characters the [refreshToken] write throws: both
    paths keep the [accessToken] alone. *)
Lemma login_paths_same_storage_witness :
  w_storage (fst (final (@processCallback same_answer_backend spec_apiErrorHandler code_params)
                        (demo_world ∅ 20, cb_init))) = {["accessToken" := "at"]} /\
  w_storage (fst (final (@onSubmit same_answer_backend spec_apiErrorHandler demo_login)
                        (demo_world ∅ 20, form_init))) = {["accessToken" := "at"]}.
Proof.
  destruct (@login_paths_same_storage same_answer_backend spec_apiErrorHandler code_params "abc123"
              demo_login login_ok_response (mk_auth_data (Some (mk_tokens "at" "rt")) (Some demo_user))
              (demo_world ∅ 20) cb_init form_init) as [H1 H2]; try reflexivity.
  rewrite H1, H2. split; vm_compute; reflexivity.
Defined.
